(** * DOOR rate oracle: collection, aggregation, validation and push

    A shallow embedding of the rate-oracle pipeline of the backend
    (oracle/collectors.ts, oracle/pusher.ts, oracle/index.ts) together with
    the properties its specification states about it.

    Conventions of the embedding.
    - A TypeScript [number] that holds a rate in basis points, a weight, a
      counter or a millisecond timestamp is an integer ([Z]); a [bigint] is a
      [Z] as well.  An observation whose rate is infinite or NaN cannot be
      written down.
    - A [number] that need not be an integer (a percentage, a gas multiplier,
      a quotient) is a double: a rational ([Q]) that is a multiple of a power
      of two with at most 53 significant bits, or one of the IEEE special
      values ([ieee]).  Products, sums and quotients of doubles are rounded
      to the nearest double ([round64]); the two zeros are not told apart.
    - [calculateDOR] is given twice: as the engine computes it, on doubles
      ([Double.calculateDOR]), and in exact arithmetic
      ([Collectors.calculateDOR]).  The two agree as long as the weighted
      sum stays below 2^51 ([calculateDOR_exact_in_range]).
    - Asynchronous code is written in state-passing style over a [World]
      holding the wall clock and the trace of calls made to the outside
      (HTTP endpoints, the chain, the database).  What the outside answers is
      a parameter ([Env]) that may depend on the whole world, so the k-th
      call may answer differently from the one before it.
    - Console output is not part of the model. *)

From Stdlib Require Import ZArith QArith Qround List String Bool Lia Permutation.
From Stdlib Require Import SpecFloat.
Import ListNotations.
Local Open Scope Z_scope.

(** ** Numbers *)

(** A floating-point number: a finite value, an infinity or NaN. *)
Inductive ieee (A : Type) : Type :=
| Finite (x : A)
| Infinity (negative : bool)
| NaN.
Arguments Finite {A} x.
Arguments Infinity {A} negative.
Arguments NaN {A}.

(** [a / b] on two integers. *)
Definition js_div (a b : Z) : ieee Q :=
  if b =? 0 then
    if a =? 0 then NaN else Infinity (a <? 0)
  else Finite (inject_Z a / inject_Z b)%Q.

(** [Math.round]: the nearest integer, halves going up. *)
Definition round_half_up (x : Q) : Z := Qfloor (x + (1 # 2))%Q.

Definition Math_round (x : ieee Q) : ieee Z :=
  match x with
  | Finite q => Finite (round_half_up q)
  | Infinity s => Infinity s
  | NaN => NaN
  end.

(** *** Doubles (IEEE 754 binary64) *)

(** The integer nearest to [num / den] for a positive [den], halves going
    to the even neighbour. *)
Definition rne (num den : Z) : Z :=
  let q := num / den in
  match 2 * (num mod den) ?= den with
  | Lt => q
  | Gt => q + 1
  | Eq => if Z.even q then q else q + 1
  end.

(** The integer part of the binary logarithm of [|n / d|], for [n] other
    than zero and a positive [d]. *)
Definition ilog2 (n d : Z) : Z :=
  let k := Z.log2 (Z.abs n) - Z.log2 d in
  if (if 0 <=? k then d * 2 ^ k <=? Z.abs n else d <=? Z.abs n * 2 ^ (- k))
  then k else k - 1.

(** The double nearest to a rational, halves going to the even mantissa:
    the rational is scaled by the power of two [2^e] that leaves 53 bits
    before the point (no less than [2^-1074], the spacing of the subnormal
    numbers), rounded to an integer and scaled back; a result of [2^1024]
    or more is an infinity. *)
Definition round64 (x : Q) : ieee Q :=
  let n := Qnum x in
  let d := Zpos (Qden x) in
  if n =? 0 then Finite 0%Q
  else
    let e := Z.max (ilog2 n d - 52) (-1074) in
    if 0 <=? e then
      let m := rne n (d * 2 ^ e) in
      if 2 ^ 1024 <=? Z.abs m * 2 ^ e then Infinity (n <? 0)
      else Finite (inject_Z (m * 2 ^ e))
    else Finite (Qred (Qmake (rne (n * 2 ^ (- e)) d) (Z.to_pos (2 ^ (- e))))).

Definition isNeg (q : Q) : bool := Qnum q <? 0.

Definition isZero (q : Q) : bool := Qnum q =? 0.

(** [x + y], [x * y] and [x / y] on doubles. *)
Definition d_add (x y : ieee Q) : ieee Q :=
  match x, y with
  | NaN, _ | _, NaN => NaN
  | Infinity s, Infinity s' => if Bool.eqb s s' then Infinity s else NaN
  | Infinity s, Finite _ | Finite _, Infinity s => Infinity s
  | Finite a, Finite b => round64 (a + b)
  end.

Definition d_mul (x y : ieee Q) : ieee Q :=
  match x, y with
  | NaN, _ | _, NaN => NaN
  | Infinity s, Infinity s' => Infinity (xorb s s')
  | Infinity s, Finite a | Finite a, Infinity s =>
      if isZero a then NaN else Infinity (xorb s (isNeg a))
  | Finite a, Finite b => round64 (a * b)
  end.

Definition d_div (x y : ieee Q) : ieee Q :=
  match x, y with
  | NaN, _ | _, NaN => NaN
  | Infinity _, Infinity _ => NaN
  | Infinity s, Finite b => Infinity (xorb s (isNeg b))
  | Finite _, Infinity _ => Finite 0%Q
  | Finite a, Finite b =>
      if isZero b then (if isZero a then NaN else Infinity (isNeg a))
      else round64 (a / b)
  end.

(** The same operations as the standard library specifies them, on a
    mantissa and an exponent ([SpecFloat], here with 53 bits of precision
    and exponents below 1024).  The operations above are compared with them
    on sample operands ([doubles_agree_with_SpecFloat]). *)
Definition ofSpecFloat (f : spec_float) : ieee Q :=
  match f with
  | S754_zero _ => Finite 0%Q
  | S754_infinity s => Infinity s
  | S754_nan => NaN
  | S754_finite s m e =>
      let n := if s then Z.neg m else Z.pos m in
      Finite (Qred (if 0 <=? e then inject_Z (n * 2 ^ e)
                    else Qmake n (Z.to_pos (2 ^ (- e)))))
  end.

Definition specOfZ (z : Z) : spec_float := binary_normalize 53 1024 z 0 false.

Definition sameNumber (a b : ieee Q) : bool :=
  match a, b with
  | Finite x, Finite y => (Qnum x =? Qnum y) && Pos.eqb (Qden x) (Qden y)
  | Infinity s, Infinity s' => Bool.eqb s s'
  | NaN, NaN => true
  | _, _ => false
  end.

(** The sum, the product and the quotient of the doubles of [a] and [b],
    their quotient times 100, and the sum of their two quotients. *)
Definition agreeOn (a b : Z) : bool :=
  let x := round64 (inject_Z a) in
  let y := round64 (inject_Z b) in
  let x' := specOfZ a in
  let y' := specOfZ b in
  sameNumber (d_add x y) (ofSpecFloat (SFadd 53 1024 x' y'))
  && sameNumber (d_mul x y) (ofSpecFloat (SFmul 53 1024 x' y'))
  && sameNumber (d_div x y) (ofSpecFloat (SFdiv 53 1024 x' y'))
  && sameNumber (d_mul (d_div x y) (round64 (inject_Z 100)))
       (ofSpecFloat (SFmul 53 1024 (SFdiv 53 1024 x' y') (specOfZ 100)))
  && sameNumber (d_add (d_div x y) (d_div y x))
       (ofSpecFloat (SFadd 53 1024 (SFdiv 53 1024 x' y') (SFdiv 53 1024 y' x'))).

Definition sampleOperands : list (Z * Z) :=
  [ (9007199254740991, 2000); (12, 10); (11, 10); (1005, 1000); (15, 1000);
    (1, 10); (2, 10); (2251799813685250, 3000); (9007199254740993, 1);
    (18014398509481990, 3); (2 ^ 1023, 2000); (1, 2 ^ 1023); (3, 2 ^ 1074);
    (1, 2 ^ 1075 + 1); (-7, 3); (0, 5); (5, 0); (0, 0) ].

(** An integer as a double; [Number(n)] for a [bigint]. *)
Definition ofZ (z : Z) : ieee Q := round64 (inject_Z z).

(** A number in a condition: zero and NaN are falsy. *)
Definition truthyNumber (x : ieee Q) : bool :=
  match x with
  | Finite q => negb (isZero q)
  | Infinity _ => true
  | NaN => false
  end.

(** [x === 0] *)
Definition isZeroNumber (x : ieee Q) : bool :=
  match x with
  | Finite q => isZero q
  | _ => false
  end.

(** ** Data model (collectors.ts) *)

Inductive RateSourceId : Type := TESR | METH | SOFR | AAVE_USDT | ONDO_USDY.

(** The numeric value of each member of the enum. *)
Definition sourceIndex (s : RateSourceId) : Z :=
  match s with
  | TESR => 0 | METH => 1 | SOFR => 2 | AAVE_USDT => 3 | ONDO_USDY => 4
  end.

Definition sourceId_eqb (a b : RateSourceId) : bool :=
  sourceIndex a =? sourceIndex b.

Definition allSources : list RateSourceId :=
  [TESR; METH; SOFR; AAVE_USDT; ONDO_USDY].

Record RateData : Type := mkRate {
  sourceId : RateSourceId;
  name : string;
  rate : Z;            (* basis points *)
  timestamp : Z;       (* milliseconds *)
  source : string;
  isLive : bool
}.

(** The [weights] table of [calculateDOR]. *)
Definition weights (s : RateSourceId) : Z :=
  match s with
  | TESR => 2000
  | METH => 3000
  | SOFR => 2500
  | AAVE_USDT => 1500
  | ONDO_USDY => 1000
  end.

(** One turn of the loop of [calculateDOR] on the pair
    [(weightedSum, totalWeight)]. *)
Definition accumulate (acc : Z * Z) (r : RateData) : Z * Z :=
  let weight := weights (sourceId r) in
  (fst acc + rate r * weight, snd acc + weight).

Definition weightedSum (rates : list RateData) : Z :=
  fst (fold_left accumulate rates (0, 0)).

Definition totalWeight (rates : list RateData) : Z :=
  snd (fold_left accumulate rates (0, 0)).

(** Smallest and largest [rate] of an observation list (0 on the empty
    list). *)
Definition minRate (rates : list RateData) : Z :=
  match rates with
  | [] => 0
  | r :: rest => fold_left (fun m x => Z.min m (rate x)) rest (rate r)
  end.

Definition maxRate (rates : list RateData) : Z :=
  match rates with
  | [] => 0
  | r :: rest => fold_left (fun m x => Z.max m (rate x)) rest (rate r)
  end.

(** The denominator as the specification words it: the 10,000 bps of the
    five sources less the weight of every source that has no observation. *)
Definition present (rates : list RateData) (s : RateSourceId) : bool :=
  existsb (fun r => sourceId_eqb (sourceId r) s) rates.

Definition absentWeight (rates : list RateData) : Z :=
  fold_right Z.add 0
    (map weights (filter (fun s => negb (present rates s)) allSources)).

Definition renormalizedDenominator (rates : list RateData) : Z :=
  10000 - absentWeight rates.

(** The observation set of the end-to-end scenario. *)
Definition scenario : list RateData :=
  [ mkRate TESR "TESR" 350 0 "api.treehouse.finance" true;
    mkRate METH "mETH" 450 0 "Mantle API" true;
    mkRate SOFR "SOFR" 460 0 "markets.newyorkfed.org" true;
    mkRate AAVE_USDT "Aave_USDT" 550 0 "Aave API" true;
    mkRate ONDO_USDY "Ondo_USDY" 500 0 "Ondo API" true ].

(** ** Validation (collectors.ts, [validateRates]) *)

(** The messages pushed by [validateRates], one constructor per template. *)
Inductive ValidationError : Type :=
| EMinSources (available : Z)
    (* `Only ${rates.length}/5 sources available (minimum 3 required)` *)
| ENegativeRate (name : string) (rate : Z).
    (* `${rate.name} has negative rate: ...` *)

Inductive ValidationWarning : Type :=
| WStale (name : string)
    (* `${rate.name} data is stale (> 24h old)` *)
| WHighRate (name : string) (rate : Z)
    (* `${rate.name} has unusually high rate: ...` *)
| WFallback (fallbackCount : Z).
    (* `${fallbackCount}/5 sources using fallback values` *)

Record Validation : Type := mkValidation {
  isValid : bool;
  warnings : list ValidationWarning;
  errors : list ValidationError
}.

Definition zlength {A : Type} (l : list A) : Z := Z.of_nat (List.length l).

Definition maxAge : Z := 24 * 60 * 60 * 1000.

(** Body of the stale-data loop. *)
Definition checkStale (now : Z) (ws : list ValidationWarning) (r : RateData)
  : list ValidationWarning :=
  if now - timestamp r >? maxAge then ws ++ [WStale (name r)] else ws.

(** Body of the extreme-values loop on the pair [(errors, warnings)]. *)
Definition checkExtreme (acc : list ValidationError * list ValidationWarning)
  (r : RateData) : list ValidationError * list ValidationWarning :=
  let es := if rate r <? 0 then fst acc ++ [ENegativeRate (name r) (rate r)]
            else fst acc in
  let ws := if rate r >? 5000 then snd acc ++ [WHighRate (name r) (rate r)]
            else snd acc in
  (es, ws).

Definition fallbackCount (rates : list RateData) : Z :=
  zlength (filter (fun r => negb (isLive r)) rates).

(** ** Effects *)

Inductive Error : Type :=
| Failure (message : string)
    (* [new Error(message)], and whatever the outside raises *)
| TypeError (message : string)
| RangeError (message : string)
| GasPriceTooHigh (gasPrice maxGasPrice : Z)
    (* `Gas price too high: ${gasPrice} > ${this.config.maxGasPrice}` *)
| TransactionFailed (hash : string)
    (* `Transaction failed: ${tx.hash}` *)
| ValidationFailed (errors : list ValidationError).
    (* `Validation failed: ${validation.errors.join(', ')}` *)

(** What a [throw] carries: an error object, or [null] (the initial value of
    [lastError] in [withRetry]). *)
Inductive Thrown : Type :=
| ThrownNull
| Err (e : Error).

Inductive Outcome (A : Type) : Type :=
| Ok (value : A)
| Throw (t : Thrown).
Arguments Ok {A} value.
Arguments Throw {A} t.

(** The answer of the outside to one call. *)
Inductive Answer (A : Type) : Type :=
| Answered (a : A)
| Failed (message : string).
Arguments Answered {A} a.
Arguments Failed {A} message.

Record Receipt : Type := mkReceipt {
  receiptHash : string;
  status : Z;
  blockNumber : Z;
  gasUsed : Z
}.

Record ChainSource : Type := mkChainSource {
  chainName : string;
  chainWeight : Z;
  chainRate : Z;
  lastUpdate : Z;
  isActive : bool
}.

(** Calls that leave the process, and timer waits. *)
Inductive Event : Type :=
| EvSleep (ms : Z)
| EvInvoke
| EvHttpGet (url : string)
| EvAuthorizedUpdaters
| EvGetDOR
| EvGetAllRateSources
| EvEstimateGas (sourceIds newRates : list Z)
| EvGetFeeData
| EvBatchUpdateRates (sourceIds newRates : list Z) (gasLimit : Z)
| EvWait (hash : string)
| EvDbSaveDORUpdate (dor : ieee Z) (success : bool)
| EvDbLog (level : string).

Record World : Type := mkWorld {
  clock : Z;              (* Date.now() *)
  trace : list Event      (* most recent first *)
}.

Definition Async (A : Type) : Type := World -> Outcome A * World.

Definition ret {A : Type} (a : A) : Async A := fun w => (Ok a, w).

Definition throw {A : Type} (t : Thrown) : Async A := fun w => (Throw t, w).

Definition bind {A B : Type} (c : Async A) (k : A -> Async B) : Async B :=
  fun w =>
    match c w with
    | (Ok a, w1) => k a w1
    | (Throw t, w1) => (Throw t, w1)
    end.

Notation "x <- c ;; k" := (bind c (fun x => k))
  (at level 61, c at next level, right associativity).

(** [try { body } catch (error) { handler(error) }] *)
Definition try_catch {A : Type} (body : Async A) (handler : Thrown -> Async A)
  : Async A :=
  fun w =>
    match body w with
    | (Ok a, w1) => (Ok a, w1)
    | (Throw t, w1) => handler t w1
    end.

Definition now : Async Z := fun w => (Ok (clock w), w).

(** [await new Promise(resolve => setTimeout(resolve, delay))]: the timer is
    taken to fire exactly on time. *)
Definition sleep (delay : Z) (w : World) : World :=
  mkWorld (clock w + delay) (EvSleep delay :: trace w).

(** What the outside answers.  Every answer may depend on the world at the
    time of the call; [latency] is the time a call takes. *)
Record Env : Type := mkEnv {
  latency : World -> Z;
  http : string -> World -> Answer (option Q);
    (* the body of the response, decoded: the number found at the fields the
       parser of that endpoint reads, if there is one; the number is the
       double nearest to the rational given here.  A body whose field does
       not parse as a number (NaN) is not among the answers. *)
  authorizedUpdaters : World -> Answer bool;
  getDOR : World -> Answer Z;
  getAllRateSources : World -> Answer (list ChainSource);
  estimateGasCall : list Z -> list Z -> World -> Answer Z;
  getFeeData : World -> Answer (option Z);          (* [feeData.gasPrice] *)
  batchUpdateRates : list Z -> list Z -> Z -> World -> Answer string; (* [tx.hash] *)
  wait : string -> World -> Answer (option Receipt);
  dbSaveDORUpdate : World -> Answer unit;
  dbLog : World -> Answer unit;
  walletAccepts : string -> bool
    (* whether [new Wallet(privateKey)] accepts the key or throws *)
}.

(** One call to the outside: it is recorded, takes [latency] and returns or
    raises what the outside answers. *)
Definition external {A : Type} (env : Env) (ev : Event)
  (answer : World -> Answer A) : Async A :=
  fun w =>
    let w1 := mkWorld (clock w + latency env w) (ev :: trace w) in
    match answer w with
    | Answered a => (Ok a, w1)
    | Failed message => (Throw (Err (Failure message)), w1)
    end.

(** ** Collectors (collectors.ts, the version with retry and fallback chains) *)

Module Collectors.

Record CollectorConfig : Type := mkCollectorConfig {
  maxRetries : Z;
  retryDelayMs : Z;
  timeoutMs : Z
}.

Definition DEFAULT_CONFIG : CollectorConfig := mkCollectorConfig 3 1000 15000.

(** The [for] loop of [withRetry]: [turns] iterations are left, [attempt]
    is the loop counter and [lastError] the last error caught. *)
Fixpoint retryLoop {T : Type} (fn : Async T) (config : CollectorConfig)
  (turns : nat) (attempt : Z) (lastError : Thrown) : Async T :=
  match turns with
  | O => throw lastError
  | S turns' =>
      fun w =>
        match fn w with
        | (Ok v, w1) => (Ok v, w1)
        | (Throw error, w1) =>
            let w2 :=
              if attempt <? maxRetries config
              then sleep (retryDelayMs config * 2 ^ (attempt - 1)) w1
              else w1 in
            retryLoop fn config turns' (attempt + 1) error w2
        end
  end.

Definition withRetry {T : Type} (fn : Async T) (config : CollectorConfig)
  : Async T :=
  retryLoop fn config (Z.to_nat (maxRetries config)) 1 ThrownNull.

Definition httpGet (env : Env) (url : string) : Async (option Q) :=
  external env (EvHttpGet url) (http env url).

(** [Math.round(ratePercent * 100)], a product of doubles. *)
Definition toBpsNumber (percent : Q) : ieee Z :=
  Math_round (d_mul (round64 percent) (ofZ 100)).

(** The same as an integer.  A percentage beyond 1.79e306, whose rate is
    infinite, is outside the model: the field [rate] cannot hold its
    rate. *)
Definition toBps (percent : Q) : Z :=
  match toBpsNumber percent with
  | Finite bps => bps
  | _ => 0
  end.

(** The loop [for (const source of sources) { try { ... return ... }
    catch (error) { console.warn(..., (error as Error).message) } }]
    followed by the fallback [return].  Reading [.message] of [null]
    raises a TypeError out of the [catch] block. *)
Fixpoint trySources {A : Type} (attempts : list (Async A)) (fallback : Async A)
  : Async A :=
  match attempts with
  | [] => fallback
  | attempt :: others =>
      fun w =>
        match attempt w with
        | (Ok v, w1) => (Ok v, w1)
        | (Throw (Err _), w1) => trySources others fallback w1
        | (Throw ThrownNull, w1) =>
            (Throw (Err (TypeError
               "Cannot read properties of null (reading 'message')")), w1)
        end
  end.

(** An object [{ url, parser }]; [host] is [new URL(url).hostname] and
    [invalid] the message raised when the parser finds no number (for TESR
    the check after the parser raises it). *)
Record ParsedSource : Type := mkParsedSource {
  url : string;
  host : string;
  invalid : string
}.

(** A closure [async () => { ... }] that fetches [apiUrl] and returns the
    number it finds or raises [notFound]; [rejectsZero] tells whether the
    closure tests the number for truthiness ([if (apy)]) or only against
    [null] ([if (rate != null)]). *)
Record ApiSource : Type := mkApiSource {
  apiUrl : string;
  rejectsZero : bool;
  notFound : string
}.

Definition fetchParsed (env : Env) (id : RateSourceId) (label : string)
  (s : ParsedSource) : Async RateData :=
  ratePercent <- httpGet env (url s) ;;
  match ratePercent with
  | None => throw (Err (Failure (invalid s)))
  | Some p => t <- now ;; ret (mkRate id label (toBps p) t (host s) true)
  end.

Definition fetchApi (env : Env) (s : ApiSource) : Async Q :=
  found <- httpGet env (apiUrl s) ;;
  match found with
  | None => throw (Err (Failure (notFound s)))
  | Some p =>
      if rejectsZero s && negb (truthyNumber (round64 p))
      then throw (Err (Failure (notFound s)))
      else ret p
  end.

(** The final [return] of a collector. *)
Definition fallbackObservation (id : RateSourceId) (label : string) (bps : Z)
  : Async RateData :=
  t <- now ;; ret (mkRate id label bps t "Fallback" false).

(** The [try] block of a collector whose sources are closures. *)
Definition apiAttempt (env : Env) (config : CollectorConfig)
  (id : RateSourceId) (label origin : string) (s : ApiSource) : Async RateData :=
  rate <- withRetry (fetchApi env s) config ;;
  t <- now ;;
  ret (mkRate id label (toBps rate) t origin true).

(** The [try] block of a collector whose sources are [{ url, parser }]. *)
Definition parsedAttempt (env : Env) (config : CollectorConfig)
  (id : RateSourceId) (label : string) (s : ParsedSource) : Async RateData :=
  withRetry (fetchParsed env id label s) config.

Definition collectParsed (env : Env) (config : CollectorConfig)
  (id : RateSourceId) (label : string) (sources : list ParsedSource)
  (bps : Z) : Async RateData :=
  trySources (map (parsedAttempt env config id label) sources)
    (fallbackObservation id label bps).

Definition collectApi (env : Env) (config : CollectorConfig)
  (id : RateSourceId) (label origin : string) (sources : list ApiSource)
  (bps : Z) : Async RateData :=
  trySources (map (apiAttempt env config id label origin) sources)
    (fallbackObservation id label bps).

Definition collectTESR (env : Env) (config : CollectorConfig) : Async RateData :=
  collectParsed env config TESR "TESR"
    [ mkParsedSource "https://api.treehouse.finance/v1/rates/tesr"
        "api.treehouse.finance" "Invalid rate data";
      mkParsedSource "https://yields.llama.fi/pools"
        "yields.llama.fi" "Invalid rate data" ]
    350.

Definition collectMETH (env : Env) (config : CollectorConfig) : Async RateData :=
  collectApi env config METH "mETH" "Mantle API"
    [ mkApiSource "https://staking-api.mantle.xyz/api/v1/stats" true
        "No APY in response";
      mkApiSource "https://yields.llama.fi/pools" true
        "mETH not found in DefiLlama" ]
    450.

Definition collectSOFR (env : Env) (config : CollectorConfig) : Async RateData :=
  collectParsed env config SOFR "SOFR"
    [ mkParsedSource
        "https://markets.newyorkfed.org/api/rates/secured/sofr/last/1.json"
        "markets.newyorkfed.org" "Invalid SOFR response";
      mkParsedSource
        "https://api.stlouisfed.org/fred/series/observations?series_id=SOFR&sort_order=desc&limit=1&file_type=json"
        "api.stlouisfed.org" "Invalid FRED response" ]
    460.

Definition collectAaveUSDT (env : Env) (config : CollectorConfig)
  : Async RateData :=
  collectApi env config AAVE_USDT "Aave_USDT" "Aave API"
    [ mkApiSource "https://aave-api-v2.aave.com/data/markets-data" false
        "USDT not found in Aave response";
      mkApiSource "https://yields.llama.fi/pools" true
        "Aave USDT not found in DefiLlama" ]
    550.

Definition collectOndoUSDY (env : Env) (config : CollectorConfig)
  : Async RateData :=
  collectApi env config ONDO_USDY "Ondo_USDY" "Ondo API"
    [ mkApiSource "https://api.ondo.finance/v1/tokens/usdy" false
        "No yield in Ondo response";
      mkApiSource "https://ondo.finance/api/usdy/stats" false
        "No yield in Ondo stats";
      mkApiSource "https://api.rwa.xyz/v1/yields" true
        "USDY not found in RWA aggregator" ]
    500.

(** [Promise.allSettled]: every task runs to its end, whatever the others
    do.  The tasks are run one after the other here; their interleaving is
    not modelled. *)
Fixpoint allSettled {A : Type} (tasks : list (Async A)) (w : World)
  : list (Outcome A) * World :=
  match tasks with
  | [] => ([], w)
  | task :: others =>
      let (result, w1) := task w in
      let (results, w2) := allSettled others w1 in
      (result :: results, w2)
  end.

(** The loop of [collectAllRates] that keeps the fulfilled results. *)
Definition fulfilled {A : Type} (results : list (Outcome A)) : list A :=
  fold_left
    (fun rates result =>
       match result with
       | Ok v => rates ++ [v]
       | Throw _ => rates
       end)
    results [].

Definition collectAllRatesOf (tasks : list (Async RateData))
  : Async (list RateData) :=
  fun w => let (results, w1) := allSettled tasks w in (Ok (fulfilled results), w1).

Definition collectAllRates (env : Env) (config : CollectorConfig)
  : Async (list RateData) :=
  collectAllRatesOf
    [ collectTESR env config; collectMETH env config; collectSOFR env config;
      collectAaveUSDT env config; collectOndoUSDY env config ].

(** [calculateDOR] in exact arithmetic. *)
Definition calculateDOR (rates : list RateData) : ieee Z :=
  let '(weightedSum, totalWeight) := fold_left accumulate rates (0, 0) in
  if totalWeight =? 0 then Finite 460
  else Math_round (js_div weightedSum totalWeight).

(** [validateRates]; [now] is the value of [Date.now()] during the call. *)
Definition validateRates (now : Z) (rates : list RateData) : Validation :=
  let errors0 :=
    if zlength rates <? 3 then [EMinSources (zlength rates)] else [] in
  let warnings1 := fold_left (checkStale now) rates [] in
  let '(errors2, warnings2) :=
    fold_left checkExtreme rates (errors0, warnings1) in
  let warnings3 :=
    if fallbackCount rates >? 2
    then warnings2 ++ [WFallback (fallbackCount rates)]
    else warnings2 in
  mkValidation (zlength errors2 =? 0) warnings3 errors2.

End Collectors.

(** ** [calculateDOR] on doubles

    [rate.rate * weight], [weightedSum += ...], [totalWeight += weight] and
    [weightedSum / totalWeight] as the engine computes them.  The rate of an
    observation is the double nearest to [rate]. *)

Module Double.

Definition accumulate (acc : ieee Q * ieee Q) (r : RateData) : ieee Q * ieee Q :=
  let weight := ofZ (weights (sourceId r)) in
  (d_add (fst acc) (d_mul (ofZ (rate r)) weight), d_add (snd acc) weight).

Definition weightedSum (rates : list RateData) : ieee Q :=
  fst (fold_left accumulate rates (Finite 0%Q, Finite 0%Q)).

Definition totalWeight (rates : list RateData) : ieee Q :=
  snd (fold_left accumulate rates (Finite 0%Q, Finite 0%Q)).

(** The version with retry and fallback chains. *)
Definition calculateDOR (rates : list RateData) : ieee Z :=
  let '(weightedSum, totalWeight) :=
    fold_left accumulate rates (Finite 0%Q, Finite 0%Q) in
  if isZeroNumber totalWeight then Finite 460
  else Math_round (d_div weightedSum totalWeight).

End Double.

(** The first version (src/oracle/collectors.ts), on doubles. *)
Module DoubleBasic.

Definition calculateDOR (rates : list RateData) : ieee Z :=
  let '(weightedSum, totalWeight) :=
    fold_left Double.accumulate rates (Finite 0%Q, Finite 0%Q) in
  Math_round (d_div weightedSum totalWeight).

End DoubleBasic.

(** ** The first collectors (src/oracle/collectors.ts) *)

Module CollectorsBasic.

(** [calculateDOR]; the [RateData] of this file has no [isLive] field,
    which the function does not read. *)
Definition calculateDOR (rates : list RateData) : ieee Z :=
  let '(weightedSum, totalWeight) := fold_left accumulate rates (0, 0) in
  Math_round (js_div weightedSum totalWeight).

End CollectorsBasic.

(** ** Rate pusher (pusher.ts, the version with retry and circuit breaker) *)

Module Pusher.

Inductive CircuitState : Type := CLOSED | OPEN | HALF_OPEN.

Record CircuitBreakerConfig : Type := mkBreakerConfig {
  failureThreshold : Z;
  resetTimeoutMs : Z;
  halfOpenMaxAttempts : Z
}.

(** The private fields of a [CircuitBreaker]. *)
Record CircuitBreaker : Type := mkBreaker {
  state : CircuitState;
  failureCount : Z;
  lastFailureTime : Z;
  halfOpenAttempts : Z
}.

Definition newCircuitBreaker : CircuitBreaker := mkBreaker CLOSED 0 0 0.

Definition onSuccess (cb : CircuitBreaker) : CircuitBreaker :=
  let cb1 := mkBreaker (state cb) 0 (lastFailureTime cb) (halfOpenAttempts cb) in
  match state cb1 with
  | HALF_OPEN => mkBreaker CLOSED 0 (lastFailureTime cb1) (halfOpenAttempts cb1)
  | _ => cb1
  end.

Definition onFailure (config : CircuitBreakerConfig) (dateNow : Z)
  (cb : CircuitBreaker) : CircuitBreaker :=
  let cb1 := mkBreaker (state cb) (failureCount cb + 1) dateNow
               (halfOpenAttempts cb) in
  if failureCount cb1 >=? failureThreshold config
  then mkBreaker OPEN (failureCount cb1) dateNow (halfOpenAttempts cb1)
  else cb1.

(** The first [if] of [execute]: an OPEN breaker either becomes HALF_OPEN
    or refuses the request. *)
Definition checkOpen (config : CircuitBreakerConfig) (dateNow : Z)
  (cb : CircuitBreaker) : Outcome unit * CircuitBreaker :=
  match state cb with
  | OPEN =>
      if dateNow - lastFailureTime cb >=? resetTimeoutMs config
      then (Ok tt, mkBreaker HALF_OPEN (failureCount cb) (lastFailureTime cb) 0)
      else (Throw (Err (Failure "Circuit breaker is OPEN - refusing request")), cb)
  | _ => (Ok tt, cb)
  end.

(** The second [if] of [execute]: the count of half-open attempts. *)
Definition checkHalfOpen (config : CircuitBreakerConfig) (dateNow : Z)
  (cb : CircuitBreaker) : Outcome unit * CircuitBreaker :=
  match state cb with
  | HALF_OPEN =>
      let cb1 := mkBreaker (state cb) (failureCount cb) (lastFailureTime cb)
                   (halfOpenAttempts cb + 1) in
      if halfOpenAttempts cb1 >? halfOpenMaxAttempts config
      then (Throw (Err (Failure
              "Circuit breaker: too many half-open attempts, reopening")),
            mkBreaker OPEN (failureCount cb1) dateNow (halfOpenAttempts cb1))
      else (Ok tt, cb1)
  | _ => (Ok tt, cb)
  end.

(** Both checks: the breaker as it is when [fn] is about to be called, or
    the refusal. *)
Definition guard (config : CircuitBreakerConfig) (dateNow : Z)
  (cb : CircuitBreaker) : Outcome unit * CircuitBreaker :=
  match checkOpen config dateNow cb with
  | (Ok _, cb1) => checkHalfOpen config dateNow cb1
  | (Throw t, cb1) => (Throw t, cb1)
  end.

Definition execute {T : Type} (config : CircuitBreakerConfig) (fn : Async T)
  (cb : CircuitBreaker) (w : World) : Outcome T * CircuitBreaker * World :=
  match guard config (clock w) cb with
  | (Throw t, cb1) => (Throw t, cb1, w)
  | (Ok _, cb1) =>
      match fn w with
      | (Ok result, w1) => (Ok result, onSuccess cb1, w1)
      | (Throw error, w1) => (Throw error, onFailure config (clock w1) cb1, w1)
      end
  end.

Definition getState (cb : CircuitBreaker) : CircuitState := state cb.

Definition reset (cb : CircuitBreaker) : CircuitBreaker := mkBreaker CLOSED 0 0 0.

Record RetryConfig : Type := mkRetryConfig {
  maxRetries : Z;
  baseDelayMs : Z;
  maxDelayMs : Z;
  backoffMultiplier : Z
}.

Definition DEFAULT_RETRY_CONFIG : RetryConfig := mkRetryConfig 3 2000 30000 2.

Definition retryDelay (config : RetryConfig) (attempt : Z) : Z :=
  Z.min (baseDelayMs config * backoffMultiplier config ^ (attempt - 1))
        (maxDelayMs config).

(** What reading [.message] of [null] raises. *)
Definition nullMessageError : Thrown :=
  Err (TypeError "Cannot read properties of null (reading 'message')").

(** The [for] loop of [withRetry].  Before each wait the [catch] block
    prints [lastError.message], and so does the [onRetry] callback passed by
    [pushBatchRates]: when what was caught is [null] this read raises a
    TypeError out of the loop.  After the last attempt nothing is read. *)
Fixpoint retryLoop {T : Type} (fn : Async T) (config : RetryConfig)
  (turns : nat) (attempt : Z) (lastError : Thrown) : Async T :=
  match turns with
  | O => throw lastError
  | S turns' =>
      fun w =>
        match fn w with
        | (Ok v, w1) => (Ok v, w1)
        | (Throw error, w1) =>
            if attempt <? maxRetries config then
              match error with
              | ThrownNull => (Throw nullMessageError, w1)
              | Err _ =>
                  retryLoop fn config turns' (attempt + 1) error
                    (sleep (retryDelay config attempt) w1)
              end
            else retryLoop fn config turns' (attempt + 1) error w1
        end
  end.

Definition withRetry {T : Type} (fn : Async T) (config : RetryConfig)
  : Async T :=
  retryLoop fn config (Z.to_nat (maxRetries config)) 1 ThrownNull.

Record PushConfig : Type := mkPushConfig {
  rpcUrl : string;
  privateKey : string;
  oracleAddress : string;
  useSignature : option bool;
  gasLimitMultiplier : option Q;
  maxGasPrice : option Z
}.

Record PushResult : Type := mkPushResult {
  txHash : string;
  oldDOR : Z;
  newDOR : Z;
  localDOR : ieee Z;
  resultGasUsed : Z;
  resultBlockNumber : Z
}.

(** A [RatePusher]: its configuration and the breaker it owns. *)
Record RatePusher : Type := mkPusher {
  config : PushConfig;
  circuitBreaker : CircuitBreaker
}.

Definition breakerConfig : CircuitBreakerConfig :=
  mkBreakerConfig 3 (5 * 60 * 1000) 2.

(** The constructor.  [new Wallet(config.privateKey, ...)] throws when the
    wallet library refuses the key (the message goes on with the name of the
    argument and the version of the library); the provider, the contract
    object and the breaker are built without a call to the outside. *)
Definition newRatePusher (env : Env) (config : PushConfig) : Outcome RatePusher :=
  if walletAccepts env (privateKey config)
  then Ok (mkPusher config newCircuitBreaker)
  else Throw (Err (TypeError "invalid private key")).

Definition isAuthorized (env : Env) : Async bool :=
  try_catch (external env EvAuthorizedUpdaters (authorizedUpdaters env))
            (fun _ => ret false).

Definition getCurrentDOR (env : Env) : Async Z :=
  external env EvGetDOR (getDOR env).

Definition getAllSources (env : Env) : Async (list ChainSource) :=
  external env EvGetAllRateSources (getAllRateSources env).

Definition sourceIdsOf (rates : list RateData) : list Z :=
  map (fun r => sourceIndex (sourceId r)) rates.

Definition newRatesOf (rates : list RateData) : list Z := map rate rates.

(** [this.config.gasLimitMultiplier || 1.2]; the multiplier of the
    configuration is the double nearest to the rational given there. *)
Definition multiplierOf (cfg : PushConfig) : ieee Q :=
  match gasLimitMultiplier cfg with
  | Some m => if truthyNumber (round64 m) then round64 m else round64 (12 # 10)
  | None => round64 (12 # 10)
  end.

(** [BigInt(Math.ceil(x))], which throws a RangeError when [x] is not
    finite. *)
Definition bigIntCeil (x : ieee Q) : Async Z :=
  match x with
  | Finite q => ret (Qceiling q)
  | _ => throw (Err (RangeError "The number cannot be converted to a BigInt because it is not an integer"))
  end.

Definition estimateGas (env : Env) (cfg : PushConfig) (rates : list RateData)
  : Async Z :=
  try_catch
    (estimate <- external env
                   (EvEstimateGas (sourceIdsOf rates) (newRatesOf rates))
                   (estimateGasCall env (sourceIdsOf rates) (newRatesOf rates)) ;;
     bigIntCeil (d_mul (ofZ estimate) (multiplierOf cfg)))
    (fun _ => ret 500000).

(** [this.config.maxGasPrice && gasPrice > this.config.maxGasPrice] *)
Definition gasPriceTooHigh (cfg : PushConfig) (gasPrice : Z) : bool :=
  match maxGasPrice cfg with
  | Some cap => negb (cap =? 0) && (gasPrice >? cap)
  | None => false
  end.

(** The closure handed to [withRetry] by [pushBatchRates]. *)
Definition submitOnce (env : Env) (cfg : PushConfig) (rates : list RateData)
  : Async Receipt :=
  gasLimit <- estimateGas env cfg rates ;;
  feeData <- external env EvGetFeeData (getFeeData env) ;;
  let gasPrice := match feeData with Some p => p | None => 0 end in
  if gasPriceTooHigh cfg gasPrice
  then throw (Err (GasPriceTooHigh gasPrice
                     (match maxGasPrice cfg with Some cap => cap | None => 0 end)))
  else
    hash <- external env
              (EvBatchUpdateRates (sourceIdsOf rates) (newRatesOf rates) gasLimit)
              (batchUpdateRates env (sourceIdsOf rates) (newRatesOf rates) gasLimit) ;;
    receipt <- external env (EvWait hash) (wait env hash) ;;
    match receipt with
    | None => throw (Err (TransactionFailed hash))
    | Some r =>
        if negb (status r =? 1) then throw (Err (TransactionFailed hash))
        else ret r
    end.

Definition pushBatchRates (env : Env) (rates : list RateData)
  (pusher : RatePusher) (w : World) : Outcome Receipt * RatePusher * World :=
  match execute breakerConfig
          (withRetry (submitOnce env (config pusher) rates) DEFAULT_RETRY_CONFIG)
          (circuitBreaker pusher) w with
  | (result, cb, w1) => (result, mkPusher (config pusher) cb, w1)
  end.

Definition fullUpdate (env : Env) (rates : list RateData)
  (pusher : RatePusher) (w : World) : Outcome PushResult * RatePusher * World :=
  match getCurrentDOR env w with
  | (Throw t, w1) => (Throw t, pusher, w1)
  | (Ok oldDOR, w1) =>
      let localDOR := Collectors.calculateDOR rates in
      match pushBatchRates env rates pusher w1 with
      | (Throw t, pusher1, w2) => (Throw t, pusher1, w2)
      | (Ok receipt, pusher1, w2) =>
          match getCurrentDOR env w2 with
          | (Throw t, w3) => (Throw t, pusher1, w3)
          | (Ok newDOR, w3) =>
              (Ok (mkPushResult (receiptHash receipt) oldDOR newDOR localDOR
                     (gasUsed receipt) (blockNumber receipt)),
               pusher1, w3)
          end
      end
  end.

Definition dryRun (env : Env) (rates : list RateData) (pusher : RatePusher)
  : Async unit :=
  try_catch
    (isAuth <- isAuthorized env ;;
     currentDOR <- getCurrentDOR env ;;
     sources <- getAllSources env ;;
     gasEstimate <- estimateGas env (config pusher) rates ;;
     ret tt)
    (fun _ => ret tt).

End Pusher.

(** ** One update cycle (index.ts) *)

Module Oracle.

Record Config : Type := mkConfig {
  rpcUrl : string;
  privateKey : string;
  oracleAddress : string;
  cronSchedule : string;
  useSignature : bool;
  useDatabase : bool
}.

(** A string in a condition: the empty string is falsy. *)
Definition truthy (s : string) : bool := negb (String.eqb s "").

(** The fields of [config] a [PushConfig] has. *)
Definition pushConfigOf (cfg : Config) : Pusher.PushConfig :=
  Pusher.mkPushConfig (rpcUrl cfg) (privateKey cfg) (oracleAddress cfg)
    (Some (useSignature cfg)) None None.

(** [new RatePusher(config)] *)
Definition newPusher (env : Env) (cfg : Config) : Outcome Pusher.RatePusher :=
  Pusher.newRatePusher env (pushConfigOf cfg).

Definition isSome {A : Type} (o : option A) : bool :=
  match o with Some _ => true | None => false end.

Definition saveToDatabase (env : Env) (cfg : Config) (rates : list RateData)
  (dor : ieee Z) (result : option Pusher.PushResult) (error : option Thrown)
  : Async unit :=
  if negb (useDatabase cfg) then ret tt
  else
    try_catch
      (_ <- external env
              (EvDbSaveDORUpdate dor (negb (isSome error) && isSome result))
              (dbSaveDORUpdate env) ;;
       _ <- external env (EvDbLog (if isSome error then "ERROR" else "INFO"))
              (dbLog env) ;;
       ret tt)
      (fun _ => ret tt).

(** The [let] variables of [runUpdate] that its [catch] and [finally]
    blocks read. *)
Record Locals : Type := mkLocals {
  rates : list RateData;
  dor : ieee Z;
  pushResult : option Pusher.PushResult;
  updateError : option Thrown
}.

(** The [try] block, with the variables as it leaves them.  The rates come
    from [collect], which stands for [collectAllRates(provider)]. *)
Definition tryBlock (env : Env) (cfg : Config) (collect : Async (list RateData))
  (dryRun : bool) (w : World) : Outcome unit * Locals * World :=
  let l0 := mkLocals [] (Finite 0) None None in
  match collect w with
  | (Throw t, w1) => (Throw t, l0, w1)
  | (Ok rates, w1) =>
      let l1 := mkLocals rates (Finite 0) None None in
      if zlength rates =? 0
      then (Throw (Err (Failure "No rates collected")), l1, w1)
      else
        let validation := Collectors.validateRates (clock w1) rates in
        if negb (isValid validation)
        then (Throw (Err (ValidationFailed (errors validation))), l1, w1)
        else
          let dor := Collectors.calculateDOR rates in
          let l2 := mkLocals rates dor None None in
          if dryRun then
            if truthy (oracleAddress cfg) && truthy (privateKey cfg) then
              match newPusher env cfg with
              | Throw t => (Throw t, l2, w1)
              | Ok pusher =>
                  match Pusher.dryRun env rates pusher w1 with
                  | (Ok _, w2) => (Ok tt, l2, w2)
                  | (Throw t, w2) => (Throw t, l2, w2)
                  end
              end
            else (Ok tt, l2, w1)
          else
            if negb (truthy (oracleAddress cfg))
            then (Throw (Err (Failure "ORACLE_ADDRESS not set")), l2, w1)
            else if negb (truthy (privateKey cfg))
            then (Throw (Err (Failure "PRIVATE_KEY not set")), l2, w1)
            else
              match newPusher env cfg with
              | Throw t => (Throw t, l2, w1)
              | Ok pusher =>
                  match Pusher.isAuthorized env w1 with
                  | (Throw t, w2) => (Throw t, l2, w2)
                  | (Ok isAuth, w2) =>
                      if negb isAuth
                      then (Throw (Err (Failure
                              "Wallet is not authorized to update rates")), l2, w2)
                      else
                        match Pusher.fullUpdate env rates pusher w2 with
                        | (Throw t, _, w3) => (Throw t, l2, w3)
                        | (Ok result, _, w3) =>
                            (Ok tt, mkLocals rates dor (Some result) None, w3)
                        end
                  end
              end
  end.

(** The [catch] block up to its final [throw error]. *)
Definition catchBlock (env : Env) (cfg : Config) (l : Locals) : Async unit :=
  if useDatabase cfg && (zlength (rates l) >? 0)
  then (_ <- external env (EvDbLog "ERROR") (dbLog env) ;; ret tt)
  else ret tt.

Definition finallyBlock (env : Env) (cfg : Config) (dryRun : bool) (l : Locals)
  : Async unit :=
  if negb dryRun && (zlength (rates l) >? 0)
  then saveToDatabase env cfg (rates l) (dor l) (pushResult l) (updateError l)
  else ret tt.

(** [runUpdate], the rates coming from [collect].  The [catch] block
    starts by printing [updateError.message]: when what was caught is
    [null], this read raises a TypeError and the rest of the block is
    skipped; the [finally] block runs in every case. *)
Definition runUpdateWith (env : Env) (cfg : Config)
  (collect : Async (list RateData)) (dryRun : bool) : Async unit :=
  fun w =>
    match tryBlock env cfg collect dryRun w with
    | (Ok _, l, w1) => finallyBlock env cfg dryRun l w1
    | (Throw ThrownNull, l, w1) =>
        match finallyBlock env cfg dryRun l w1 with
        | (Ok _, w3) => (Throw Pusher.nullMessageError, w3)
        | (Throw t, w3) => (Throw t, w3)
        end
    | (Throw (Err e), l, w1) =>
        let error := Err e in
        let l1 := mkLocals (rates l) (dor l) (pushResult l) (Some error) in
        let (caught, w2) := catchBlock env cfg l1 w1 in
        let thrown := match caught with Ok _ => error | Throw t => t end in
        match finallyBlock env cfg dryRun l1 w2 with
        | (Ok _, w3) => (Throw thrown, w3)
        | (Throw t, w3) => (Throw t, w3)
        end
    end.

Definition runUpdate (env : Env) (cfg : Config) (dryRun : bool) : Async unit :=
  runUpdateWith env cfg
    (Collectors.collectAllRates env Collectors.DEFAULT_CONFIG) dryRun.

End Oracle.

(** Calls to the chain: every step of [fullUpdate], [pushBatchRates] and
    [dryRun] is one of them. *)
Definition isChainEvent (ev : Event) : bool :=
  match ev with
  | EvAuthorizedUpdaters | EvGetDOR | EvGetAllRateSources | EvEstimateGas _ _
  | EvGetFeeData | EvBatchUpdateRates _ _ _ | EvWait _ => true
  | _ => false
  end.

Definition chainCalls (w : World) : list Event := filter isChainEvent (trace w).

(** ** Test operations and concrete environments *)

Definition isInvoke (ev : Event) : bool :=
  match ev with EvInvoke => true | _ => false end.

(** How many times a test operation has been invoked so far. *)
Definition invocations (w : World) : nat :=
  List.length (filter isInvoke (trace w)).

(** A test operation: its k-th invocation returns or raises [script k]. *)
Definition scripted {T : Type} (script : nat -> Outcome T) : Async T :=
  fun w => (script (invocations w), mkWorld (clock w) (EvInvoke :: trace w)).

Definition isFeeData (ev : Event) : bool :=
  match ev with EvGetFeeData => true | _ => false end.

(** How many times the gas price has been read so far. *)
Definition feeChecks (w : World) : nat :=
  List.length (filter isFeeData (trace w)).

Definition isSubmission (ev : Event) : bool :=
  match ev with EvBatchUpdateRates _ _ _ => true | _ => false end.

Definition submissions (w : World) : nat :=
  List.length (filter isSubmission (trace w)).

Definition startWorld : World := mkWorld 1700000000000 [].

(** A private key the wallet library accepts: 32 bytes in hexadecimal (the
    key of the first development account of Anvil).  The concrete
    environments below accept this key; they are asked about no other. *)
Definition demoKey : string :=
  "0xac0974bec39a17e36ba4a6b4d238ff944bacb478cbed5efcae784d7bf4f2ff80".

(** An outside where nothing answers. *)
Definition deadEnv : Env :=
  mkEnv (fun _ => 5)
        (fun _ _ => Failed "ECONNREFUSED")
        (fun _ => Failed "network error")
        (fun _ => Failed "network error")
        (fun _ => Failed "network error")
        (fun _ _ _ => Failed "network error")
        (fun _ => Failed "network error")
        (fun _ _ _ _ => Failed "network error")
        (fun _ _ => Failed "network error")
        (fun _ => Answered tt)
        (fun _ => Answered tt)
        (String.eqb demoKey).

(** Every endpoint answers the percentage [p] after 120 ms; no chain. *)
Definition quotingEnv (p : Q) : Env :=
  mkEnv (fun _ => 120)
        (fun _ _ => Answered (Some p))
        (fun _ => Failed "network error")
        (fun _ => Failed "network error")
        (fun _ => Failed "network error")
        (fun _ _ _ => Failed "network error")
        (fun _ => Failed "network error")
        (fun _ _ _ _ => Failed "network error")
        (fun _ _ => Failed "network error")
        (fun _ => Answered tt)
        (fun _ => Answered tt)
        (String.eqb demoKey).

(** A chain that works, with a gas price of [gasPrice w]. *)
Definition chainEnv (gasPrice : World -> Z) : Env :=
  mkEnv (fun _ => 5)
        (fun _ _ => Failed "ECONNREFUSED")
        (fun _ => Answered true)
        (fun _ => Answered 453)
        (fun _ => Answered [])
        (fun _ _ _ => Answered 100000)
        (fun w => Answered (Some (gasPrice w)))
        (fun _ _ _ _ => Answered "0xabc"%string)
        (fun hash _ => Answered (Some (mkReceipt hash 1 77 90000)))
        (fun _ => Answered tt)
        (fun _ => Answered tt)
        (String.eqb demoKey).

(** The oracle contract of the examples. *)
Definition demoOracle : string := "0x5FbDB2315678afecb367f032d93F642f64180aa3".

(** A pusher as its constructor leaves it, with a gas price cap of 50. *)
Definition cappedPusher : Pusher.RatePusher :=
  Pusher.mkPusher
    (Pusher.mkPushConfig "http://localhost:8545" demoKey demoOracle None None (Some 50))
    Pusher.newCircuitBreaker.

(** Five fallback observations, as the collectors return them when every
    endpoint is down. *)
Definition allFallback : list RateData :=
  [ mkRate TESR "TESR" 350 0 "Fallback" false;
    mkRate METH "mETH" 450 0 "Fallback" false;
    mkRate SOFR "SOFR" 460 0 "Fallback" false;
    mkRate AAVE_USDT "Aave_USDT" 550 0 "Fallback" false;
    mkRate ONDO_USDY "Ondo_USDY" 500 0 "Fallback" false ].

(** The collector of a source, its label and its hardcoded fallback rate. *)
Definition collectorOf (s : RateSourceId)
  : Env -> Collectors.CollectorConfig -> Async RateData :=
  match s with
  | TESR => Collectors.collectTESR
  | METH => Collectors.collectMETH
  | SOFR => Collectors.collectSOFR
  | AAVE_USDT => Collectors.collectAaveUSDT
  | ONDO_USDY => Collectors.collectOndoUSDY
  end.

Definition labelOf (s : RateSourceId) : string :=
  match s with
  | TESR => "TESR" | METH => "mETH" | SOFR => "SOFR"
  | AAVE_USDT => "Aave_USDT" | ONDO_USDY => "Ondo_USDY"
  end.

Definition fallbackRate (s : RateSourceId) : Z :=
  match s with
  | TESR => 350 | METH => 450 | SOFR => 460 | AAVE_USDT => 550 | ONDO_USDY => 500
  end.

(** ** Vocabulary of the statements *)

(** The count of the fallback warning as the specification words it: how
    many observations are not live. *)
Definition nonLiveCount (rates : list RateData) : Z :=
  Z.of_nat (count_occ bool_dec (map isLive rates) false).

(** Five observations of which the last two, and the last three, are
    fallback values. *)
Definition twoFallbacks : list RateData :=
  [ mkRate TESR "TESR" 350 0 "api.treehouse.finance" true;
    mkRate METH "mETH" 450 0 "Mantle API" true;
    mkRate SOFR "SOFR" 460 0 "markets.newyorkfed.org" true;
    mkRate AAVE_USDT "Aave_USDT" 550 0 "Fallback" false;
    mkRate ONDO_USDY "Ondo_USDY" 500 0 "Fallback" false ].

Definition threeFallbacks : list RateData :=
  [ mkRate TESR "TESR" 350 0 "api.treehouse.finance" true;
    mkRate METH "mETH" 450 0 "Mantle API" true;
    mkRate SOFR "SOFR" 460 0 "Fallback" false;
    mkRate AAVE_USDT "Aave_USDT" 550 0 "Fallback" false;
    mkRate ONDO_USDY "Ondo_USDY" 500 0 "Fallback" false ].

(** One rate near 2^51 followed by three small ones. *)
Definition lopsidedRates : list RateData :=
  [ mkRate SOFR "SOFR" 2251799813685250 0 "markets.newyorkfed.org" true;
    mkRate METH "mETH" 4 0 "Mantle API" true;
    mkRate AAVE_USDT "Aave_USDT" 4 0 "Aave API" true;
    mkRate ONDO_USDY "Ondo_USDY" 4 0 "Ondo API" true ].

(** One observation per source, each with the rate 2^53 - 1, the largest
    odd integer a double holds. *)
Definition hugeRates : list RateData :=
  [ mkRate TESR "TESR" 9007199254740991 0 "api.treehouse.finance" true;
    mkRate METH "mETH" 9007199254740991 0 "Mantle API" true;
    mkRate SOFR "SOFR" 9007199254740991 0 "markets.newyorkfed.org" true;
    mkRate AAVE_USDT "Aave_USDT" 9007199254740991 0 "Aave API" true;
    mkRate ONDO_USDY "Ondo_USDY" 9007199254740991 0 "Ondo API" true ].

(** The numerator as the specification words it: the sum, over the
    observations present, of rate times weight. *)
Definition presentWeightedSum (rates : list RateData) : Z :=
  fold_right Z.add 0 (map (fun r => rate r * weights (sourceId r)) rates).

Definition staleWarning (now : Z) (r : RateData) : list ValidationWarning :=
  if now - timestamp r >? maxAge then [WStale (name r)] else [].

Definition negativeError (r : RateData) : list ValidationError :=
  if rate r <? 0 then [ENegativeRate (name r) (rate r)] else [].

Definition highWarning (r : RateData) : list ValidationWarning :=
  if rate r >? 5000 then [WHighRate (name r) (rate r)] else [].

(** The computation raises error objects only, never [null]. *)
Definition raisesOnlyErrors {A : Type} (c : Async A) : Prop :=
  forall w t w', c w = (Throw t, w') -> t <> ThrownNull.

(** The computation always raises an error object. *)
Definition alwaysFails {A : Type} (c : Async A) : Prop :=
  forall w, exists e w', c w = (Throw (Err e), w').

(** The computation always returns. *)
Definition alwaysReturns {A : Type} (c : Async A) : Prop :=
  forall w, exists a w', c w = (Ok a, w').

(** Every value the computation returns satisfies [P]. *)
Definition returnsOnly {A : Type} (P : A -> Prop) (c : Async A) : Prop :=
  forall w a w', c w = (Ok a, w') -> P a.

(** No endpoint yields a number: each request fails, or its body has none. *)
Definition allEndpointsFail (env : Env) : Prop :=
  forall url w,
    match http env url w with
    | Answered (Some _) => False
    | _ => True
    end.

(** The trace of [w'] is the trace of [w] with more events in front: a
    computation only adds to the trace. *)
Definition grows (w w' : World) : Prop :=
  exists added, trace w' = added ++ trace w.

Definition growing {A : Type} (c : Async A) : Prop :=
  forall w, grows w (snd (c w)).

(** The world once the attempt of [pushBatchRates] made at [w] has
    estimated the gas limit: the gas price is read there. *)
Definition afterEstimate (env : Env) (rates : list RateData) (w : World) : World :=
  mkWorld (clock w + latency env w)
    (EvEstimateGas (Pusher.sourceIdsOf rates) (Pusher.newRatesOf rates) :: trace w).

(** The world once that attempt has read the gas price. *)
Definition afterFeeCheck (env : Env) (rates : list RateData) (w : World) : World :=
  let w1 := afterEstimate env rates w in
  mkWorld (clock w1 + latency env w1) (EvGetFeeData :: trace w1).

(** The sum of the magnitudes of the products [rate * weight]: every
    partial sum of the loop of [calculateDOR] is below it. *)
Definition absWeightedSum (rates : list RateData) : Z :=
  fold_right Z.add 0 (map (fun r => Z.abs (rate r) * weights (sourceId r)) rates).

(** The range in which the doubles of [calculateDOR] are exact: the sums
    stay below 2^51. *)
Definition inDoubleRange (rates : list RateData) : Prop :=
  absWeightedSum rates <= 2 ^ 51 /\ totalWeight rates <= 2 ^ 51.

(** What C5 states of one call of [pushBatchRates]: it ends with an error
    after reading the gas price once. *)
Definition rejectedWithoutRetry (env : Env) (rates : list RateData)
  (pusher : Pusher.RatePusher) (w : World) : Prop :=
  exists t pusher' w',
    Pusher.pushBatchRates env rates pusher w = (Throw t, pusher', w')
    /\ feeChecks w' = S (feeChecks w).

(** Three of the five sources. *)
Definition threeSources : list RateData :=
  [ mkRate TESR "TESR" 350 0 "api.treehouse.finance" true;
    mkRate METH "mETH" 450 0 "Mantle API" true;
    mkRate SOFR "SOFR" 460 0 "markets.newyorkfed.org" true ].

Definition twoSources : list RateData :=
  [ mkRate TESR "TESR" 350 0 "api.treehouse.finance" true;
    mkRate METH "mETH" 450 0 "Mantle API" true ].

Definition demoConfig : Oracle.Config :=
  Oracle.mkConfig "http://localhost:8545" demoKey demoOracle "0 */6 * * *" false true.

(** Fails twice, then returns 42. *)
Definition flaky (k : nat) : Outcome Z :=
  match k with
  | O | S O => Throw (Err (Failure "ETIMEDOUT"))
  | _ => Ok 42
  end.

(** Fails twice by throwing [null], then returns 42. *)
Definition flakyNull (k : nat) : Outcome Z :=
  match k with
  | O | S O => Throw ThrownNull
  | _ => Ok 42
  end.

(** What the k-th invocation of an operation throws that fails with error
    objects on its first two invocations and with [null] from then on. *)
Definition thrownAt (k : nat) : Thrown :=
  match k with
  | O => Err (Failure "ETIMEDOUT")
  | S O => Err (TransactionFailed "0xabc")
  | _ => ThrownNull
  end.

Definition failsThenNull (k : nat) : Outcome Z := Throw (thrownAt k).

(** An operation that always fails, and the breaker after three failures at
    [startWorld]. *)
Definition failing : Async Z := throw (Err (Failure "RPC down")).

Definition openedBreaker : Pusher.CircuitBreaker :=
  Pusher.mkBreaker Pusher.OPEN 3 (clock startWorld) 0.

(** A chain that works, with a gas price of 10. *)
Definition calmEnv : Env := chainEnv (fun _ => 10).

(** The gas price is 100 the first time it is read and 10 afterwards. *)
Definition spikeEnv : Env :=
  chainEnv (fun w => if (feeChecks w =? 0)%nat then 100 else 10).

(** ** Vocabulary of the further properties *)

(** The same observations with every rate moved by [c] basis points. *)
Definition shiftRates (c : Z) (rates : list RateData) : list RateData :=
  map (fun r => mkRate (sourceId r) (name r) (rate r + c) (timestamp r)
                  (source r) (isLive r)) rates.

(** The same source, and a rate that is not smaller. *)
Definition notLower (a b : RateData) : Prop :=
  sourceId a = sourceId b /\ rate a <= rate b.

Definition isSleep (ev : Event) : bool :=
  match ev with EvSleep _ => true | _ => false end.

(** How many timer waits there have been so far. *)
Definition sleeps (w : World) : nat :=
  List.length (filter isSleep (trace w)).

(** What holds of a breaker between two calls of [execute] that do not
    overlap: it is CLOSED with fewer failures counted than the threshold, or
    OPEN with at least as many. *)
Definition breakerInv (cfg : Pusher.CircuitBreakerConfig)
  (cb : Pusher.CircuitBreaker) : Prop :=
  match Pusher.state cb with
  | Pusher.CLOSED =>
      0 <= Pusher.failureCount cb < Pusher.failureThreshold cfg
  | Pusher.OPEN => Pusher.failureThreshold cfg <= Pusher.failureCount cb
  | Pusher.HALF_OPEN => False
  end.

(** The breaker after one call of [execute] for each world of [ws], one
    after the other. *)
Fixpoint executeAll {T : Type} (cfg : Pusher.CircuitBreakerConfig)
  (fn : Async T) (ws : list World) (cb : Pusher.CircuitBreaker)
  : Pusher.CircuitBreaker :=
  match ws with
  | [] => cb
  | w :: rest => executeAll cfg fn rest (snd (fst (Pusher.execute cfg fn cb w)))
  end.

Definition breakerOpenError : Thrown :=
  Err (Failure "Circuit breaker is OPEN - refusing request").

(** A chain on which every transaction is mined and reverts (status 0). *)
Definition revertEnv : Env :=
  mkEnv (fun _ => 5)
        (fun _ _ => Failed "ECONNREFUSED")
        (fun _ => Answered true)
        (fun _ => Answered 453)
        (fun _ => Answered [])
        (fun _ _ _ => Answered 100000)
        (fun _ => Answered (Some 10))
        (fun _ _ _ _ => Answered "0xdef"%string)
        (fun hash _ => Answered (Some (mkReceipt hash 0 78 21000)))
        (fun _ => Answered tt)
        (fun _ => Answered tt)
        (String.eqb demoKey).

(** The trace of [w'] is the trace of [w] with, in front, events that all
    satisfy [P]. *)
Definition addsOnly (P : Event -> bool) (w w' : World) : Prop :=
  exists added, trace w' = added ++ trace w /\ forallb P added = true.

(** The computation only adds events that satisfy [P]. *)
Definition confined {A : Type} (P : Event -> bool) (c : Async A) : Prop :=
  forall w, addsOnly P w (snd (c w)).

Definition isChainOrSleep (ev : Event) : bool := isChainEvent ev || isSleep ev.

Definition isDbSave (ev : Event) : bool :=
  match ev with EvDbSaveDORUpdate _ _ => true | _ => false end.

(** How many times the cycle record has been handed to the database. *)
Definition dbSaves (w : World) : nat :=
  List.length (filter isDbSave (trace w)).

(** The rate and the success flag most recently handed to the database. *)
Fixpoint lastSavedIn (tr : list Event) : option (ieee Z * bool) :=
  match tr with
  | [] => None
  | EvDbSaveDORUpdate d ok :: _ => Some (d, ok)
  | _ :: rest => lastSavedIn rest
  end.

Definition lastSaved (w : World) : option (ieee Z * bool) := lastSavedIn (trace w).


Definition isHttp (ev : Event) : bool :=
  match ev with EvHttpGet _ => true | _ => false end.

(** How many HTTP requests have been made so far. *)
Definition httpRequests (w : World) : nat :=
  List.length (filter isHttp (trace w)).

(** An observation without the time it was taken at. *)
Definition forgetTimestamp (r : RateData) : RateData :=
  mkRate (sourceId r) (name r) (rate r) 0 (source r) (isLive r).

(** The first endpoint a collector tries, and the [source] it writes in an
    observation taken from it. *)
Definition primaryUrl (s : RateSourceId) : string :=
  match s with
  | TESR => "https://api.treehouse.finance/v1/rates/tesr"
  | METH => "https://staking-api.mantle.xyz/api/v1/stats"
  | SOFR => "https://markets.newyorkfed.org/api/rates/secured/sofr/last/1.json"
  | AAVE_USDT => "https://aave-api-v2.aave.com/data/markets-data"
  | ONDO_USDY => "https://api.ondo.finance/v1/tokens/usdy"
  end.

Definition primaryOrigin (s : RateSourceId) : string :=
  match s with
  | TESR => "api.treehouse.finance"
  | METH => "Mantle API"
  | SOFR => "markets.newyorkfed.org"
  | AAVE_USDT => "Aave API"
  | ONDO_USDY => "Ondo API"
  end.

(** How many endpoints the collector of a source knows. *)
Definition endpointCount (s : RateSourceId) : nat :=
  match s with
  | ONDO_USDY => 3
  | _ => 2
  end.

(** The computation makes at most [n] HTTP requests. *)
Definition requestsAtMost {A : Type} (n : nat) (c : Async A) : Prop :=
  forall w, (httpRequests (snd (c w)) <= httpRequests w + n)%nat.

(** * Properties *)

(** ** Aggregation *)

Section Aggregation.

Lemma fold_accumulate_snd (rates : list RateData) (acc : Z * Z) :
  snd (fold_left accumulate rates acc)
  = snd acc + fold_right Z.add 0 (map weights (map sourceId rates)).
Proof.
  revert acc; induction rates as [|r rest IH]; intros acc; simpl.
  - lia.
  - rewrite IH; simpl; lia.
Qed.

Lemma weights_pos (s : RateSourceId) : 0 < weights s.
Proof. destruct s; simpl; lia. Qed.

(** Between the bounds of the rates, the weighted sum stays between the
    bounds times the weight. *)
Lemma fold_accumulate_bounds (lo hi : Z) (rates : list RateData) (acc : Z * Z) :
  Forall (fun r => lo <= rate r <= hi) rates ->
  let out := fold_left accumulate rates acc in
  snd acc <= snd out
  /\ lo * (snd out - snd acc) <= fst out - fst acc
  /\ fst out - fst acc <= hi * (snd out - snd acc).
Proof.
  intros H; revert acc; induction H as [|r rest Hr _ IH]; intros acc; simpl.
  - lia.
  - specialize (IH (accumulate acc r)).
    pose proof (weights_pos (sourceId r)) as Hw.
    simpl in IH. destruct IH as (A & B & C).
    repeat split; nia.
Qed.

Lemma totalWeight_pos (rates : list RateData) :
  rates <> [] -> 0 < totalWeight rates.
Proof.
  destruct rates as [|r rest]; [congruence|intros _].
  unfold totalWeight; simpl. rewrite fold_accumulate_snd; simpl.
  pose proof (weights_pos (sourceId r)).
  assert (0 <= fold_right Z.add 0 (map weights (map sourceId rest))).
  { induction rest as [|x xs IH]; simpl; [lia|].
    pose proof (weights_pos (sourceId x)); lia. }
  lia.
Qed.

(** [Math.round(a / b)] for a positive divisor, in integer arithmetic. *)
Lemma round_div_pos (a b : Z) :
  0 < b ->
  Math_round (js_div a b) = Finite ((2 * a + b) / (2 * b)).
Proof.
  intros Hb. unfold js_div.
  destruct (Z.eqb_spec b 0) as [->|_]; [lia|].
  destruct b as [|p|p]; try lia.
  remember (2 * a + Z.pos p) as n eqn:En.
  remember (2 * Z.pos p) as d eqn:Ed.
  unfold Math_round, round_half_up, Qfloor, Qdiv, Qinv, Qmult, Qplus, inject_Z.
  cbn [Qnum Qden]. subst n d.
  f_equal. f_equal; lia.
Qed.

Lemma calculateDOR_unfold (rates : list RateData) :
  Collectors.calculateDOR rates
  = if totalWeight rates =? 0 then Finite 460
    else Math_round (js_div (weightedSum rates) (totalWeight rates)).
Proof.
  unfold Collectors.calculateDOR, totalWeight, weightedSum.
  destruct (fold_left accumulate rates (0, 0)); reflexivity.
Qed.

Lemma calculateDOR_nonempty (rates : list RateData) :
  rates <> [] ->
  Collectors.calculateDOR rates
  = Finite ((2 * weightedSum rates + totalWeight rates) / (2 * totalWeight rates)).
Proof.
  intros H. pose proof (totalWeight_pos rates H) as Hp.
  rewrite calculateDOR_unfold.
  destruct (Z.eqb_spec (totalWeight rates) 0); [lia|].
  now apply round_div_pos.
Qed.

Lemma fold_min_le (rest : list RateData) (m : Z) :
  fold_left (fun m x => Z.min m (rate x)) rest m <= m
  /\ Forall (fun r => fold_left (fun m x => Z.min m (rate x)) rest m <= rate r) rest.
Proof.
  revert m; induction rest as [|x xs IH]; intros m; simpl.
  - split; [lia|constructor].
  - destruct (IH (Z.min m (rate x))) as [A B]. split; [lia|].
    constructor; [lia|exact B].
Qed.

Lemma fold_max_ge (rest : list RateData) (m : Z) :
  m <= fold_left (fun m x => Z.max m (rate x)) rest m
  /\ Forall (fun r => rate r <= fold_left (fun m x => Z.max m (rate x)) rest m) rest.
Proof.
  revert m; induction rest as [|x xs IH]; intros m; simpl.
  - split; [lia|constructor].
  - destruct (IH (Z.max m (rate x))) as [A B]. split; [lia|].
    constructor; [lia|exact B].
Qed.

Lemma rates_between_min_max (rates : list RateData) :
  Forall (fun r => minRate rates <= rate r <= maxRate rates) rates.
Proof.
  destruct rates as [|r rest]; [constructor|].
  unfold minRate, maxRate.
  destruct (fold_min_le rest (rate r)) as [A B].
  destruct (fold_max_ge rest (rate r)) as [C D].
  constructor; [lia|].
  rewrite Forall_forall in *. intros x Hx.
  specialize (B x Hx); specialize (D x Hx); simpl in *; lia.
Qed.

(** The aggregate of a non-empty list lies between any two bounds of its
    rates. *)
Lemma calculateDOR_between (lo hi : Z) (rates : list RateData) :
  rates <> [] ->
  Forall (fun r => lo <= rate r <= hi) rates ->
  exists d, Collectors.calculateDOR rates = Finite d /\ lo <= d <= hi.
Proof.
  intros Hne Hb.
  rewrite (calculateDOR_nonempty rates Hne).
  eexists; split; [reflexivity|].
  pose proof (totalWeight_pos rates Hne) as Hp.
  pose proof (fold_accumulate_bounds lo hi rates (0, 0) Hb) as H.
  simpl in H. fold (totalWeight rates) (weightedSum rates) in H.
  destruct H as (_ & Hlo & Hhi).
  split.
  - apply Z.div_le_lower_bound; nia.
  - apply Z.lt_succ_r, Z.div_lt_upper_bound; nia.
Qed.

Lemma sum_weights_perm (l l' : list RateSourceId) :
  Permutation l l' ->
  fold_right Z.add 0 (map weights l) = fold_right Z.add 0 (map weights l').
Proof. induction 1; simpl; lia. Qed.

Lemma in_allSources (s : RateSourceId) : In s allSources.
Proof. destruct s; simpl; tauto. Qed.

Lemma NoDup_allSources : NoDup allSources.
Proof.
  unfold allSources.
  repeat (constructor; [simpl; intuition discriminate|]). constructor.
Qed.

Lemma totalWeight_sum (rates : list RateData) :
  totalWeight rates = fold_right Z.add 0 (map weights (map sourceId rates)).
Proof. unfold totalWeight. rewrite fold_accumulate_snd. reflexivity. Qed.

Lemma totalWeight_full (rates : list RateData) :
  List.length rates = 5%nat ->
  NoDup (map sourceId rates) ->
  totalWeight rates = 10000.
Proof.
  intros Hlen Hnd. rewrite totalWeight_sum.
  rewrite (sum_weights_perm (map sourceId rates) allSources); [reflexivity|].
  apply NoDup_Permutation_bis; trivial.
  - rewrite length_map, Hlen. simpl. lia.
  - intros s _. apply in_allSources.
Qed.

Lemma present_In (rates : list RateData) (s : RateSourceId) :
  present rates s = true <-> In s (map sourceId rates).
Proof.
  unfold present. rewrite existsb_exists, in_map_iff. split.
  - intros (r & Hr & He). exists r. split; trivial.
    unfold sourceId_eqb in He. apply Z.eqb_eq in He.
    destruct (sourceId r), s; simpl in He; congruence.
  - intros (r & He & Hr). exists r. split; trivial.
    subst s. unfold sourceId_eqb. apply Z.eqb_refl.
Qed.

(** The weight the loop adds up is what the specification calls the
    renormalized denominator. *)
Lemma totalWeight_renormalized (rates : list RateData) :
  NoDup (map sourceId rates) ->
  totalWeight rates = renormalizedDenominator rates.
Proof.
  intros Hnd. unfold renormalizedDenominator, absentWeight.
  set (absent := filter (fun s => negb (present rates s)) allSources).
  assert (Hperm : Permutation (map sourceId rates ++ absent) allSources).
  { apply NoDup_Permutation.
    - apply NoDup_app; trivial.
      + apply NoDup_filter, NoDup_allSources.
      + intros s Hin Hab. unfold absent in Hab.
        apply filter_In in Hab. destruct Hab as [_ Hn].
        apply present_In in Hin. rewrite Hin in Hn. discriminate.
    - apply NoDup_allSources.
    - intros s. split; [intros _; apply in_allSources|intros _].
      apply in_or_app. destruct (present rates s) eqn:Hp.
      + left. now apply present_In.
      + right. unfold absent. apply filter_In. split; [apply in_allSources|].
        now rewrite Hp. }
  apply sum_weights_perm in Hperm.
  rewrite map_app, fold_right_app in Hperm.
  rewrite totalWeight_sum.
  assert (Hadd : forall l k, fold_right Z.add k l = fold_right Z.add 0 l + k).
  { induction l as [|x xs IH]; intros k; simpl; [lia|rewrite IH; lia]. }
  rewrite Hadd in Hperm. simpl in Hperm. lia.
Qed.

Lemma weightedSum_present (rates : list RateData) :
  weightedSum rates = presentWeightedSum rates.
Proof.
  unfold weightedSum, presentWeightedSum.
  assert (H : forall acc, fst (fold_left accumulate rates acc)
    = fst acc + fold_right Z.add 0 (map (fun r => rate r * weights (sourceId r)) rates)).
  { induction rates as [|r rest IH]; intros acc; simpl; [lia|].
    rewrite IH. simpl. lia. }
  rewrite H. reflexivity.
Qed.

End Aggregation.

(** ** Doubles *)

Lemma doubles_agree_with_SpecFloat :
  forallb (fun p => agreeOn (fst p) (snd p)) sampleOperands = true.
Proof. vm_compute. reflexivity. Qed.

Section Binary64.


Lemma rne_ge (num den a : Z) : 0 < den -> a * den <= num -> a <= rne num den.
Proof.
  intros Hd Ha. unfold rne.
  assert (Hq : a <= num / den) by (apply Z.div_le_lower_bound; lia).
  destruct (2 * (num mod den) ?= den); [destruct (Z.even (num / den))| |]; lia.
Qed.

Lemma rne_le (num den b : Z) : 0 < den -> num <= b * den -> rne num den <= b.
Proof.
  intros Hd Hb. unfold rne.
  pose proof (Z.div_mod num den ltac:(lia)) as Hdm.
  pose proof (Z.mod_pos_bound num den Hd) as Hr.
  assert (Hq : num / den <= b).
  { apply Z.div_le_upper_bound; lia. }
  destruct (Z.eq_dec (num / den) b) as [Heq|Hne].
  - assert (Hr0 : num mod den = 0) by nia.
    rewrite Hr0.
    assert (Hc : (2 * 0 ?= den) = Lt) by (apply Z.compare_lt_iff; lia).
    rewrite Hc. lia.
  - destruct (2 * (num mod den) ?= den); [destruct (Z.even (num / den))| |]; lia.
Qed.

Lemma ilog2_upper (n d p : Z) :
  n <> 0 -> 0 < d -> 0 <= p -> Z.abs n < d * 2 ^ p -> ilog2 n d <= p - 1.
Proof.
  intros Hn Hd Hp Hlt. unfold ilog2.
  set (a := Z.log2 (Z.abs n)). set (b := Z.log2 d).
  assert (Ha : 2 ^ a <= Z.abs n < 2 ^ (a + 1)).
  { pose proof (Z.log2_spec (Z.abs n) ltac:(lia)) as H.
    unfold a. replace (Z.log2 (Z.abs n) + 1) with (Z.succ (Z.log2 (Z.abs n))) by lia.
    exact H. }
  assert (Hb : 2 ^ b <= d < 2 ^ (b + 1)).
  { pose proof (Z.log2_spec d Hd) as H.
    unfold b. replace (Z.log2 d + 1) with (Z.succ (Z.log2 d)) by lia. exact H. }
  assert (Ha0 : 0 <= a) by apply Z.log2_nonneg.
  assert (Hb0 : 0 <= b) by apply Z.log2_nonneg.
  assert (Hk : a - b <= p).
  { destruct (Z.le_gt_cases (a - b) p) as [H|H]; trivial. exfalso.
    assert (H1 : 2 ^ (b + 1 + p) <= 2 ^ a) by (apply Z.pow_le_mono_r; lia).
    rewrite Z.pow_add_r in H1 by lia.
    assert (0 < 2 ^ p) by (apply Z.pow_pos_nonneg; lia).
    nia. }
  match goal with |- (if ?c then _ else _) <= _ => destruct c eqn:Hc end; [|lia].
  destruct (Z.leb_spec 0 (a - b)) as [Hk0|Hk0]; [|lia].
  apply Z.leb_le in Hc.
  destruct (Z.le_gt_cases p (a - b)) as [H|H]; [|lia]. exfalso.
  assert (H1 : 2 ^ p <= 2 ^ (a - b)) by (apply Z.pow_le_mono_r; lia).
  nia.
Qed.

Lemma Qred_inject_Z (z : Z) : Qred (inject_Z z) = inject_Z z.
Proof.
  unfold Qred, inject_Z.
  pose proof (Z.ggcd_gcd z 1) as Hg.
  pose proof (Z.ggcd_correct_divisors z 1) as Hd.
  destruct (Z.ggcd z 1) as (g, (aa, bb)). cbn [fst] in Hg.
  rewrite Z.gcd_1_r in Hg. subst g. destruct Hd as [H1 H2].
  assert (E1 : aa = z) by lia. assert (E2 : bb = 1) by lia.
  cbn [snd]. rewrite E1, E2. reflexivity.
Qed.

Lemma Qred_Qred (q : Q) : Qred (Qred q) = Qred q.
Proof. apply Qred_complete, Qred_correct. Qed.

(** A number that lies between two multiples of [2^-j] and is small enough
    for these multiples to be doubles is rounded to a double between
    them. *)
Lemma round64_between (x : Q) (j a b : Z) :
  0 <= j <= 53 ->
  a * Zpos (Qden x) <= Qnum x * 2 ^ j <= b * Zpos (Qden x) ->
  Z.abs (Qnum x) < Zpos (Qden x) * 2 ^ (53 - j) ->
  exists v, round64 x = Finite v
            /\ Qred v = v
            /\ a * Zpos (Qden v) <= Qnum v * 2 ^ j <= b * Zpos (Qden v).
Proof.
  intros Hj Hab Hsmall. unfold round64.
  set (n := Qnum x) in *. set (d := Zpos (Qden x)) in *.
  assert (Hd : 0 < d) by (unfold d; lia).
  assert (Hpj : 0 < 2 ^ j) by (apply Z.pow_pos_nonneg; lia).
  destruct (Z.eqb_spec n 0) as [Hn0|Hn0].
  - exists 0%Q. split; [reflexivity|]. split; [reflexivity|].
    cbn [Qnum Qden]. rewrite Hn0 in Hab. nia.
  - pose proof (ilog2_upper n d (53 - j) Hn0 Hd ltac:(lia) Hsmall) as Hlog.
    set (e := Z.max (ilog2 n d - 52) (-1074)).
    assert (He : e <= - j) by (unfold e; lia).
    destruct (Z.leb_spec 0 e) as [He0|He0].
    + assert (e = 0) by lia. assert (j = 0) by lia. subst j.
      replace e with 0 by lia. rewrite Z.pow_0_r, Z.mul_1_r in *.
      rewrite Z.mul_1_r.
      pose proof (rne_ge n d a Hd ltac:(lia)) as Hlo.
      pose proof (rne_le n d b Hd ltac:(lia)) as Hhi.
      pose proof (rne_ge n d (- 2 ^ 53) Hd ltac:(change (53 - 0) with 53 in Hsmall; lia)) as Hlo'.
      pose proof (rne_le n d (2 ^ 53) Hd ltac:(change (53 - 0) with 53 in Hsmall; lia)) as Hhi'.
      destruct (Z.leb_spec (2 ^ 1024) (Z.abs (rne n d))) as [Hov|Hov].
      * exfalso. assert (2 ^ 53 < 2 ^ 1024) by (apply Z.pow_lt_mono_r; lia). lia.
      * eexists. split; [reflexivity|]. split; [apply Qred_inject_Z|].
        cbn [inject_Z Qnum Qden]. lia.
    + set (s := - e). assert (Hs : j <= s) by (unfold s; lia).
      assert (Hs0 : 0 < s) by (unfold s; lia).
      set (t := 2 ^ (s - j)).
      assert (Ht : 0 < t) by (apply Z.pow_pos_nonneg; lia).
      assert (Hst : 2 ^ s = 2 ^ j * t).
      { unfold t. rewrite <- Z.pow_add_r by lia. f_equal. lia. }
      set (m := rne (n * 2 ^ s) d).
      assert (Hlo : a * t <= m) by (apply rne_ge; [exact Hd|rewrite Hst; nia]).
      assert (Hhi : m <= b * t) by (apply rne_le; [exact Hd|rewrite Hst; nia]).
      eexists. split; [reflexivity|]. split; [apply Qred_Qred|].
      pose proof (Qred_correct (m # Z.to_pos (2 ^ s))) as Hv.
      set (v := Qred (m # Z.to_pos (2 ^ s))) in *.
      unfold Qeq in Hv. cbn [Qnum Qden] in Hv.
      rewrite Z2Pos.id in Hv by (apply Z.pow_pos_nonneg; lia).
      rewrite Hst in Hv.
      assert (Hdv : 0 < Zpos (Qden v)) by lia.
      split; nia.
Qed.

(** An integer below 2^53 is a double. *)
Lemma round64_integer (x : Q) (z : Z) :
  (x == inject_Z z)%Q -> Z.abs z < 2 ^ 53 -> round64 x = Finite (inject_Z z).
Proof.
  intros Hx Hz. unfold Qeq in Hx. cbn [inject_Z Qnum Qden] in Hx.
  destruct (round64_between x 0 z z) as (v & Hr & Hred & Hv).
  - lia.
  - rewrite Z.pow_0_r. lia.
  - change (53 - 0) with 53.
    assert (Hn : Qnum x = z * Zpos (Qden x)) by lia.
    rewrite Hn, Z.abs_mul, (Z.abs_eq (Zpos (Qden x))) by lia. nia.
  - rewrite Hr. f_equal. rewrite <- Hred, <- (Qred_inject_Z z).
    apply Qred_complete. unfold Qeq. cbn [inject_Z Qnum Qden].
    rewrite Z.pow_0_r in Hv. lia.
Qed.

Lemma ofZ_exact (z : Z) : Z.abs z < 2 ^ 53 -> ofZ z = Finite (inject_Z z).
Proof. intros Hz. apply round64_integer; [reflexivity|exact Hz]. Qed.

Lemma d_add_exact (a b : Z) :
  Z.abs (a + b) < 2 ^ 53 ->
  d_add (Finite (inject_Z a)) (Finite (inject_Z b)) = Finite (inject_Z (a + b)).
Proof.
  intros H. cbn [d_add]. apply round64_integer; [|exact H].
  rewrite inject_Z_plus. reflexivity.
Qed.

Lemma d_mul_exact (a b : Z) :
  Z.abs (a * b) < 2 ^ 53 ->
  d_mul (Finite (inject_Z a)) (Finite (inject_Z b)) = Finite (inject_Z (a * b)).
Proof.
  intros H. cbn [d_mul]. apply round64_integer; [|exact H].
  rewrite inject_Z_mult. reflexivity.
Qed.

(** [Math.round] of the double quotient of two integers is the rounding of
    their exact quotient, as long as the dividend stays below 2^51. *)
Lemma round_div_double (s w : Z) :
  0 < w < 2 ^ 52 -> Z.abs s <= 2 ^ 51 ->
  Math_round (d_div (Finite (inject_Z s)) (Finite (inject_Z w)))
  = Finite ((2 * s + w) / (2 * w)).
Proof.
  intros Hw Hs. cbn [d_div]. unfold isZero. cbn [inject_Z Qnum].
  destruct (Z.eqb_spec w 0) as [|_]; [lia|].
  set (k := (2 * s + w) / (2 * w)).
  assert (Hk : 2 * k * w <= 2 * s + w < 2 * (k + 1) * w).
  { pose proof (Z.div_mod (2 * s + w) (2 * w) ltac:(lia)) as Hdm.
    pose proof (Z.mod_pos_bound (2 * s + w) (2 * w) ltac:(lia)) as Hr.
    fold k in Hdm. nia. }
  set (j := Z.log2_up (2 * w)).
  assert (Hj1 : 2 ^ (Z.pred j) < 2 * w <= 2 ^ j) by (apply Z.log2_up_spec; lia).
  assert (Hj0 : 1 <= j).
  { destruct (Z.le_gt_cases 1 j) as [H|H]; trivial. exfalso.
    assert (H2 : 2 ^ j <= 2 ^ 0) by (apply Z.pow_le_mono_r; lia).
    rewrite Z.pow_0_r in H2. lia. }
  assert (Hj53 : j <= 53).
  { unfold j. apply Z.log2_up_le_pow2; lia. }
  set (P := 2 ^ (j - 1)).
  assert (HP : 0 < P) by (apply Z.pow_pos_nonneg; lia).
  assert (HjP : 2 ^ j = 2 * P).
  { unfold P. replace j with (1 + (j - 1)) at 1 by lia.
    rewrite Z.pow_add_r by lia. reflexivity. }
  replace (Z.pred j) with (j - 1) in Hj1 by lia. fold P in Hj1. rewrite HjP in Hj1.
  destruct w as [|pw|pw]; try lia.
  set (x := (inject_Z s / inject_Z (Z.pos pw))%Q).
  assert (Hnx : Qnum x = s * 1) by reflexivity.
  assert (Hdx : Zpos (Qden x) = Z.pos pw) by reflexivity.
  destruct (round64_between x j ((2 * k - 1) * P) ((2 * k + 1) * P - 1))
    as (v & Hr & _ & Hv).
  - lia.
  - rewrite Hnx, Hdx, HjP. nia.
  - rewrite Hnx, Hdx, Z.mul_1_r.
    assert (H53 : 2 ^ 53 = 2 ^ (53 - j) * (2 * P)).
    { rewrite <- HjP, <- Z.pow_add_r by lia. f_equal. lia. }
    assert (Hq : 0 < 2 ^ (53 - j)) by (apply Z.pow_pos_nonneg; lia).
    assert (H51 : 2 ^ 53 = 4 * 2 ^ 51) by reflexivity.
    nia.
  - rewrite Hr. unfold Math_round, round_half_up. f_equal.
    rewrite HjP in Hv.
    destruct v as [nv dv]. cbn [Qnum Qden] in Hv.
    unfold Qfloor, Qplus. cbn [Qnum Qden].
    symmetry. apply Z.div_unique with (r := nv * 2 + 1 * Z.pos dv - Z.pos (dv * 2) * k).
    + left. rewrite Pos2Z.inj_mul. nia.
    + lia.
Qed.

(** The double nearest to 1.2 is a little below it, and a product by it
    that should be an integer is rounded to that integer. *)
Lemma default_gas_limit (e : Z) :
  0 <= e <= 2 ^ 48 ->
  exists v, d_mul (ofZ e) (round64 (12 # 10)) = Finite v
            /\ Qceiling v = (6 * e + 4) / 5.
Proof.
  intros He.
  rewrite ofZ_exact by (assert (2 ^ 48 < 2 ^ 53) by (apply Z.pow_lt_mono_r; lia); lia).
  replace (round64 (12 # 10))
    with (@Finite Q (5404319552844595 # 4503599627370496)) by (vm_compute; reflexivity).
  cbn [d_mul].
  set (N := (6 * e + 4) / 5).
  assert (HN : 6 * e <= 5 * N <= 6 * e + 4).
  { pose proof (Z.div_mod (6 * e + 4) 5 ltac:(lia)) as Hdm.
    pose proof (Z.mod_pos_bound (6 * e + 4) 5 ltac:(lia)) as Hr.
    fold N in Hdm. lia. }
  set (x := (inject_Z e * (5404319552844595 # 4503599627370496))%Q).
  assert (Hnx : Qnum x = e * 5404319552844595) by reflexivity.
  assert (Hdx : Zpos (Qden x) = 4503599627370496) by reflexivity.
  assert (H48 : 2 ^ 48 = 281474976710656) by reflexivity.
  destruct (round64_between x 4 (16 * N - 15) (16 * N)) as (v & Hr & _ & Hv).
  - lia.
  - rewrite Hnx, Hdx. change (2 ^ 4) with 16. lia.
  - rewrite Hnx, Hdx. change (2 ^ (53 - 4)) with 562949953421312. lia.
  - exists v. split; [exact Hr|].
    change (2 ^ 4) with 16 in Hv.
    destruct v as [nv dv]. cbn [Qnum Qden] in Hv.
    unfold Qceiling, Qfloor, Qopp. cbn [Qnum Qden].
    assert (Hdiv : - nv / Z.pos dv = - N).
    { symmetry. apply Z.div_unique with (r := - nv + N * Z.pos dv); lia. }
    rewrite Hdiv. lia.
Qed.

End Binary64.

(** ** [calculateDOR] on doubles and in exact arithmetic *)

Section Doubles.

Lemma weights_le (s : RateSourceId) : weights s <= 3000.
Proof. destruct s; simpl; lia. Qed.

Lemma ofZ_weight (s : RateSourceId) : ofZ (weights s) = Finite (inject_Z (weights s)).
Proof. destruct s; reflexivity. Qed.

Lemma sum_weights_nonneg (l : list RateSourceId) :
  0 <= fold_right Z.add 0 (map weights l).
Proof.
  induction l as [|y ys IH]; simpl; [lia|]. pose proof (weights_pos y). lia.
Qed.

Lemma absWeightedSum_nonneg (rates : list RateData) : 0 <= absWeightedSum rates.
Proof.
  unfold absWeightedSum. induction rates as [|r rest IH]; simpl; [lia|].
  pose proof (weights_pos (sourceId r)). nia.
Qed.

(** As long as no partial sum reaches 2^53, the loop on doubles computes
    the exact sums. *)
Lemma double_fold_exact (rates : list RateData) :
  forall s w : Z,
    0 <= w ->
    Z.abs s + absWeightedSum rates < 2 ^ 53 ->
    w + fold_right Z.add 0 (map weights (map sourceId rates)) < 2 ^ 53 ->
    fold_left Double.accumulate rates (Finite (inject_Z s), Finite (inject_Z w))
    = (Finite (inject_Z (fst (fold_left accumulate rates (s, w)))),
       Finite (inject_Z (snd (fold_left accumulate rates (s, w))))).
Proof.
  induction rates as [|r rest IH]; intros s w Hw Hs Hsum; [reflexivity|].
  cbn [fold_left]. unfold absWeightedSum in Hs. cbn [map fold_right] in Hs, Hsum.
  fold (absWeightedSum rest) in Hs.
  pose proof (absWeightedSum_nonneg rest) as Hrest.
  pose proof (sum_weights_nonneg (map sourceId rest)) as Hwrest.
  pose proof (weights_pos (sourceId r)) as Hpos.
  assert (Hstep : Double.accumulate (Finite (inject_Z s), Finite (inject_Z w)) r
                  = (Finite (inject_Z (s + rate r * weights (sourceId r))),
                     Finite (inject_Z (w + weights (sourceId r))))).
  { unfold Double.accumulate. cbn [fst snd]. rewrite ofZ_weight.
    rewrite (ofZ_exact (rate r)) by nia.
    rewrite d_mul_exact by (rewrite Z.abs_mul, (Z.abs_eq (weights _)); lia).
    rewrite !d_add_exact; [reflexivity|lia|].
    pose proof (Z.abs_triangle s (rate r * weights (sourceId r))) as Ht.
    rewrite Z.abs_mul, (Z.abs_eq (weights _)) in Ht by lia. lia. }
  rewrite Hstep. unfold accumulate at 2 4. cbn [fst snd].
  apply IH; [lia| |lia].
  pose proof (Z.abs_triangle s (rate r * weights (sourceId r))) as Ht.
  rewrite Z.abs_mul, (Z.abs_eq (weights _)) in Ht by lia. lia.
Qed.

(** The total weight does not depend on the rates: it is exact whatever
    they are. *)
Lemma double_fold_snd (rates : list RateData) :
  forall (a : ieee Q) (w : Z),
    0 <= w ->
    w + fold_right Z.add 0 (map weights (map sourceId rates)) < 2 ^ 53 ->
    snd (fold_left Double.accumulate rates (a, Finite (inject_Z w)))
    = Finite (inject_Z (w + fold_right Z.add 0 (map weights (map sourceId rates)))).
Proof.
  induction rates as [|r rest IH]; intros a w Hw Hsum.
  - cbn. rewrite Z.add_0_r. reflexivity.
  - cbn [fold_left map fold_right] in *.
    pose proof (sum_weights_nonneg (map sourceId rest)) as Hwrest.
    pose proof (weights_pos (sourceId r)) as Hpos.
    unfold Double.accumulate at 2. cbn [fst snd]. rewrite ofZ_weight.
    rewrite d_add_exact by lia.
    rewrite IH by lia. f_equal. f_equal. lia.
Qed.

Lemma double_totalWeight (rates : list RateData) :
  totalWeight rates < 2 ^ 53 ->
  Double.totalWeight rates = Finite (inject_Z (totalWeight rates)).
Proof.
  intros H. rewrite totalWeight_sum in *. unfold Double.totalWeight.
  apply (double_fold_snd rates (Finite 0%Q) 0); lia.
Qed.

Lemma double_calculateDOR_unfold (rates : list RateData) :
  Double.calculateDOR rates
  = if isZeroNumber (Double.totalWeight rates) then Finite 460
    else Math_round (d_div (Double.weightedSum rates) (Double.totalWeight rates)).
Proof.
  unfold Double.calculateDOR, Double.totalWeight, Double.weightedSum.
  destruct (fold_left Double.accumulate rates (Finite 0%Q, Finite 0%Q)); reflexivity.
Qed.

Lemma abs_weightedSum_le (rates : list RateData) :
  Z.abs (weightedSum rates) <= absWeightedSum rates.
Proof.
  rewrite weightedSum_present. unfold presentWeightedSum, absWeightedSum.
  induction rates as [|r rest IH]; simpl; [lia|].
  pose proof (weights_pos (sourceId r)) as Hpos.
  pose proof (Z.abs_triangle (rate r * weights (sourceId r))
                (fold_right Z.add 0
                   (map (fun r0 => rate r0 * weights (sourceId r0)) rest))) as Ht.
  rewrite Z.abs_mul, (Z.abs_eq (weights _)) in Ht by lia. lia.
Qed.

(** Within the range, the engine computes what exact arithmetic gives. *)
Lemma calculateDOR_exact_in_range (rates : list RateData) :
  inDoubleRange rates ->
  Double.calculateDOR rates = Collectors.calculateDOR rates.
Proof.
  intros [Hs Hw].
  assert (H51 : 2 ^ 51 < 2 ^ 52 /\ 2 ^ 52 < 2 ^ 53)
    by (split; apply Z.pow_lt_mono_r; lia).
  pose proof (absWeightedSum_nonneg rates) as Hnn.
  pose proof (double_fold_exact rates 0 0 ltac:(lia) ltac:(simpl; lia)
                ltac:(rewrite <- totalWeight_sum; lia)) as Hfold.
  rewrite double_calculateDOR_unfold, calculateDOR_unfold.
  unfold Double.totalWeight, Double.weightedSum.
  change (Finite 0%Q) with (@Finite Q (inject_Z 0)).
  rewrite Hfold. cbn [fst snd]. fold (weightedSum rates) (totalWeight rates).
  unfold isZeroNumber, isZero. cbn [inject_Z Qnum].
  destruct (Z.eqb_spec (totalWeight rates) 0) as [|Hne]; [reflexivity|].
  assert (Hpos : 0 < totalWeight rates).
  { destruct rates as [|r rest]; [contradiction Hne; reflexivity|].
    apply totalWeight_pos. discriminate. }
  rewrite round_div_double, round_div_pos; trivial; [lia|].
  pose proof (abs_weightedSum_le rates). lia.
Qed.

(** One observation per source at most, each of at most 10^11 bps: the
    sums are within the range. *)
Lemma plausible_inDoubleRange (rates : list RateData) :
  NoDup (map sourceId rates) ->
  Forall (fun r => Z.abs (rate r) <= 10 ^ 11) rates ->
  inDoubleRange rates.
Proof.
  intros Hnd Hb.
  assert (Hw : totalWeight rates <= 10000).
  { rewrite (totalWeight_renormalized rates Hnd).
    unfold renormalizedDenominator, absentWeight.
    pose proof (sum_weights_nonneg
                  (filter (fun s => negb (present rates s)) allSources)). lia. }
  assert (H15 : 10 ^ 11 * 10000 <= 2 ^ 51) by (vm_compute; discriminate).
  assert (H4 : 10000 <= 2 ^ 51) by (vm_compute; discriminate).
  assert (H11 : 0 <= 10 ^ 11) by (vm_compute; discriminate).
  set (K := 10 ^ 11) in *.
  assert (Hs : absWeightedSum rates <= K * totalWeight rates).
  { rewrite totalWeight_sum. unfold absWeightedSum. clear Hnd Hw.
    induction Hb as [|r rest Hr _ IH]; cbn [map fold_right]; [lia|].
    pose proof (weights_pos (sourceId r)). nia. }
  split; [nia|lia].
Qed.

End Doubles.


(** C1, as stated, fails: the weighted sum of the scenario is 4,525,000 over
    a weight of 10,000, that is 452.5, and not 445. *)
Lemma scenario_dor_is_not_445 :
  weightedSum scenario = 350 * 2000 + 450 * 3000 + 460 * 2500 + 550 * 1500 + 500 * 1000
  /\ totalWeight scenario = 10000
  /\ Collectors.calculateDOR scenario <> Finite 445
  /\ CollectorsBasic.calculateDOR scenario <> Finite 445.
Proof. repeat split; vm_compute; congruence. Qed.

(** C1 (amended): on the observations TESR=350, METH=450, SOFR=460,
    AAVE_USDT=550, ONDO_USDY=500, all live, [calculateDOR] returns 453, the
    weighted mean 4,525,000 / 10,000 = 452.5 rounded half up; both versions
    of the function agree. *)
Theorem scenario_dor_is_453 :
  Collectors.calculateDOR scenario = Finite 453
  /\ CollectorsBasic.calculateDOR scenario = Finite 453
  /\ js_div (weightedSum scenario) (totalWeight scenario) = Finite (4525000 # 10000)
  /\ Forall (fun r => isLive r = true) scenario.
Proof.
  repeat split; try reflexivity.
  repeat constructor.
Qed.

(** C6, as stated, fails: five observations, one per source, each with
    the rate 9007199254740991 (2^53 - 1).  The products by the weights are
    not doubles and are rounded, and [calculateDOR] returns
    9007199254740990, which is below the smallest rate. *)
Lemma calculateDOR_leaves_min_max :
  List.length hugeRates = 5%nat
  /\ NoDup (map sourceId hugeRates)
  /\ minRate hugeRates = 9007199254740991
  /\ maxRate hugeRates = 9007199254740991
  /\ Double.calculateDOR hugeRates = Finite 9007199254740990
  /\ ~ (exists d, Double.calculateDOR hugeRates = Finite d
                  /\ minRate hugeRates <= d <= maxRate hugeRates).
Proof.
  split; [reflexivity|]. split; [apply NoDup_allSources|].
  split; [reflexivity|]. split; [reflexivity|].
  assert (H : Double.calculateDOR hugeRates = Finite 9007199254740990)
    by (vm_compute; reflexivity).
  split; [exact H|].
  intros (d & Hd & Hlo & _). rewrite H in Hd. inversion Hd; subst d.
  vm_compute in Hlo. apply Hlo. reflexivity.
Qed.

(** C6 (amended): for five observations, one per source (so that the
    weights add up to 10,000 bps), with rates of at most 10^11 bps in
    magnitude, [calculateDOR] returns a value between the smallest and the
    largest [rate], inclusive: the doubles of the loop are exact in that
    range, and the result is the one of exact arithmetic. *)
Theorem calculateDOR_between_min_and_max (rates : list RateData) :
  List.length rates = 5%nat ->
  NoDup (map sourceId rates) ->
  Forall (fun r => Z.abs (rate r) <= 10 ^ 11) rates ->
  Double.totalWeight rates = Finite (inject_Z 10000)
  /\ exists d, Double.calculateDOR rates = Finite d
               /\ Collectors.calculateDOR rates = Finite d
               /\ minRate rates <= d <= maxRate rates.
Proof.
  intros Hlen Hnd Hb.
  pose proof (totalWeight_full rates Hlen Hnd) as Hw.
  split.
  - rewrite double_totalWeight; rewrite Hw; [reflexivity|].
    vm_compute. reflexivity.
  - rewrite (calculateDOR_exact_in_range rates (plausible_inDoubleRange rates Hnd Hb)).
    destruct (calculateDOR_between (minRate rates) (maxRate rates) rates)
      as (d & Hd & Hbetween).
    + intros ->. discriminate.
    + apply rates_between_min_max.
    + exists d. split; [exact Hd|]. split; [exact Hd|exact Hbetween].
Qed.

Lemma calculateDOR_between_min_and_max_witness :
  Double.calculateDOR scenario = Finite 453
  /\ minRate scenario = 350
  /\ maxRate scenario = 550
  /\ Double.totalWeight scenario = Finite (inject_Z 10000)
  /\ exists d, Double.calculateDOR scenario = Finite d
               /\ Collectors.calculateDOR scenario = Finite d
               /\ minRate scenario <= d <= maxRate scenario.
Proof.
  split; [vm_compute; reflexivity|]. split; [reflexivity|]. split; [reflexivity|].
  apply (calculateDOR_between_min_and_max scenario).
  - reflexivity.
  - apply NoDup_allSources.
  - repeat constructor; vm_compute; discriminate.
Defined.

(** C7: when a source has no observation, the denominator [calculateDOR]
    divides by is the 10,000 bps less the weight of the absent sources,
    whatever the rates are; the result is the default 460 when nothing is
    present and otherwise [Math.round] of the quotient of the weighted sum
    of the observations present by that denominator.  The function returns
    in every case; with rates of at most 10^11 bps in magnitude the sums are
    exact and the result is the finite rounding of the exact mean over the
    observations present. *)
Theorem calculateDOR_renormalizes (rates : list RateData) :
  NoDup (map sourceId rates) ->
  (exists s, ~ In s (map sourceId rates)) ->
  Double.totalWeight rates = Finite (inject_Z (renormalizedDenominator rates))
  /\ renormalizedDenominator rates < 10000
  /\ Double.calculateDOR rates
     = (if renormalizedDenominator rates =? 0 then Finite 460
        else Math_round (d_div (Double.weightedSum rates)
                               (Finite (inject_Z (renormalizedDenominator rates)))))
  /\ (Forall (fun r => Z.abs (rate r) <= 10 ^ 11) rates ->
      Double.weightedSum rates = Finite (inject_Z (presentWeightedSum rates))
      /\ Double.calculateDOR rates
         = (if renormalizedDenominator rates =? 0 then Finite 460
            else Math_round (js_div (presentWeightedSum rates)
                                    (renormalizedDenominator rates)))
      /\ exists d, Double.calculateDOR rates = Finite d).
Proof.
  intros Hnd (s & Hs).
  pose proof (totalWeight_renormalized rates Hnd) as Hden.
  assert (Hlt : renormalizedDenominator rates < 10000).
  { unfold renormalizedDenominator, absentWeight.
    assert (Hin : In s (filter (fun s => negb (present rates s)) allSources)).
    { apply filter_In. split; [apply in_allSources|].
      destruct (present rates s) eqn:Hp; trivial.
      apply present_In in Hp. contradiction. }
    assert (Hpos : forall l, In s l -> 0 < fold_right Z.add 0 (map weights l)).
    { clear. intros l Hin.
      destruct (in_split _ _ Hin) as (l1 & l2 & ->).
      rewrite map_app, fold_right_app. simpl.
      pose proof (weights_pos s). pose proof (sum_weights_nonneg l2).
      assert (Hadd : forall l k, fold_right Z.add k l = fold_right Z.add 0 l + k).
      { induction l as [|x xs IH]; intros k; simpl; [lia|rewrite IH; lia]. }
      rewrite Hadd. pose proof (sum_weights_nonneg l1). lia. }
    specialize (Hpos _ Hin). lia. }
  assert (H53 : 10000 < 2 ^ 53) by (vm_compute; reflexivity).
  assert (Htw : Double.totalWeight rates
                = Finite (inject_Z (renormalizedDenominator rates))).
  { rewrite double_totalWeight; rewrite Hden; [reflexivity|lia]. }
  split; [exact Htw|]. split; [exact Hlt|]. split.
  - rewrite double_calculateDOR_unfold, Htw. reflexivity.
  - intros Hb.
    pose proof (plausible_inDoubleRange rates Hnd Hb) as Hrange.
    split; [|split].
    + unfold Double.weightedSum.
      destruct Hrange as [Hs51 Hw51].
      assert (H51 : 2 ^ 51 < 2 ^ 53) by (apply Z.pow_lt_mono_r; lia).
      pose proof (absWeightedSum_nonneg rates) as Hnn.
      change (Finite 0%Q) with (@Finite Q (inject_Z 0)).
      rewrite (double_fold_exact rates 0 0);
        [|lia|simpl; lia|rewrite <- totalWeight_sum; lia].
      cbn [fst]. fold (weightedSum rates). rewrite weightedSum_present. reflexivity.
    + rewrite (calculateDOR_exact_in_range rates Hrange).
      rewrite calculateDOR_unfold, Hden, weightedSum_present. reflexivity.
    + rewrite (calculateDOR_exact_in_range rates Hrange).
      destruct rates as [|r rest].
      * exists 460. reflexivity.
      * rewrite calculateDOR_nonempty by discriminate. eexists; reflexivity.
Qed.

Lemma calculateDOR_renormalizes_witness :
  renormalizedDenominator threeSources = 7500
  /\ Double.calculateDOR threeSources = Finite 427
  /\ (Double.totalWeight threeSources
      = Finite (inject_Z (renormalizedDenominator threeSources))
      /\ renormalizedDenominator threeSources < 10000
      /\ Double.calculateDOR threeSources
         = (if renormalizedDenominator threeSources =? 0 then Finite 460
            else Math_round (d_div (Double.weightedSum threeSources)
                               (Finite (inject_Z (renormalizedDenominator threeSources)))))
      /\ (Forall (fun r => Z.abs (rate r) <= 10 ^ 11) threeSources ->
          Double.weightedSum threeSources
          = Finite (inject_Z (presentWeightedSum threeSources))
          /\ Double.calculateDOR threeSources
             = (if renormalizedDenominator threeSources =? 0 then Finite 460
                else Math_round (js_div (presentWeightedSum threeSources)
                                        (renormalizedDenominator threeSources)))
          /\ exists d, Double.calculateDOR threeSources = Finite d)).
Proof.
  split; [reflexivity|]. split; [vm_compute; reflexivity|].
  apply (calculateDOR_renormalizes threeSources).
  - simpl. repeat (constructor; [simpl; intuition discriminate|]). constructor.
  - exists ONDO_USDY. simpl. intuition discriminate.
Defined.


(** The first version of [calculateDOR] has no such guard: on the empty set
    it returns NaN. *)
Lemma basic_calculateDOR_empty : CollectorsBasic.calculateDOR [] = NaN.
Proof. reflexivity. Qed.

(** The same values on doubles; and a rate so large that its product by the
    weight is no double: the result is an infinity. *)
Example calculateDOR_on_doubles :
  Double.calculateDOR scenario = Finite 453
  /\ DoubleBasic.calculateDOR scenario = Finite 453
  /\ Double.calculateDOR allFallback = Finite 453
  /\ Double.calculateDOR [] = Finite 460
  /\ DoubleBasic.calculateDOR [] = NaN
  /\ Double.calculateDOR [mkRate TESR "TESR" (2 ^ 1023) 0 "api.treehouse.finance" true]
     = Infinity false.
Proof. repeat split; vm_compute; reflexivity. Qed.

(** ** Validation *)

Section Validation.

Lemma fold_checkStale (now : Z) (rates : list RateData) (ws : list ValidationWarning) :
  fold_left (checkStale now) rates ws = ws ++ flat_map (staleWarning now) rates.
Proof.
  revert ws; induction rates as [|r rest IH]; intros ws; simpl.
  - now rewrite app_nil_r.
  - rewrite IH. unfold checkStale, staleWarning.
    destruct (now - timestamp r >? maxAge); simpl; trivial.
    now rewrite <- app_assoc.
Qed.

Lemma fold_checkExtreme (rates : list RateData) es ws :
  fold_left checkExtreme rates (es, ws)
  = (es ++ flat_map negativeError rates, ws ++ flat_map highWarning rates).
Proof.
  revert es ws; induction rates as [|r rest IH]; intros es ws; simpl.
  - now rewrite !app_nil_r.
  - unfold checkExtreme at 2. simpl. rewrite IH.
    unfold negativeError, highWarning.
    destruct (rate r <? 0), (rate r >? 5000); simpl;
      rewrite <- ?app_assoc; reflexivity.
Qed.

(** [validateRates] in closed form: the errors and the warnings in the
    order they are pushed. *)
Lemma validateRates_unfold (now : Z) (rates : list RateData) :
  Collectors.validateRates now rates
  = let es := (if zlength rates <? 3 then [EMinSources (zlength rates)] else [])
              ++ flat_map negativeError rates in
    let ws := flat_map (staleWarning now) rates ++ flat_map highWarning rates in
    mkValidation (zlength es =? 0)
      (if fallbackCount rates >? 2 then ws ++ [WFallback (fallbackCount rates)]
       else ws)
      es.
Proof.
  unfold Collectors.validateRates.
  rewrite fold_checkStale, fold_checkExtreme. reflexivity.
Qed.

Lemma no_negative_no_error (rates : list RateData) :
  Forall (fun r => 0 <= rate r) rates -> flat_map negativeError rates = [].
Proof.
  induction 1 as [|r rest Hr _ IH]; simpl; trivial.
  rewrite IH. unfold negativeError.
  destruct (Z.ltb_spec (rate r) 0); [lia|reflexivity].
Qed.

Lemma fallbackCount_all (rates : list RateData) :
  Forall (fun r => isLive r = false) rates -> fallbackCount rates = zlength rates.
Proof.
  unfold fallbackCount, zlength. intros H. f_equal. f_equal.
  induction H as [|r rest Hr _ IH]; simpl; trivial.
  rewrite Hr. simpl. now rewrite IH.
Qed.

(** The observations [validateRates] counts are those that are not live. *)
Lemma fallbackCount_nonLive (rates : list RateData) :
  fallbackCount rates = nonLiveCount rates.
Proof.
  unfold fallbackCount, nonLiveCount, zlength. f_equal.
  induction rates as [|r rest IH]; [reflexivity|].
  cbn [filter map count_occ]. destruct (isLive r); cbn [negb].
  - destruct (bool_dec true false) as [E|_]; [discriminate E|exact IH].
  - destruct (bool_dec false false) as [_|N]; [|contradiction N; reflexivity].
    cbn [List.length]. now rewrite IH.
Qed.

Lemma fallback_warning_iff (now : Z) (rates : list RateData) (n : Z) :
  In (WFallback n) (warnings (Collectors.validateRates now rates))
  <-> n = fallbackCount rates /\ fallbackCount rates > 2.
Proof.
  rewrite validateRates_unfold. cbn [warnings].
  assert (Hno : ~ In (WFallback n)
            (flat_map (staleWarning now) rates ++ flat_map highWarning rates)).
  { intros H. apply in_app_or in H. destruct H as [H|H];
      apply in_flat_map in H; destruct H as (r & _ & H).
    - unfold staleWarning in H. destruct (now - timestamp r >? maxAge);
        simpl in H; intuition discriminate.
    - unfold highWarning in H. destruct (rate r >? 5000);
        simpl in H; intuition discriminate. }
  destruct (Z.gtb_spec (fallbackCount rates) 2) as [Hgt|Hle].
  - split.
    + intros H. apply in_app_or in H. destruct H as [H|H]; [contradiction|].
      simpl in H. destruct H as [H|[]]. inversion H. lia.
    + intros [-> _]. apply in_or_app. right. now left.
  - split; [contradiction|lia].
Qed.

End Validation.

(** C9: five observations that are all fallback values, with rates that are
    not negative, are valid, and the warnings carry the fallback warning
    with the count 5; on any input the fallback warning is there exactly
    when more than 2 observations are not live, and it carries their
    number. *)
Theorem all_fallback_valid_with_warning (now : Z) (rates : list RateData) :
  List.length rates = 5%nat ->
  Forall (fun r => isLive r = false) rates ->
  Forall (fun r => 0 <= rate r) rates ->
  isValid (Collectors.validateRates now rates) = true
  /\ errors (Collectors.validateRates now rates) = []
  /\ In (WFallback 5) (warnings (Collectors.validateRates now rates))
  /\ forall rates' n,
       In (WFallback n) (warnings (Collectors.validateRates now rates'))
       <-> n = nonLiveCount rates' /\ 2 < nonLiveCount rates'.
Proof.
  intros Hlen Hfb Hnn.
  assert (Hz : zlength rates = 5) by (unfold zlength; rewrite Hlen; reflexivity).
  assert (Hes : errors (Collectors.validateRates now rates) = []).
  { rewrite validateRates_unfold. cbn [errors].
    rewrite Hz, no_negative_no_error by assumption. reflexivity. }
  split; [|split; [exact Hes|split]].
  - rewrite validateRates_unfold in *. cbn [isValid errors] in *.
    rewrite Hes. reflexivity.
  - apply fallback_warning_iff. rewrite fallbackCount_all, Hz by assumption. lia.
  - intros rates' n. rewrite fallback_warning_iff, fallbackCount_nonLive. lia.
Qed.

Lemma all_fallback_valid_with_warning_witness :
  nonLiveCount allFallback = 5
  /\ nonLiveCount twoFallbacks = 2
  /\ nonLiveCount threeFallbacks = 3
  /\ (forall n, ~ In (WFallback n)
                  (warnings (Collectors.validateRates 1700000000000 twoFallbacks)))
  /\ In (WFallback 3)
        (warnings (Collectors.validateRates 1700000000000 threeFallbacks))
  /\ isValid (Collectors.validateRates 1700000000000 allFallback) = true
  /\ errors (Collectors.validateRates 1700000000000 allFallback) = []
  /\ In (WFallback 5) (warnings (Collectors.validateRates 1700000000000 allFallback)).
Proof.
  destruct (all_fallback_valid_with_warning 1700000000000 allFallback)
    as (Hvalid & Herrors & Hfive & Hiff).
  - reflexivity.
  - repeat constructor.
  - repeat constructor; simpl; lia.
  - split; [reflexivity|]. split; [reflexivity|]. split; [reflexivity|].
    split; [|split; [|split; [exact Hvalid|split; [exact Herrors|exact Hfive]]]].
    + intros n Hin. apply Hiff in Hin. vm_compute in Hin.
      destruct Hin as [_ Hlt]. discriminate Hlt.
    + apply Hiff. split; reflexivity.
Defined.

(** ** Traces *)

Section Traces.

Lemma grows_refl (w : World) : grows w w.
Proof. exists []. reflexivity. Qed.

Lemma grows_trans (w1 w2 w3 : World) : grows w1 w2 -> grows w2 w3 -> grows w1 w3.
Proof.
  intros (a & Ha) (b & Hb). exists (b ++ a). rewrite Hb, Ha. apply app_assoc.
Qed.

Lemma growing_ret (A : Type) (a : A) : growing (ret a).
Proof. intros w. apply grows_refl. Qed.

Lemma growing_throw (A : Type) (t : Thrown) : growing (@throw A t).
Proof. intros w. apply grows_refl. Qed.

Lemma growing_external (A : Type) (env : Env) (ev : Event)
  (answer : World -> Answer A) : growing (external env ev answer).
Proof.
  intros w. unfold external. exists [ev].
  destruct (answer w); reflexivity.
Qed.

Lemma growing_bind (A B : Type) (c : Async A) (k : A -> Async B) :
  growing c -> (forall a, growing (k a)) -> growing (bind c k).
Proof.
  intros Hc Hk w. unfold bind. specialize (Hc w).
  destruct (c w) as [[a|t] w1]; simpl in *; trivial.
  eapply grows_trans; [exact Hc|apply Hk].
Qed.

Lemma growing_try_catch (A : Type) (c : Async A) (h : Thrown -> Async A) :
  growing c -> (forall t, growing (h t)) -> growing (try_catch c h).
Proof.
  intros Hc Hh w. unfold try_catch. specialize (Hc w).
  destruct (c w) as [[a|t] w1]; simpl in *; trivial.
  eapply grows_trans; [exact Hc|apply Hh].
Qed.

Lemma bind_ok (A B : Type) (c : Async A) (k : A -> Async B) (w w1 : World) (a : A) :
  c w = (Ok a, w1) -> bind c k w = k a w1.
Proof. unfold bind. intros ->. reflexivity. Qed.

Lemma grows_sleep (delay : Z) (w : World) : grows w (sleep delay w).
Proof. exists [EvSleep delay]. reflexivity. Qed.

Lemma growing_retryLoop (T : Type) (fn : Async T) (config : Pusher.RetryConfig) :
  growing fn ->
  forall turns attempt lastError,
    growing (Pusher.retryLoop fn config turns attempt lastError).
Proof.
  intros Hfn. induction turns as [|k IH]; intros attempt lastError w; simpl.
  - apply grows_refl.
  - specialize (Hfn w). destruct (fn w) as [[v|e] w1]; simpl in *; trivial.
    eapply grows_trans; [exact Hfn|].
    destruct (attempt <? Pusher.maxRetries config); [destruct e as [|e]|].
    + apply grows_refl.
    + eapply grows_trans; [apply grows_sleep|apply IH].
    + apply IH.
Qed.

Lemma grows_In (ev : Event) (w w' : World) :
  grows w w' -> In ev (trace w) -> In ev (trace w').
Proof. intros (a & Ha) Hin. rewrite Ha. apply in_or_app. now right. Qed.

(** What the first invocation puts in the trace is there when the retry
    loop ends. *)
Lemma retryLoop_keeps_first (T : Type) (fn : Async T) (config : Pusher.RetryConfig)
  (k : nat) (attempt : Z) (lastError : Thrown) (w : World) (ev : Event) :
  growing fn ->
  In ev (trace (snd (fn w))) ->
  In ev (trace (snd (Pusher.retryLoop fn config (S k) attempt lastError w))).
Proof.
  intros Hfn Hin. cbn [Pusher.retryLoop].
  destruct (fn w) as [[v|e] w1]; cbn [snd] in *; [exact Hin|].
  destruct (attempt <? Pusher.maxRetries config); [destruct e as [|e]|].
  - exact Hin.
  - eapply grows_In; [apply growing_retryLoop, Hfn|]. right. exact Hin.
  - eapply grows_In; [apply growing_retryLoop, Hfn|]. exact Hin.
Qed.

Lemma growing_bigIntCeil x : growing (Pusher.bigIntCeil x).
Proof. destruct x; [apply growing_ret|apply growing_throw|apply growing_throw]. Qed.

Lemma growing_estimateGas env cfg rates : growing (Pusher.estimateGas env cfg rates).
Proof.
  unfold Pusher.estimateGas. apply growing_try_catch.
  - apply growing_bind; [apply growing_external|intros; apply growing_bigIntCeil].
  - intros; apply growing_ret.
Qed.

Lemma growing_submitOnce env cfg rates : growing (Pusher.submitOnce env cfg rates).
Proof.
  unfold Pusher.submitOnce.
  apply growing_bind; [apply growing_estimateGas|intros gasLimit].
  apply growing_bind; [apply growing_external|intros feeData].
  cbv zeta. destruct (Pusher.gasPriceTooHigh cfg _); [apply growing_throw|].
  apply growing_bind; [apply growing_external|intros hash].
  apply growing_bind; [apply growing_external|intros [r|]].
  - destruct (negb (status r =? 1)); [apply growing_throw|apply growing_ret].
  - apply growing_throw.
Qed.

Lemma pushBatchRates_grows env rates pusher (w : World) :
  grows w (snd (Pusher.pushBatchRates env rates pusher w)).
Proof.
  unfold Pusher.pushBatchRates, Pusher.execute.
  destruct (Pusher.guard _ _ _) as [[u|t] cb1]; simpl.
  - pose proof (growing_retryLoop _ (Pusher.submitOnce env (Pusher.config pusher) rates)
                  Pusher.DEFAULT_RETRY_CONFIG (growing_submitOnce env _ rates)
                  (Z.to_nat (Pusher.maxRetries Pusher.DEFAULT_RETRY_CONFIG)) 1
                  ThrownNull w) as H.
    unfold Pusher.withRetry.
    destruct (Pusher.retryLoop _ _ _ _ _ w) as [[v|e] w1]; exact H.
  - apply grows_refl.
Qed.

(** [fullUpdate] always reaches the chain: it starts by reading the current
    rate, and whatever follows only adds to the trace. *)
Lemma fullUpdate_reaches_chain env rates pusher (w : World) :
  (List.length (chainCalls w)
   < List.length (chainCalls (snd (Pusher.fullUpdate env rates pusher w))))%nat.
Proof.
  assert (Hlen : forall w1 w2, grows w1 w2 ->
            (List.length (chainCalls w1) <= List.length (chainCalls w2))%nat).
  { intros w1 w2 (a & Ha). unfold chainCalls. rewrite Ha, filter_app, length_app. lia. }
  unfold Pusher.fullUpdate, Pusher.getCurrentDOR.
  set (w1 := mkWorld (clock w + latency env w) (EvGetDOR :: trace w)).
  assert (H1 : (List.length (chainCalls w) < List.length (chainCalls w1))%nat).
  { unfold chainCalls, w1. simpl. lia. }
  unfold external at 1. fold w1.
  destruct (getDOR env w); cbn iota beta; [|exact H1].
  pose proof (pushBatchRates_grows env rates pusher w1) as H2.
  destruct (Pusher.pushBatchRates env rates pusher w1) as [[[r|t] p1] w2];
    cbn [snd] in H2; apply Hlen in H2.
  - pose proof (growing_external Z env EvGetDOR (getDOR env) w2) as H3.
    destruct (external env EvGetDOR (getDOR env) w2) as [[d|t] w3];
      cbn [snd] in H3 |- *; apply Hlen in H3; lia.
  - cbn [snd]. lia.
Qed.

End Traces.

(** ** The update cycle *)

Section Cycle.

Variable env : Env.
Variable cfg : Oracle.Config.

Lemma too_few_sources_invalid (now : Z) (rates : list RateData) :
  zlength rates < 3 ->
  isValid (Collectors.validateRates now rates) = false
  /\ In (EMinSources (zlength rates)) (errors (Collectors.validateRates now rates)).
Proof.
  intros H. rewrite validateRates_unfold. cbn [isValid errors].
  destruct (Z.ltb_spec (zlength rates) 3); [|lia].
  split; [reflexivity|now left].
Qed.

(** Writing to the database calls nothing on the chain and raises
    nothing. *)
Lemma saveToDatabase_quiet rates dor result error (w : World) :
  exists w1, Oracle.saveToDatabase env cfg rates dor result error w = (Ok tt, w1)
             /\ chainCalls w1 = chainCalls w.
Proof.
  unfold Oracle.saveToDatabase, try_catch, bind, external, ret.
  destruct (Oracle.useDatabase cfg); simpl; [|eauto].
  destruct (dbSaveDORUpdate env w); simpl; [|eauto].
  match goal with |- context [dbLog env ?x] => destruct (dbLog env x) end;
    simpl; eauto.
Qed.

Lemma finallyBlock_quiet dryRun (l : Oracle.Locals) (w : World) :
  exists w1, Oracle.finallyBlock env cfg dryRun l w = (Ok tt, w1)
             /\ chainCalls w1 = chainCalls w.
Proof.
  unfold Oracle.finallyBlock.
  destruct (negb dryRun && (zlength (Oracle.rates l) >? 0)).
  - apply saveToDatabase_quiet.
  - unfold ret. eauto.
Qed.

Lemma catchBlock_quiet (l : Oracle.Locals) (w : World) :
  exists o w1, Oracle.catchBlock env cfg l w = (o, w1)
               /\ chainCalls w1 = chainCalls w.
Proof.
  unfold Oracle.catchBlock, bind, external, ret.
  destruct (Oracle.useDatabase cfg && (zlength (Oracle.rates l) >? 0)); [|eauto].
  destruct (dbLog env w); simpl; eauto.
Qed.

(** A cycle whose [try] block raises before the pusher is built ends by
    raising, with no call to the chain. *)
Lemma runUpdate_aborts collect dryRun (w w1 : World) (t : Thrown) (l : Oracle.Locals) :
  Oracle.tryBlock env cfg collect dryRun w = (Throw t, l, w1) ->
  exists t' w2, Oracle.runUpdateWith env cfg collect dryRun w = (Throw t', w2)
                /\ chainCalls w2 = chainCalls w1.
Proof.
  intros Htry. unfold Oracle.runUpdateWith. rewrite Htry.
  destruct t as [|e].
  - destruct (finallyBlock_quiet dryRun l w1) as (w3 & Hf & Hcalls'). rewrite Hf.
    do 2 eexists. split; [reflexivity|congruence].
  - cbv zeta. set (l1 := Oracle.mkLocals _ _ _ _).
    destruct (catchBlock_quiet l1 w1) as (o & w2 & Hc & Hcalls). rewrite Hc.
    destruct (finallyBlock_quiet dryRun l1 w2) as (w3 & Hf & Hcalls'). rewrite Hf.
    do 2 eexists. split; [reflexivity|congruence].
Qed.

End Cycle.

(** C3: an observation set with fewer than 3 observations is invalid, and a
    cycle that collects such a set ends with an error without one call to
    the chain, whereas [fullUpdate], had it been invoked, would have made
    at least one: the push phase does not run. *)
Theorem too_few_sources_never_pushed
  (env : Env) (cfg : Oracle.Config) (collect : Async (list RateData))
  (dryRun : bool) (w w1 : World) (rates : list RateData) (now : Z) :
  collect w = (Ok rates, w1) ->
  zlength rates < 3 ->
  isValid (Collectors.validateRates now rates) = false
  /\ (exists t w2,
        Oracle.runUpdateWith env cfg collect dryRun w = (Throw t, w2)
        /\ chainCalls w2 = chainCalls w1)
  /\ (forall pusher wp,
        (List.length (chainCalls wp)
         < List.length (chainCalls (snd (Pusher.fullUpdate env rates pusher wp))))%nat).
Proof.
  intros Hc Hlen. split; [now apply too_few_sources_invalid|].
  split; [|intros pusher wp; apply fullUpdate_reaches_chain].
  destruct (Z.eqb_spec (zlength rates) 0) as [Hz|Hz].
  - eapply runUpdate_aborts. unfold Oracle.tryBlock. rewrite Hc.
    destruct (Z.eqb_spec (zlength rates) 0); [reflexivity|contradiction].
  - eapply runUpdate_aborts. unfold Oracle.tryBlock. rewrite Hc.
    destruct (Z.eqb_spec (zlength rates) 0); [contradiction|].
    destruct (too_few_sources_invalid (clock w1) rates Hlen) as [Hv _].
    rewrite Hv. reflexivity.
Qed.

Lemma too_few_sources_never_pushed_witness :
  zlength twoSources < 3
  /\ Oracle.runUpdateWith calmEnv demoConfig (ret twoSources) false
       startWorld
     = (Throw (Err (ValidationFailed [EMinSources 2])),
        mkWorld 1700000000015
          [EvDbLog "ERROR"; EvDbSaveDORUpdate (Finite 0) false; EvDbLog "ERROR"])
  /\ (isValid (Collectors.validateRates 0 twoSources) = false
      /\ (exists t w2,
            Oracle.runUpdateWith calmEnv demoConfig (ret twoSources)
              false startWorld = (Throw t, w2)
            /\ chainCalls w2 = chainCalls startWorld)
      /\ (forall pusher wp,
            (List.length (chainCalls wp)
             < List.length (chainCalls
                              (snd (Pusher.fullUpdate calmEnv
                                      twoSources pusher wp))))%nat)).
Proof.
  split; [reflexivity|]. split; [reflexivity|].
  apply (too_few_sources_never_pushed calmEnv demoConfig
           (ret twoSources) false startWorld startWorld twoSources 0);
    reflexivity.
Defined.

(** A valid set, for comparison, is pushed: the cycle reads the rate, checks
    the gas, submits and waits. *)
Example valid_set_is_pushed :
  Oracle.runUpdateWith calmEnv demoConfig (ret scenario) false
    startWorld
  = (Ok tt,
     mkWorld 1700000000045
       [ EvDbLog "INFO"; EvDbSaveDORUpdate (Finite 453) true; EvGetDOR;
         EvWait "0xabc"; EvBatchUpdateRates [0; 1; 2; 3; 4] [350; 450; 460; 550; 500] 120000;
         EvGetFeeData; EvEstimateGas [0; 1; 2; 3; 4] [350; 450; 460; 550; 500];
         EvGetDOR; EvAuthorizedUpdaters ]).
Proof. reflexivity. Qed.

(** ** Retry *)




(** ** Circuit breaker *)

Section Breaker.

Import Pusher.

Variable cfg : CircuitBreakerConfig.

Lemma execute_closed_failure (T : Type) (fn : Async T) (cb : CircuitBreaker)
  (w w' : World) (e : Thrown) :
  state cb = CLOSED ->
  fn w = (Throw e, w') ->
  execute cfg fn cb w = (Throw e, onFailure cfg (clock w') cb, w').
Proof.
  intros Hs Hf. unfold execute, guard, checkOpen, checkHalfOpen.
  rewrite Hs. rewrite Hs. rewrite Hf. reflexivity.
Qed.

(** An OPEN breaker refuses every request until the timeout has elapsed:
    the operation is not run, the world and the breaker are as before. *)
Lemma execute_open_refuses (T : Type) (fn : Async T) (cb : CircuitBreaker)
  (w : World) :
  state cb = OPEN ->
  clock w - lastFailureTime cb < resetTimeoutMs cfg ->
  execute cfg fn cb w
  = (Throw (Err (Failure "Circuit breaker is OPEN - refusing request")), cb, w).
Proof.
  intros Hs Ht. unfold execute, guard, checkOpen. rewrite Hs.
  destruct (Z.geb_spec (clock w - lastFailureTime cb) (resetTimeoutMs cfg));
    [lia|reflexivity].
Qed.

Lemma guard_open_elapsed (cb : CircuitBreaker) (dateNow : Z) :
  state cb = OPEN ->
  resetTimeoutMs cfg <= dateNow - lastFailureTime cb ->
  1 <= halfOpenMaxAttempts cfg ->
  guard cfg dateNow cb
  = (Ok tt, mkBreaker HALF_OPEN (failureCount cb) (lastFailureTime cb) 1).
Proof.
  intros Hs Ht Hm. unfold guard, checkOpen. rewrite Hs.
  destruct (Z.geb_spec (dateNow - lastFailureTime cb) (resetTimeoutMs cfg));
    [|lia].
  unfold checkHalfOpen. cbn [state halfOpenAttempts failureCount lastFailureTime].
  destruct (Z.gtb_spec (0 + 1) (halfOpenMaxAttempts cfg)); [lia|reflexivity].
Qed.

End Breaker.

(** C2: from a CLOSED breaker with no failure counted, three executions
    whose operation fails leave the breaker OPEN; while less than
    [resetTimeoutMs] has passed since the last failure, an execution is
    refused with the breaker-open error and the operation is not run (the
    world is untouched, whatever the operation); once [resetTimeoutMs] has
    passed, the breaker lets the call through as HALF_OPEN and a success
    leaves it CLOSED with a failure count of zero. *)
Theorem circuit_breaker_opens_and_recovers
  (T : Type) (cfg : Pusher.CircuitBreakerConfig) (cb0 : Pusher.CircuitBreaker)
  (f1 f2 f3 : Async T) (w1 w1' w2 w2' w3 w3' : World) (e1 e2 e3 : Thrown) :
  Pusher.failureThreshold cfg = 3 ->
  1 <= Pusher.halfOpenMaxAttempts cfg ->
  Pusher.state cb0 = Pusher.CLOSED ->
  Pusher.failureCount cb0 = 0 ->
  f1 w1 = (Throw e1, w1') ->
  f2 w2 = (Throw e2, w2') ->
  f3 w3 = (Throw e3, w3') ->
  exists cb1 cb2 cb3,
    Pusher.execute cfg f1 cb0 w1 = (Throw e1, cb1, w1')
    /\ Pusher.execute cfg f2 cb1 w2 = (Throw e2, cb2, w2')
    /\ Pusher.execute cfg f3 cb2 w3 = (Throw e3, cb3, w3')
    /\ Pusher.state cb1 = Pusher.CLOSED
    /\ Pusher.state cb2 = Pusher.CLOSED
    /\ Pusher.state cb3 = Pusher.OPEN
    /\ Pusher.lastFailureTime cb3 = clock w3'
    /\ (forall (fn : Async T) (w : World),
          clock w - clock w3' < Pusher.resetTimeoutMs cfg ->
          Pusher.execute cfg fn cb3 w
          = (Throw (Err (Failure "Circuit breaker is OPEN - refusing request")),
             cb3, w))
    /\ (forall (fn : Async T) (w w' : World) (v : T),
          Pusher.resetTimeoutMs cfg <= clock w - clock w3' ->
          fn w = (Ok v, w') ->
          (exists cbh, Pusher.guard cfg (clock w) cb3 = (Ok tt, cbh)
                       /\ Pusher.state cbh = Pusher.HALF_OPEN)
          /\ exists cb4, Pusher.execute cfg fn cb3 w = (Ok v, cb4, w')
                         /\ Pusher.state cb4 = Pusher.CLOSED
                         /\ Pusher.failureCount cb4 = 0).
Proof.
  intros Hth Hmax Hs0 Hc0 H1 H2 H3.
  pose (cb1 := Pusher.mkBreaker Pusher.CLOSED 1 (clock w1') (Pusher.halfOpenAttempts cb0)).
  pose (cb2 := Pusher.mkBreaker Pusher.CLOSED 2 (clock w2') (Pusher.halfOpenAttempts cb0)).
  exists cb1, cb2.
  exists (Pusher.mkBreaker Pusher.OPEN 3 (clock w3') (Pusher.halfOpenAttempts cb0)).
  split; [|split; [|split]].
  - rewrite (execute_closed_failure cfg T f1 cb0 w1 w1' e1 Hs0 H1).
    unfold Pusher.onFailure. cbn [Pusher.failureCount]. rewrite Hc0, Hth, Hs0.
    reflexivity.
  - rewrite (execute_closed_failure cfg T f2 cb1 w2 w2' e2 eq_refl H2).
    unfold Pusher.onFailure. cbn [Pusher.failureCount cb1]. rewrite Hth. reflexivity.
  - rewrite (execute_closed_failure cfg T f3 cb2 w3 w3' e3 eq_refl H3).
    unfold Pusher.onFailure. cbn [Pusher.failureCount cb2]. rewrite Hth. reflexivity.
  - repeat (split; [reflexivity|]). split.
    + intros fn w Ht. apply execute_open_refuses; [reflexivity|exact Ht].
    + intros fn w w' v Ht Hf.
      pose proof (guard_open_elapsed cfg
                    (Pusher.mkBreaker Pusher.OPEN 3 (clock w3')
                       (Pusher.halfOpenAttempts cb0))
                    (clock w) eq_refl Ht Hmax) as Hadm.
      split.
      * eexists. split; [exact Hadm|reflexivity].
      * unfold Pusher.execute. rewrite Hadm, Hf.
        eexists. split; [reflexivity|]. split; reflexivity.
Qed.

Lemma circuit_breaker_opens_and_recovers_witness :
  Pusher.failureThreshold Pusher.breakerConfig = 3
  /\ Pusher.execute Pusher.breakerConfig (ret 7) openedBreaker
       (mkWorld (clock startWorld + 5 * 60 * 1000) [])
     = (Ok 7, Pusher.mkBreaker Pusher.CLOSED 0 (clock startWorld) 1,
        mkWorld (clock startWorld + 5 * 60 * 1000) [])
  /\ exists cb1 cb2 cb3,
    Pusher.execute Pusher.breakerConfig failing Pusher.newCircuitBreaker startWorld
    = (Throw (Err (Failure "RPC down")), cb1, startWorld)
    /\ Pusher.execute Pusher.breakerConfig failing cb1 startWorld
       = (Throw (Err (Failure "RPC down")), cb2, startWorld)
    /\ Pusher.execute Pusher.breakerConfig failing cb2 startWorld
       = (Throw (Err (Failure "RPC down")), cb3, startWorld)
    /\ Pusher.state cb1 = Pusher.CLOSED
    /\ Pusher.state cb2 = Pusher.CLOSED
    /\ Pusher.state cb3 = Pusher.OPEN
    /\ Pusher.lastFailureTime cb3 = clock startWorld
    /\ (forall (fn : Async Z) (w : World),
          clock w - clock startWorld < Pusher.resetTimeoutMs Pusher.breakerConfig ->
          Pusher.execute Pusher.breakerConfig fn cb3 w
          = (Throw (Err (Failure "Circuit breaker is OPEN - refusing request")),
             cb3, w))
    /\ (forall (fn : Async Z) (w w' : World) (v : Z),
          Pusher.resetTimeoutMs Pusher.breakerConfig <= clock w - clock startWorld ->
          fn w = (Ok v, w') ->
          (exists cbh, Pusher.guard Pusher.breakerConfig (clock w) cb3 = (Ok tt, cbh)
                       /\ Pusher.state cbh = Pusher.HALF_OPEN)
          /\ exists cb4, Pusher.execute Pusher.breakerConfig fn cb3 w = (Ok v, cb4, w')
                         /\ Pusher.state cb4 = Pusher.CLOSED
                         /\ Pusher.failureCount cb4 = 0).
Proof.
  split; [reflexivity|]. split; [reflexivity|].
  apply (circuit_breaker_opens_and_recovers Z Pusher.breakerConfig
           Pusher.newCircuitBreaker failing failing failing
           startWorld startWorld startWorld startWorld startWorld startWorld
           (Err (Failure "RPC down")) (Err (Failure "RPC down"))
           (Err (Failure "RPC down")));
    try reflexivity.
  simpl. lia.
Defined.

(** ** Gas price cap *)

Section GasCap.

Import Pusher.

Variable env : Env.
Variable cfg : PushConfig.
Variable rates : list RateData.

(** [estimateGas] always returns, after exactly one call to the chain. *)
Lemma estimateGas_run (w : World) :
  exists g, estimateGas env cfg rates w = (Ok g, afterEstimate env rates w).
Proof.
  unfold estimateGas, try_catch, bind, external, afterEstimate.
  destruct (estimateGasCall env (sourceIdsOf rates) (newRatesOf rates) w) as [e|m];
    cbn iota beta.
  - destruct (d_mul (ofZ e) (multiplierOf cfg)); eexists; reflexivity.
  - eexists; reflexivity.
Qed.

(** What follows the estimate in one attempt only adds to the trace. *)
Lemma submitOnce_starts (w : World) :
  grows (afterEstimate env rates w) (snd (submitOnce env cfg rates w)).
Proof.
  unfold submitOnce. unfold bind at 1.
  destruct (estimateGas_run w) as (g & ->).
  match goal with |- grows ?x (snd (?c ?x)) => cut (growing c); [intros H; apply H|] end.
  apply growing_bind; [apply growing_external|intros feeData].
  cbv zeta. destruct (gasPriceTooHigh cfg _); [apply growing_throw|].
  apply growing_bind; [apply growing_external|intros hash].
  apply growing_bind; [apply growing_external|intros [r|]].
  - destruct (negb (status r =? 1)); [apply growing_throw|apply growing_ret].
  - apply growing_throw.
Qed.

(** One attempt that reads a gas price above the cap raises before it
    submits anything. *)
Lemma submitOnce_above_cap (cap p : Z) (w : World) :
  maxGasPrice cfg = Some cap ->
  cap <> 0 ->
  getFeeData env (afterEstimate env rates w) = Answered (Some p) ->
  cap < p ->
  submitOnce env cfg rates w
  = (Throw (Err (GasPriceTooHigh p cap)), afterFeeCheck env rates w).
Proof.
  intros Hcap Hnz Hfee Hlt.
  unfold submitOnce. unfold bind at 1.
  destruct (estimateGas_run w) as (g & ->).
  unfold bind, external. rewrite Hfee. cbn iota beta.
  unfold gasPriceTooHigh, throw. rewrite Hcap.
  destruct (Z.eqb_spec cap 0); [contradiction|].
  destruct (Z.gtb_spec p cap); [|lia].
  reflexivity.
Qed.

(** One attempt that reads a gas price it accepts submits the
    transaction. *)
Lemma submitOnce_within_cap (fee : option Z) (w : World) :
  getFeeData env (afterEstimate env rates w) = Answered fee ->
  gasPriceTooHigh cfg (match fee with Some q => q | None => 0 end) = false ->
  exists g,
    In (EvBatchUpdateRates (sourceIdsOf rates) (newRatesOf rates) g)
       (trace (snd (submitOnce env cfg rates w))).
Proof.
  intros Hfee Hok.
  unfold submitOnce. unfold bind at 1.
  destruct (estimateGas_run w) as (g & ->). exists g.
  unfold bind at 1. unfold external at 1. rewrite Hfee. cbn iota beta.
  rewrite Hok.
  unfold bind, external, throw, ret.
  match goal with |- context [batchUpdateRates env ?a ?b ?c ?x] =>
    destruct (batchUpdateRates env a b c x) as [hash|m] end;
    cbn iota beta;
    try match goal with |- context [wait env ?h ?x] =>
          destruct (wait env h x) as [[r|]|m'] end;
    cbn iota beta;
    try match goal with |- context [negb (status ?r =? 1)] =>
          destruct (negb (status r =? 1)) end;
    cbn [snd trace]; simpl; auto.
Qed.

(** Where the first invocation leaves the world, the retry loop goes on
    from. *)
Lemma retryLoop_grows_from_first (T : Type) (fn : Async T) (config : RetryConfig)
  (k : nat) (attempt : Z) (lastError : Thrown) (w : World) :
  growing fn ->
  grows (snd (fn w)) (snd (retryLoop fn config (S k) attempt lastError w)).
Proof.
  intros Hfn. cbn [retryLoop].
  destruct (fn w) as [[v|e] w1]; cbn [snd]; [apply grows_refl|].
  destruct (attempt <? maxRetries config); [destruct e as [|e]|].
  - apply grows_refl.
  - eapply grows_trans; [apply grows_sleep|apply growing_retryLoop, Hfn].
  - apply growing_retryLoop, Hfn.
Qed.

(** The checks of the breaker leave the count of failures as it is. *)
Lemma guard_keeps_count (config : CircuitBreakerConfig) (dateNow : Z)
  (cb cb1 : CircuitBreaker) (o : Outcome unit) :
  guard config dateNow cb = (o, cb1) -> failureCount cb1 = failureCount cb.
Proof.
  unfold guard, checkOpen, checkHalfOpen.
  destruct cb as [st c l h]. cbn [state failureCount lastFailureTime halfOpenAttempts].
  destruct st; cbn [state failureCount lastFailureTime halfOpenAttempts];
    repeat match goal with
           | |- context [if ?c then _ else _] => destruct c
           end;
    cbn [state failureCount lastFailureTime halfOpenAttempts];
    intros H; inversion H; reflexivity.
Qed.

End GasCap.

(** C5 (amended): in a push that the breaker lets through, an attempt that
    reads a gas price above the configured cap (a cap other than zero)
    raises the gas-price error before anything is submitted, and
    [withRetry] retries that error like any other: after a wait of 2000 ms
    a second attempt estimates the gas limit again; when the price read by
    the second attempt is within the cap, the transaction is submitted in
    the same call.  When the price is above the cap at every reading, the
    push reads it 3 times, waiting 2000 ms and then 4000 ms, submits
    nothing and ends with the gas-price error, which the breaker counts as
    one failure. *)
Theorem gas_cap_rejection_is_retried
  (env : Env) (rates : list RateData) (pusher : Pusher.RatePusher) (w : World)
  (cap p : Z) (cb1 : Pusher.CircuitBreaker) :
  Pusher.maxGasPrice (Pusher.config pusher) = Some cap ->
  cap <> 0 ->
  Pusher.guard Pusher.breakerConfig (clock w) (Pusher.circuitBreaker pusher)
  = (Ok tt, cb1) ->
  getFeeData env (afterEstimate env rates w) = Answered (Some p) ->
  cap < p ->
  Pusher.submitOnce env (Pusher.config pusher) rates w
  = (Throw (Err (GasPriceTooHigh p cap)), afterFeeCheck env rates w)
  /\ submissions (afterFeeCheck env rates w) = submissions w
  /\ (exists o pusher' w' added,
        Pusher.pushBatchRates env rates pusher w = (o, pusher', w')
        /\ trace w'
           = added
             ++ EvEstimateGas (Pusher.sourceIdsOf rates) (Pusher.newRatesOf rates)
             :: EvSleep 2000
             :: EvGetFeeData
             :: EvEstimateGas (Pusher.sourceIdsOf rates) (Pusher.newRatesOf rates)
             :: trace w)
  /\ (forall fee,
        getFeeData env (afterEstimate env rates (sleep 2000 (afterFeeCheck env rates w)))
        = Answered fee ->
        Pusher.gasPriceTooHigh (Pusher.config pusher)
          (match fee with Some q => q | None => 0 end) = false ->
        exists g,
          In (EvBatchUpdateRates (Pusher.sourceIdsOf rates) (Pusher.newRatesOf rates) g)
             (trace (snd (Pusher.pushBatchRates env rates pusher w))))
  /\ ((forall w0, exists p0, getFeeData env w0 = Answered (Some p0) /\ cap < p0) ->
      exists p3 pusher' w',
        Pusher.pushBatchRates env rates pusher w
        = (Throw (Err (GasPriceTooHigh p3 cap)), pusher', w')
        /\ cap < p3
        /\ trace w'
           = EvGetFeeData
             :: EvEstimateGas (Pusher.sourceIdsOf rates) (Pusher.newRatesOf rates)
             :: EvSleep 4000
             :: EvGetFeeData
             :: EvEstimateGas (Pusher.sourceIdsOf rates) (Pusher.newRatesOf rates)
             :: EvSleep 2000
             :: EvGetFeeData
             :: EvEstimateGas (Pusher.sourceIdsOf rates) (Pusher.newRatesOf rates)
             :: trace w
        /\ feeChecks w' = (feeChecks w + 3)%nat
        /\ submissions w' = submissions w
        /\ Pusher.failureCount (Pusher.circuitBreaker pusher')
           = Pusher.failureCount (Pusher.circuitBreaker pusher) + 1).
Proof.
  intros Hcap Hnz Hguard Hfee Hlt.
  pose proof (submitOnce_above_cap env (Pusher.config pusher) rates cap p w
                Hcap Hnz Hfee Hlt) as H1.
  set (fn := Pusher.submitOnce env (Pusher.config pusher) rates) in *.
  set (w1 := afterFeeCheck env rates w) in *.
  set (w2 := sleep 2000 w1).
  assert (Hfn : growing fn) by apply growing_submitOnce.
  (* the push is the rest of the loop, run from the second attempt on *)
  assert (Hloop : Pusher.withRetry fn Pusher.DEFAULT_RETRY_CONFIG w
                  = Pusher.retryLoop fn Pusher.DEFAULT_RETRY_CONFIG 2 2
                      (Err (GasPriceTooHigh p cap)) w2).
  { unfold Pusher.withRetry.
    change (Z.to_nat (Pusher.maxRetries Pusher.DEFAULT_RETRY_CONFIG)) with 3%nat.
    cbn [Pusher.retryLoop]. rewrite H1. reflexivity. }
  assert (Hpush : Pusher.pushBatchRates env rates pusher w
                  = match Pusher.retryLoop fn Pusher.DEFAULT_RETRY_CONFIG 2 2
                            (Err (GasPriceTooHigh p cap)) w2 with
                    | (Ok result, w') =>
                        (Ok result,
                         Pusher.mkPusher (Pusher.config pusher) (Pusher.onSuccess cb1), w')
                    | (Throw error, w') =>
                        (Throw error,
                         Pusher.mkPusher (Pusher.config pusher)
                           (Pusher.onFailure Pusher.breakerConfig (clock w') cb1), w')
                    end).
  { unfold Pusher.pushBatchRates, Pusher.execute. rewrite Hguard. fold fn.
    rewrite Hloop.
    destruct (Pusher.retryLoop fn Pusher.DEFAULT_RETRY_CONFIG 2 2 _ w2)
      as [[r|e] w']; reflexivity. }
  assert (Hend : snd (Pusher.pushBatchRates env rates pusher w)
                 = snd (Pusher.retryLoop fn Pusher.DEFAULT_RETRY_CONFIG 2 2
                          (Err (GasPriceTooHigh p cap)) w2)).
  { rewrite Hpush.
    destruct (Pusher.retryLoop fn Pusher.DEFAULT_RETRY_CONFIG 2 2 _ w2)
      as [[r|e] w']; reflexivity. }
  split; [exact H1|]. split; [reflexivity|]. split; [|split].
  - pose proof (retryLoop_grows_from_first Receipt fn Pusher.DEFAULT_RETRY_CONFIG
                  1 2 (Err (GasPriceTooHigh p cap)) w2 Hfn) as Hg.
    pose proof (submitOnce_starts env (Pusher.config pusher) rates w2) as Hs.
    fold fn in Hs.
    destruct (grows_trans _ _ _ Hs Hg) as (added & Hadded).
    rewrite <- Hend in Hadded.
    destruct (Pusher.pushBatchRates env rates pusher w) as [[o pusher'] w'].
    exists o, pusher', w', added. split; [reflexivity|]. exact Hadded.
  - intros fee Hfee2 Hok.
    destruct (submitOnce_within_cap env (Pusher.config pusher) rates fee w2 Hfee2 Hok)
      as (g & Hin).
    exists g. rewrite Hend.
    apply retryLoop_keeps_first; [exact Hfn|exact Hin].
  - intros Hhigh. rewrite Hpush.
    destruct (Hhigh (afterEstimate env rates w2)) as (p2 & Hfee2 & Hlt2).
    pose proof (submitOnce_above_cap env (Pusher.config pusher) rates cap p2 w2
                  Hcap Hnz Hfee2 Hlt2) as H2.
    set (w3 := sleep 4000 (afterFeeCheck env rates w2)).
    destruct (Hhigh (afterEstimate env rates w3)) as (p3 & Hfee3 & Hlt3).
    pose proof (submitOnce_above_cap env (Pusher.config pusher) rates cap p3 w3
                  Hcap Hnz Hfee3 Hlt3) as H3.
    fold fn in H2, H3.
    cbn [Pusher.retryLoop]. rewrite H2.
    change (2 <? Pusher.maxRetries Pusher.DEFAULT_RETRY_CONFIG) with true.
    cbn iota.
    change (sleep (Pusher.retryDelay Pusher.DEFAULT_RETRY_CONFIG 2)
              (afterFeeCheck env rates w2)) with w3.
    rewrite H3.
    change (2 + 1 <? Pusher.maxRetries Pusher.DEFAULT_RETRY_CONFIG) with false.
    cbn iota. unfold throw.
    exists p3. do 2 eexists. split; [reflexivity|]. split; [exact Hlt3|].
    split; [reflexivity|]. split; [|split].
    + unfold feeChecks. simpl. lia.
    + reflexivity.
    + cbn [Pusher.circuitBreaker]. unfold Pusher.onFailure.
      cbn [Pusher.failureCount].
      rewrite (guard_keeps_count _ _ _ _ _ Hguard).
      destruct (_ >=? _); reflexivity.
Qed.

Lemma gas_cap_rejection_is_retried_witness :
  Pusher.pushBatchRates (chainEnv (fun _ => 100)) scenario cappedPusher startWorld
  = (Throw (Err (GasPriceTooHigh 100 50)),
     Pusher.mkPusher (Pusher.config cappedPusher)
       (Pusher.mkBreaker Pusher.CLOSED 1 1700000006030 0),
     mkWorld 1700000006030
       [ EvGetFeeData; EvEstimateGas [0; 1; 2; 3; 4] [350; 450; 460; 550; 500];
         EvSleep 4000;
         EvGetFeeData; EvEstimateGas [0; 1; 2; 3; 4] [350; 450; 460; 550; 500];
         EvSleep 2000;
         EvGetFeeData; EvEstimateGas [0; 1; 2; 3; 4] [350; 450; 460; 550; 500] ])
  /\ Pusher.submitOnce (chainEnv (fun _ => 100)) (Pusher.config cappedPusher)
       scenario startWorld
     = (Throw (Err (GasPriceTooHigh 100 50)),
        mkWorld 1700000000010
          [ EvGetFeeData; EvEstimateGas [0; 1; 2; 3; 4] [350; 450; 460; 550; 500] ])
  /\ (exists p3 pusher' w',
        Pusher.pushBatchRates (chainEnv (fun _ => 100)) scenario cappedPusher startWorld
        = (Throw (Err (GasPriceTooHigh p3 50)), pusher', w')
        /\ 50 < p3
        /\ trace w'
           = EvGetFeeData
             :: EvEstimateGas (Pusher.sourceIdsOf scenario) (Pusher.newRatesOf scenario)
             :: EvSleep 4000
             :: EvGetFeeData
             :: EvEstimateGas (Pusher.sourceIdsOf scenario) (Pusher.newRatesOf scenario)
             :: EvSleep 2000
             :: EvGetFeeData
             :: EvEstimateGas (Pusher.sourceIdsOf scenario) (Pusher.newRatesOf scenario)
             :: trace startWorld
        /\ feeChecks w' = (feeChecks startWorld + 3)%nat
        /\ submissions w' = submissions startWorld
        /\ Pusher.failureCount (Pusher.circuitBreaker pusher')
           = Pusher.failureCount (Pusher.circuitBreaker cappedPusher) + 1)
  /\ (exists g,
        In (EvBatchUpdateRates (Pusher.sourceIdsOf scenario)
              (Pusher.newRatesOf scenario) g)
           (trace (snd (Pusher.pushBatchRates spikeEnv scenario cappedPusher
                          startWorld)))).
Proof.
  split; [reflexivity|].
  destruct (gas_cap_rejection_is_retried (chainEnv (fun _ => 100)) scenario
              cappedPusher startWorld 50 100 Pusher.newCircuitBreaker)
    as (Hattempt & _ & _ & _ & Hall);
    [reflexivity|discriminate|reflexivity|reflexivity|lia|].
  destruct (gas_cap_rejection_is_retried spikeEnv scenario
              cappedPusher startWorld 50 100 Pusher.newCircuitBreaker)
    as (_ & _ & _ & Hsecond & _);
    [reflexivity|discriminate|reflexivity|reflexivity|lia|].
  split; [exact Hattempt|]. split.
  - apply Hall. intros w0. exists 100. split; [reflexivity|lia].
  - apply (Hsecond (Some 10)); reflexivity.
Defined.

(** C5, as stated, fails: with a cap of 50 and a gas price of 100 at the
    first reading, the rejection is retried after 2000 ms; the second
    reading is 10, the transaction is submitted and the push succeeds.  And
    when the price stays at 100, the price is read three times before the
    push gives up. *)
Lemma gas_cap_rejection_not_final :
  getFeeData spikeEnv startWorld = Answered (Some 100)
  /\ Pusher.gasPriceTooHigh (Pusher.config cappedPusher) 100 = true
  /\ Pusher.pushBatchRates spikeEnv scenario cappedPusher startWorld
     = (Ok (mkReceipt "0xabc" 1 77 90000), cappedPusher,
        mkWorld 1700000002030
          [ EvWait "0xabc";
            EvBatchUpdateRates [0; 1; 2; 3; 4] [350; 450; 460; 550; 500] 120000;
            EvGetFeeData; EvEstimateGas [0; 1; 2; 3; 4] [350; 450; 460; 550; 500];
            EvSleep 2000;
            EvGetFeeData; EvEstimateGas [0; 1; 2; 3; 4] [350; 450; 460; 550; 500] ])
  /\ ~ rejectedWithoutRetry spikeEnv scenario cappedPusher startWorld
  /\ ~ rejectedWithoutRetry (chainEnv (fun _ => 100)) scenario cappedPusher startWorld.
Proof.
  split; [reflexivity|]. split; [reflexivity|]. split; [reflexivity|]. split.
  - intros (t & p' & w' & Hrun & _).
    vm_compute in Hrun. discriminate Hrun.
  - intros (t & p' & w' & Hrun & Hn).
    vm_compute in Hrun. inversion Hrun; subst w'.
    vm_compute in Hn. discriminate Hn.
Qed.

(** ** Collectors *)

Section Collecting.

Import Collectors.

Variable env : Env.
Variable config : CollectorConfig.

Lemma httpGet_raisesOnlyErrors (u : string) : raisesOnlyErrors (httpGet env u).
Proof.
  intros w t w'. unfold httpGet, external.
  destruct (http env u w); intros H; inversion H; discriminate.
Qed.

Lemma fetchParsed_raisesOnlyErrors id label s :
  raisesOnlyErrors (fetchParsed env id label s).
Proof.
  intros w t w'. unfold fetchParsed, bind, httpGet, external, throw, now, ret.
  destruct (http env (url s) w) as [[p|]|m]; intros H; inversion H; discriminate.
Qed.

Lemma fetchApi_raisesOnlyErrors s : raisesOnlyErrors (fetchApi env s).
Proof.
  intros w t w'. unfold fetchApi, bind, httpGet, external, throw, ret.
  destruct (http env (apiUrl s) w) as [[p|]|m];
    try destruct (rejectsZero s && negb (truthyNumber (round64 p)));
    intros H; inversion H; discriminate.
Qed.

Lemma retryLoop_raisesOnlyErrors (T : Type) (fn : Async T) :
  raisesOnlyErrors fn ->
  forall turns attempt lastError,
    lastError <> ThrownNull ->
    raisesOnlyErrors (retryLoop fn config turns attempt lastError).
Proof.
  intros Hfn. induction turns as [|k IH]; intros attempt lastError Hl w t w'.
  - simpl. unfold throw. intros H. inversion H. congruence.
  - simpl. destruct (fn w) as [[v|e] w1] eqn:Hf.
    + discriminate.
    + apply IH. exact (Hfn _ _ _ Hf).
Qed.

Lemma withRetry_raisesOnlyErrors (T : Type) (fn : Async T) :
  1 <= maxRetries config ->
  raisesOnlyErrors fn ->
  raisesOnlyErrors (withRetry fn config).
Proof.
  intros Hm Hfn w t w'. unfold withRetry.
  destruct (Z.to_nat (maxRetries config)) as [|k] eqn:Hk; [lia|].
  simpl. destruct (fn w) as [[v|e] w1] eqn:Hf.
  - discriminate.
  - apply retryLoop_raisesOnlyErrors; trivial. exact (Hfn _ _ _ Hf).
Qed.

Lemma retryLoop_alwaysFails (T : Type) (fn : Async T) :
  alwaysFails fn ->
  forall turns attempt e0, alwaysFails (retryLoop fn config turns attempt (Err e0)).
Proof.
  intros Hfn. induction turns as [|k IH]; intros attempt e0 w.
  - simpl. unfold throw. eauto.
  - simpl. destruct (Hfn w) as (e & w1 & Hf). rewrite Hf. apply IH.
Qed.

Lemma withRetry_alwaysFails (T : Type) (fn : Async T) :
  1 <= maxRetries config ->
  alwaysFails fn ->
  alwaysFails (withRetry fn config).
Proof.
  intros Hm Hfn w. unfold withRetry.
  destruct (Z.to_nat (maxRetries config)) as [|k] eqn:Hk; [lia|].
  simpl. destruct (Hfn w) as (e & w1 & Hf). rewrite Hf.
  apply retryLoop_alwaysFails; trivial.
Qed.

(** With no attempt allowed the loop does not run and [withRetry] raises
    [null]. *)
Lemma withRetry_no_attempt (T : Type) (fn : Async T) (w : World) :
  maxRetries config <= 0 ->
  withRetry fn config w = (Throw ThrownNull, w).
Proof.
  intros Hm. unfold withRetry.
  destruct (Z.to_nat (maxRetries config)) eqn:Hk; [reflexivity|lia].
Qed.

Lemma retryLoop_returnsOnly (T : Type) (P : T -> Prop) (fn : Async T) :
  returnsOnly P fn ->
  forall turns attempt lastError,
    returnsOnly P (retryLoop fn config turns attempt lastError).
Proof.
  intros Hfn. induction turns as [|k IH]; intros attempt lastError w a w'.
  - simpl. unfold throw. discriminate.
  - simpl. destruct (fn w) as [[v|e] w1] eqn:Hf.
    + intros H. inversion H; subst. exact (Hfn _ _ _ Hf).
    + apply IH.
Qed.

Lemma trySources_alwaysReturns (A : Type) (attempts : list (Async A))
  (fallback : Async A) :
  Forall raisesOnlyErrors attempts ->
  alwaysReturns fallback ->
  alwaysReturns (trySources attempts fallback).
Proof.
  intros Hall Hfb. induction Hall as [|c cs Hc _ IH]; intros w; simpl.
  - apply Hfb.
  - destruct (c w) as [[v|[|e]] w1] eqn:Hcw.
    + eauto.
    + exfalso. exact (Hc _ _ _ Hcw eq_refl).
    + apply IH.
Qed.

Lemma trySources_returnsOnly (A : Type) (P : A -> Prop)
  (attempts : list (Async A)) (fallback : Async A) :
  Forall (returnsOnly P) attempts ->
  returnsOnly P fallback ->
  returnsOnly P (trySources attempts fallback).
Proof.
  intros Hall Hfb. induction Hall as [|c cs Hc _ IH]; intros w a w'; simpl.
  - apply Hfb.
  - destruct (c w) as [[v|[|e]] w1] eqn:Hcw.
    + intros H. inversion H; subst. exact (Hc _ _ _ Hcw).
    + discriminate.
    + apply IH.
Qed.

(** When every source fails, the collector ends in its fallback. *)
Lemma trySources_fallback (A : Type) (attempts : list (Async A))
  (fallback : Async A) :
  Forall alwaysFails attempts ->
  forall w, exists w1, trySources attempts fallback w = fallback w1.
Proof.
  intros Hall. induction Hall as [|c cs Hc _ IH]; intros w; simpl.
  - eauto.
  - destruct (Hc w) as (e & w1 & Hcw). rewrite Hcw. apply IH.
Qed.

Lemma fallbackObservation_run id label bps (w : World) :
  fallbackObservation id label bps w
  = (Ok (mkRate id label bps (clock w) "Fallback" false), w).
Proof. reflexivity. Qed.

Lemma fetchParsed_alwaysFails id label s :
  allEndpointsFail env -> alwaysFails (fetchParsed env id label s).
Proof.
  intros Hdown w. specialize (Hdown (url s) w).
  unfold fetchParsed, bind, httpGet, external, throw.
  destruct (http env (url s) w) as [[p|]|m]; [contradiction| |]; eauto.
Qed.

Lemma fetchApi_alwaysFails s :
  allEndpointsFail env -> alwaysFails (fetchApi env s).
Proof.
  intros Hdown w. specialize (Hdown (apiUrl s) w).
  unfold fetchApi, bind, httpGet, external, throw.
  destruct (http env (apiUrl s) w) as [[p|]|m]; [contradiction| |]; eauto.
Qed.

End Collecting.

Section CollectorShapes.

Import Collectors.

Variable env : Env.
Variable config : CollectorConfig.
Hypothesis Hattempts : 1 <= maxRetries config.

Variable id : RateSourceId.
Variable label : string.
Variable bps : Z.

Lemma fallbackObservation_alwaysReturns :
  alwaysReturns (fallbackObservation id label bps).
Proof. intros w. rewrite fallbackObservation_run. eauto. Qed.

Lemma fallbackObservation_sourceId :
  returnsOnly (fun r => sourceId r = id) (fallbackObservation id label bps).
Proof.
  intros w a w'. rewrite fallbackObservation_run. intros H.
  inversion H. reflexivity.
Qed.

Lemma parsedAttempt_raisesOnlyErrors (s : ParsedSource) :
  raisesOnlyErrors (parsedAttempt env config id label s).
Proof.
  apply withRetry_raisesOnlyErrors; trivial.
  apply fetchParsed_raisesOnlyErrors.
Qed.

Lemma parsedAttempt_sourceId (s : ParsedSource) :
  returnsOnly (fun r => sourceId r = id) (parsedAttempt env config id label s).
Proof.
  apply retryLoop_returnsOnly.
  intros w a w'. unfold fetchParsed, bind, httpGet, external, throw, now, ret.
  destruct (http env (url s) w) as [[p|]|m]; intros H; inversion H.
  reflexivity.
Qed.

Lemma parsedAttempt_alwaysFails (s : ParsedSource) :
  allEndpointsFail env -> alwaysFails (parsedAttempt env config id label s).
Proof.
  intros Hdown. apply withRetry_alwaysFails; trivial.
  now apply fetchParsed_alwaysFails.
Qed.

Lemma collectParsed_returns (sources : list ParsedSource) :
  alwaysReturns (collectParsed env config id label sources bps)
  /\ returnsOnly (fun r => sourceId r = id)
       (collectParsed env config id label sources bps).
Proof.
  unfold collectParsed. split.
  - apply trySources_alwaysReturns; [|apply fallbackObservation_alwaysReturns].
    apply Forall_map, Forall_forall. intros s _.
    apply parsedAttempt_raisesOnlyErrors.
  - apply trySources_returnsOnly; [|apply fallbackObservation_sourceId].
    apply Forall_map, Forall_forall. intros s _.
    apply parsedAttempt_sourceId.
Qed.

Lemma collectParsed_fallback (sources : list ParsedSource) (w : World) :
  allEndpointsFail env ->
  exists w',
    collectParsed env config id label sources bps w
    = (Ok (mkRate id label bps (clock w') "Fallback" false), w').
Proof.
  intros Hdown. unfold collectParsed.
  destruct (trySources_fallback _
              (map (parsedAttempt env config id label) sources)
              (fallbackObservation id label bps)) with (w := w) as (w1 & Hw1).
  - apply Forall_map, Forall_forall. intros s _.
    now apply parsedAttempt_alwaysFails.
  - exists w1. rewrite Hw1. apply fallbackObservation_run.
Qed.

Variable origin : string.

Lemma apiAttempt_raisesOnlyErrors (s : ApiSource) :
  raisesOnlyErrors (apiAttempt env config id label origin s).
Proof.
  intros w t w'. unfold apiAttempt, bind.
  destruct (withRetry (fetchApi env s) config w) as [[v|e] w1] eqn:Hr.
  - unfold now, ret. discriminate.
  - intros H. inversion H; subst.
    eapply withRetry_raisesOnlyErrors; eauto.
    apply fetchApi_raisesOnlyErrors.
Qed.

Lemma apiAttempt_sourceId (s : ApiSource) :
  returnsOnly (fun r => sourceId r = id) (apiAttempt env config id label origin s).
Proof.
  intros w a w'. unfold apiAttempt, bind.
  destruct (withRetry (fetchApi env s) config w) as [[v|e] w1].
  - unfold now, ret. intros H. inversion H. reflexivity.
  - discriminate.
Qed.

Lemma apiAttempt_alwaysFails (s : ApiSource) :
  allEndpointsFail env -> alwaysFails (apiAttempt env config id label origin s).
Proof.
  intros Hdown w. unfold apiAttempt, bind.
  destruct (withRetry_alwaysFails config _ (fetchApi env s) Hattempts
              (fetchApi_alwaysFails env s Hdown) w) as (e & w1 & Hr).
  rewrite Hr. eauto.
Qed.

Lemma collectApi_returns (sources : list ApiSource) :
  alwaysReturns (collectApi env config id label origin sources bps)
  /\ returnsOnly (fun r => sourceId r = id)
       (collectApi env config id label origin sources bps).
Proof.
  unfold collectApi. split.
  - apply trySources_alwaysReturns; [|apply fallbackObservation_alwaysReturns].
    apply Forall_map, Forall_forall. intros s _.
    apply apiAttempt_raisesOnlyErrors.
  - apply trySources_returnsOnly; [|apply fallbackObservation_sourceId].
    apply Forall_map, Forall_forall. intros s _.
    apply apiAttempt_sourceId.
Qed.

Lemma collectApi_fallback (sources : list ApiSource) (w : World) :
  allEndpointsFail env ->
  exists w',
    collectApi env config id label origin sources bps w
    = (Ok (mkRate id label bps (clock w') "Fallback" false), w').
Proof.
  intros Hdown. unfold collectApi.
  destruct (trySources_fallback _
              (map (apiAttempt env config id label origin) sources)
              (fallbackObservation id label bps)) with (w := w) as (w1 & Hw1).
  - apply Forall_map, Forall_forall. intros s _.
    now apply apiAttempt_alwaysFails.
  - exists w1. rewrite Hw1. apply fallbackObservation_run.
Qed.

End CollectorShapes.




(** With no attempt configured, [withRetry] raises [null] and the [catch]
    block of the collector, which reads its [message], raises in turn. *)
Lemma collector_without_attempts_raises (env : Env) (w : World) :
  Collectors.collectTESR env (Collectors.mkCollectorConfig 0 1000 15000) w
  = (Throw (Err (TypeError "Cannot read properties of null (reading 'message')")),
     w).
Proof. reflexivity. Qed.

(** * Further properties *)

(** ** Aggregation, continued *)

Section AggregationMore.

Lemma sum_perm (l l' : list Z) :
  Permutation l l' -> fold_right Z.add 0 l = fold_right Z.add 0 l'.
Proof. induction 1; simpl; lia. Qed.

Lemma weightedSum_perm (rates rates' : list RateData) :
  Permutation rates rates' -> weightedSum rates = weightedSum rates'.
Proof.
  intros H. rewrite !weightedSum_present. unfold presentWeightedSum.
  apply sum_perm, Permutation_map, H.
Qed.

Lemma totalWeight_perm (rates rates' : list RateData) :
  Permutation rates rates' -> totalWeight rates = totalWeight rates'.
Proof.
  intros H. rewrite !totalWeight_sum.
  apply sum_perm, Permutation_map, Permutation_map, H.
Qed.

Lemma basic_calculateDOR_unfold (rates : list RateData) :
  CollectorsBasic.calculateDOR rates
  = Math_round (js_div (weightedSum rates) (totalWeight rates)).
Proof.
  unfold CollectorsBasic.calculateDOR, totalWeight, weightedSum.
  destruct (fold_left accumulate rates (0, 0)); reflexivity.
Qed.

Lemma totalWeight_notLower (rates rates' : list RateData) :
  Forall2 notLower rates rates' ->
  totalWeight rates = totalWeight rates'
  /\ weightedSum rates <= weightedSum rates'.
Proof.
  intros H. rewrite !totalWeight_sum, !weightedSum_present.
  unfold presentWeightedSum.
  induction H as [|a b l l' [Hid Hle] _ [IHw IHs]]; simpl; [lia|].
  rewrite Hid. pose proof (weights_pos (sourceId b)). split; nia.
Qed.

Lemma shiftRates_sums (c : Z) (rates : list RateData) :
  totalWeight (shiftRates c rates) = totalWeight rates
  /\ weightedSum (shiftRates c rates) = weightedSum rates + c * totalWeight rates.
Proof.
  rewrite !totalWeight_sum, !weightedSum_present.
  unfold presentWeightedSum, shiftRates.
  induction rates as [|r rest [IHw IHs]]; simpl; [lia|].
  split; [lia|]. rewrite IHs. lia.
Qed.

Lemma exact_order_irrelevant (rates rates' : list RateData) :
  Permutation rates rates' ->
  Collectors.calculateDOR rates = Collectors.calculateDOR rates'
  /\ CollectorsBasic.calculateDOR rates = CollectorsBasic.calculateDOR rates'.
Proof.
  intros H.
  rewrite !calculateDOR_unfold, !basic_calculateDOR_unfold.
  rewrite (weightedSum_perm _ _ H), (totalWeight_perm _ _ H). split; reflexivity.
Qed.

Lemma exact_monotone (rates rates' : list RateData) :
  Forall2 notLower rates rates' ->
  exists d d',
    Collectors.calculateDOR rates = Finite d
    /\ Collectors.calculateDOR rates' = Finite d'
    /\ d <= d'.
Proof.
  intros H. destruct (totalWeight_notLower _ _ H) as [Hw Hs].
  destruct H as [|a b l l' Hab Hrest].
  - exists 460, 460. repeat split; lia.
  - rewrite !calculateDOR_nonempty by discriminate.
    do 2 eexists. split; [reflexivity|]. split; [reflexivity|].
    pose proof (totalWeight_pos (a :: l)) as Hp.
    assert (0 < totalWeight (a :: l)) by (apply Hp; discriminate).
    rewrite <- Hw. apply Z.div_le_mono; lia.
Qed.

Lemma exact_bounded_by_rates (rates : list RateData) :
  rates <> [] ->
  exists d,
    Collectors.calculateDOR rates = Finite d
    /\ minRate rates <= d <= maxRate rates
    /\ forall r, Forall (fun x => rate x = r) rates -> d = r.
Proof.
  intros Hne.
  destruct (calculateDOR_between (minRate rates) (maxRate rates) rates Hne
              (rates_between_min_max rates)) as (d & Hd & Hb).
  exists d. split; [exact Hd|]. split; [exact Hb|].
  intros r Hall.
  destruct (calculateDOR_between r r rates Hne) as (d' & Hd' & Hb').
  - eapply Forall_impl; [|exact Hall]. simpl. intros; lia.
  - rewrite Hd in Hd'. inversion Hd'. lia.
Qed.

Lemma exact_shift (c : Z) (rates : list RateData) :
  rates <> [] ->
  exists d,
    Collectors.calculateDOR rates = Finite d
    /\ Collectors.calculateDOR (shiftRates c rates) = Finite (d + c).
Proof.
  intros Hne.
  assert (Hne' : shiftRates c rates <> []).
  { destruct rates; [congruence|discriminate]. }
  rewrite (calculateDOR_nonempty _ Hne), (calculateDOR_nonempty _ Hne').
  destruct (shiftRates_sums c rates) as [Hw Hs]. rewrite Hw, Hs.
  eexists. split; [reflexivity|]. f_equal.
  pose proof (totalWeight_pos rates Hne).
  replace (2 * (weightedSum rates + c * totalWeight rates) + totalWeight rates)
    with (2 * weightedSum rates + totalWeight rates + c * (2 * totalWeight rates))
    by lia.
  apply Z.div_add. lia.
Qed.

Lemma inDoubleRange_perm (rates rates' : list RateData) :
  Permutation rates rates' -> inDoubleRange rates -> inDoubleRange rates'.
Proof.
  intros H [Hs Hw]. split.
  - unfold absWeightedSum in *.
    rewrite <- (sum_perm _ _ (Permutation_map _ H)). exact Hs.
  - rewrite <- (totalWeight_perm _ _ H). exact Hw.
Qed.

(** Within the range, the first version too computes what exact arithmetic
    gives. *)
Lemma basic_calculateDOR_exact_in_range (rates : list RateData) :
  inDoubleRange rates ->
  DoubleBasic.calculateDOR rates = CollectorsBasic.calculateDOR rates.
Proof.
  intros Hrange. destruct rates as [|r rest]; [reflexivity|].
  pose proof (calculateDOR_exact_in_range (r :: rest) Hrange) as H.
  rewrite double_calculateDOR_unfold in H.
  assert (Hpos : 0 < totalWeight (r :: rest)) by (apply totalWeight_pos; discriminate).
  destruct Hrange as [_ Hw].
  assert (H51 : 2 ^ 51 < 2 ^ 53) by (apply Z.pow_lt_mono_r; lia).
  rewrite double_totalWeight in H by lia.
  unfold isZeroNumber, isZero in H. cbn [inject_Z Qnum] in H.
  destruct (Z.eqb_spec (totalWeight (r :: rest)) 0) as [E|_]; [lia|].
  assert (Hb : DoubleBasic.calculateDOR (r :: rest)
               = Math_round (d_div (Double.weightedSum (r :: rest))
                               (Double.totalWeight (r :: rest)))).
  { unfold DoubleBasic.calculateDOR, Double.weightedSum, Double.totalWeight.
    destruct (fold_left Double.accumulate (r :: rest) (Finite 0%Q, Finite 0%Q));
      reflexivity. }
  rewrite Hb, double_totalWeight by lia. rewrite H.
  rewrite basic_calculateDOR_unfold, calculateDOR_unfold.
  destruct (Z.eqb_spec (totalWeight (r :: rest)) 0) as [E|_]; [lia|reflexivity].
Qed.

End AggregationMore.

(** X1: as long as the sums stay below 2^51, the reference rate does not
    depend on the order of the observations; beyond that range the
    rounding of the partial sums depends on the order, and so may the
    result. *)
Theorem calculateDOR_order_irrelevant (rates rates' : list RateData) :
  Permutation rates rates' ->
  inDoubleRange rates ->
  Double.calculateDOR rates = Double.calculateDOR rates'
  /\ DoubleBasic.calculateDOR rates = DoubleBasic.calculateDOR rates'.
Proof.
  intros H Hrange.
  pose proof (inDoubleRange_perm _ _ H Hrange) as Hrange'.
  rewrite !calculateDOR_exact_in_range, !basic_calculateDOR_exact_in_range
    by assumption.
  apply exact_order_irrelevant, H.
Qed.

Lemma calculateDOR_order_irrelevant_witness :
  Permutation scenario (rev scenario)
  /\ inDoubleRange scenario
  /\ Double.calculateDOR (rev scenario) = Finite 453
  /\ (Double.calculateDOR scenario = Double.calculateDOR (rev scenario)
      /\ DoubleBasic.calculateDOR scenario
         = DoubleBasic.calculateDOR (rev scenario)).
Proof.
  assert (Hrange : inDoubleRange scenario).
  { split; vm_compute; discriminate. }
  split; [apply Permutation_rev|]. split; [exact Hrange|].
  split; [vm_compute; reflexivity|].
  apply (calculateDOR_order_irrelevant scenario (rev scenario));
    [apply Permutation_rev|exact Hrange].
Defined.

(** Beyond the range the order matters: with a rate near 2^51 in front the
    small products that follow are rounded away one by one. *)
Example calculateDOR_order_matters_beyond_the_range :
  Double.calculateDOR lopsidedRates = Finite 703687441776644
  /\ Double.calculateDOR (rev lopsidedRates) = Finite 703687441776643
  /\ Collectors.calculateDOR lopsidedRates = Finite 703687441776643.
Proof. repeat split; vm_compute; reflexivity. Qed.

(** X2: as long as the sums stay below 2^51, raising the rates of some
    sources, the others unchanged, never lowers the reference rate. *)
Theorem calculateDOR_monotone (rates rates' : list RateData) :
  Forall2 notLower rates rates' ->
  inDoubleRange rates ->
  inDoubleRange rates' ->
  exists d d',
    Double.calculateDOR rates = Finite d
    /\ Double.calculateDOR rates' = Finite d'
    /\ d <= d'.
Proof.
  intros H Hrange Hrange'.
  rewrite !calculateDOR_exact_in_range by assumption.
  apply exact_monotone, H.
Qed.

Lemma calculateDOR_monotone_witness :
  Forall2 notLower scenario (shiftRates 7 scenario)
  /\ exists d d',
       Double.calculateDOR scenario = Finite d
       /\ Double.calculateDOR (shiftRates 7 scenario) = Finite d'
       /\ d <= d'.
Proof.
  assert (H : Forall2 notLower scenario (shiftRates 7 scenario)).
  { repeat constructor; simpl; lia. }
  split; [exact H|].
  apply (calculateDOR_monotone scenario (shiftRates 7 scenario) H);
    split; vm_compute; discriminate.
Defined.

(** X3: for any non-empty list of observations, whatever sources it holds
    and however often, as long as the sums stay below 2^51 the reference
    rate lies between the smallest and the largest rate; when all
    observations carry the same rate, that rate is the result. *)
Theorem calculateDOR_bounded_by_rates (rates : list RateData) :
  rates <> [] ->
  inDoubleRange rates ->
  exists d,
    Double.calculateDOR rates = Finite d
    /\ minRate rates <= d <= maxRate rates
    /\ forall r, Forall (fun x => rate x = r) rates -> d = r.
Proof.
  intros Hne Hrange.
  rewrite calculateDOR_exact_in_range by assumption.
  apply exact_bounded_by_rates, Hne.
Qed.

Lemma calculateDOR_bounded_by_rates_witness :
  exists d,
    Double.calculateDOR threeSources = Finite d
    /\ minRate threeSources <= d <= maxRate threeSources
    /\ forall r, Forall (fun x => rate x = r) threeSources -> d = r.
Proof.
  apply (calculateDOR_bounded_by_rates threeSources); [discriminate|].
  split; vm_compute; discriminate.
Defined.

(** X4: the first [calculateDOR] and the guarded one agree on every
    non-empty list; on the empty list the first returns NaN where the
    guarded one returns 460. *)
Theorem calculateDOR_versions_agree (rates : list RateData) :
  CollectorsBasic.calculateDOR rates
  = match rates with
    | [] => NaN
    | _ :: _ => Collectors.calculateDOR rates
    end.
Proof.
  destruct rates as [|r rest]; [reflexivity|].
  rewrite calculateDOR_unfold, basic_calculateDOR_unfold.
  pose proof (totalWeight_pos (r :: rest)) as Hp.
  destruct (Z.eqb_spec (totalWeight (r :: rest)) 0) as [E|_]; [|reflexivity].
  assert (0 < totalWeight (r :: rest)) by (apply Hp; discriminate). lia.
Qed.

(** X5: moving every rate of a non-empty list by [c] basis points moves the
    reference rate by [c], as long as the sums stay below 2^51 before and
    after. *)
Theorem calculateDOR_shift (c : Z) (rates : list RateData) :
  rates <> [] ->
  inDoubleRange rates ->
  inDoubleRange (shiftRates c rates) ->
  exists d,
    Double.calculateDOR rates = Finite d
    /\ Double.calculateDOR (shiftRates c rates) = Finite (d + c).
Proof.
  intros Hne Hrange Hrange'.
  rewrite !calculateDOR_exact_in_range by assumption.
  apply exact_shift, Hne.
Qed.

Lemma calculateDOR_shift_witness :
  Double.calculateDOR (shiftRates (-53) scenario) = Finite 400
  /\ exists d,
       Double.calculateDOR scenario = Finite d
       /\ Double.calculateDOR (shiftRates (-53) scenario) = Finite (d + -53).
Proof.
  split; [vm_compute; reflexivity|].
  apply (calculateDOR_shift (-53) scenario); [discriminate| |];
    split; vm_compute; discriminate.
Defined.

(** ** Validation, continued *)

Lemma validateRates_validity (now : Z) (rates : list RateData) :
  isValid (Collectors.validateRates now rates) = true
  <-> 3 <= zlength rates /\ Forall (fun r => 0 <= rate r) rates.
Proof.
  rewrite validateRates_unfold. cbn [isValid].
  assert (Hneg : flat_map negativeError rates = []
                 <-> Forall (fun r => 0 <= rate r) rates).
  { split; [|apply no_negative_no_error].
    induction rates as [|r rest IH]; simpl; [constructor|].
    unfold negativeError at 1.
    destruct (Z.ltb_spec (rate r) 0) as [Hr|Hr]; [discriminate|].
    simpl. intros Hnil. constructor; [lia|auto]. }
  unfold zlength at 1.
  destruct (Z.ltb_spec (zlength rates) 3) as [Hlt|Hge]; simpl.
  - split; [|lia]. intros H. discriminate H.
  - rewrite <- Hneg. split.
    + intros H. apply Z.eqb_eq in H. split; [exact Hge|].
      destruct (flat_map negativeError rates); [reflexivity|simpl in H; lia].
    + intros [_ ->]. reflexivity.
Qed.

(** X6: an observation set is valid exactly when it has at least 3
    observations and no negative rate; the time of the check, the age of the
    observations, rates above 50% and fallback values play no part. *)
Theorem validateRates_valid_iff (now : Z) (rates : list RateData) :
  isValid (Collectors.validateRates now rates) = true
  <-> 3 <= zlength rates /\ Forall (fun r => 0 <= rate r) rates.
Proof. exact (validateRates_validity now rates). Qed.

(** X7: which messages [validateRates] pushes: the minimum-sources error
    exactly for fewer than 3 observations, one negative-rate error per
    negative rate, one stale warning per observation older than 24 hours at
    the time of the check and one high-rate warning per rate above 5000. *)
Theorem validateRates_messages (now : Z) (rates : list RateData) :
  (forall k, In (EMinSources k) (errors (Collectors.validateRates now rates))
             <-> k = zlength rates /\ k < 3)
  /\ (forall n x, In (ENegativeRate n x) (errors (Collectors.validateRates now rates))
                  <-> exists r, In r rates /\ name r = n /\ rate r = x /\ x < 0)
  /\ (forall n, In (WStale n) (warnings (Collectors.validateRates now rates))
                <-> exists r, In r rates /\ name r = n
                              /\ maxAge < now - timestamp r)
  /\ (forall n x, In (WHighRate n x) (warnings (Collectors.validateRates now rates))
                  <-> exists r, In r rates /\ name r = n /\ rate r = x /\ 5000 < x).
Proof.
  rewrite validateRates_unfold. cbn [errors warnings].
  assert (Hneg : forall n x, In (ENegativeRate n x) (flat_map negativeError rates)
            <-> exists r, In r rates /\ name r = n /\ rate r = x /\ x < 0).
  { intros n x. rewrite in_flat_map. split.
    - intros (r & Hr & Hin). exists r. split; trivial.
      unfold negativeError in Hin. destruct (Z.ltb_spec (rate r) 0); [|contradiction].
      destruct Hin as [Hin|[]]. inversion Hin; subst. auto.
    - intros (r & Hr & <- & <- & Hlt). exists r. split; trivial.
      unfold negativeError. destruct (Z.ltb_spec (rate r) 0); [now left|lia]. }
  assert (Hstale : forall n, In (WStale n) (flat_map (staleWarning now) rates)
            <-> exists r, In r rates /\ name r = n /\ maxAge < now - timestamp r).
  { intros n. rewrite in_flat_map. split.
    - intros (r & Hr & Hin). exists r. split; trivial.
      unfold staleWarning in Hin.
      destruct (Z.gtb_spec (now - timestamp r) maxAge); [|contradiction].
      destruct Hin as [Hin|[]]. inversion Hin; subst. auto.
    - intros (r & Hr & <- & Hlt). exists r. split; trivial.
      unfold staleWarning.
      destruct (Z.gtb_spec (now - timestamp r) maxAge); [now left|lia]. }
  assert (Hhigh : forall n x, In (WHighRate n x) (flat_map highWarning rates)
            <-> exists r, In r rates /\ name r = n /\ rate r = x /\ 5000 < x).
  { intros n x. rewrite in_flat_map. split.
    - intros (r & Hr & Hin). exists r. split; trivial.
      unfold highWarning in Hin.
      destruct (Z.gtb_spec (rate r) 5000); [|contradiction].
      destruct Hin as [Hin|[]]. inversion Hin; subst. auto.
    - intros (r & Hr & <- & <- & Hlt). exists r. split; trivial.
      unfold highWarning.
      destruct (Z.gtb_spec (rate r) 5000); [now left|lia]. }
  assert (Hsh : forall n, ~ In (WStale n) (flat_map highWarning rates)).
  { intros n H. apply in_flat_map in H. destruct H as (r & _ & H).
    unfold highWarning in H. destruct (rate r >? 5000); simpl in H;
      intuition discriminate. }
  assert (Hhs : forall n x, ~ In (WHighRate n x) (flat_map (staleWarning now) rates)).
  { intros n x H. apply in_flat_map in H. destruct H as (r & _ & H).
    unfold staleWarning in H. destruct (now - timestamp r >? maxAge); simpl in H;
      intuition discriminate. }
  assert (Hws : forall m ws,
            (forall k, m <> WFallback k) ->
            (In m (if fallbackCount rates >? 2
                   then ws ++ [WFallback (fallbackCount rates)] else ws)
             <-> In m ws)).
  { intros m ws Hm. destruct (fallbackCount rates >? 2); [|tauto].
    rewrite in_app_iff. simpl. split; [|tauto].
    intros [H|[H|[]]]; trivial. symmetry in H. destruct (Hm _ H). }
  split; [|split; [|split]].
  - intros k. rewrite in_app_iff. split.
    + intros [H|H].
      * destruct (Z.ltb_spec (zlength rates) 3); [|contradiction].
        destruct H as [H|[]]. inversion H. lia.
      * apply in_flat_map in H. destruct H as (r & _ & H).
        unfold negativeError in H. destruct (rate r <? 0); simpl in H;
          intuition discriminate.
    + intros [-> Hlt]. left.
      destruct (Z.ltb_spec (zlength rates) 3); [now left|lia].
  - intros n x. rewrite in_app_iff, <- Hneg. split; [|tauto].
    intros [H|H]; trivial.
    destruct (zlength rates <? 3); simpl in H; intuition discriminate.
  - intros n. rewrite Hws by discriminate. rewrite in_app_iff, <- Hstale.
    split; [|tauto]. intros [H|H]; trivial. destruct (Hsh _ H).
  - intros n x. rewrite Hws by discriminate. rewrite in_app_iff, <- Hhigh.
    split; [|tauto]. intros [H|H]; trivial. destruct (Hhs _ _ H).
Qed.

(** ** Retry, continued *)

Section RetryMore.

Lemma pusher_retryLoop_exhausted (T : Type) (script : nat -> Outcome T)
  (config : Pusher.RetryConfig) :
  forall (turns : nat) (errs : nat -> Thrown) (attempt : Z) (lastError : Thrown)
         (w : World),
    attempt + Z.of_nat turns = Pusher.maxRetries config + 1 ->
    (forall i, (i < turns)%nat -> script (invocations w + i)%nat = Throw (errs i)) ->
    (forall i, (S i < turns)%nat -> errs i <> ThrownNull) ->
    exists w',
      Pusher.retryLoop (scripted script) config turns attempt lastError w
      = (Throw (match turns with O => lastError | S k => errs k end), w')
      /\ invocations w' = (invocations w + turns)%nat
      /\ sleeps w' = (sleeps w + pred turns)%nat.
Proof.
  induction turns as [|k IH]; intros errs attempt lastError w Hinv Hfail Hobj.
  - simpl. unfold throw. exists w. repeat split; lia.
  - cbn [Pusher.retryLoop]. unfold scripted at 1.
    rewrite <- (Nat.add_0_r (invocations w)), (Hfail 0%nat) by lia.
    set (w1 := mkWorld (clock w) (EvInvoke :: trace w)).
    set (w2 := if attempt <? Pusher.maxRetries config
               then sleep (Pusher.retryDelay config attempt) w1 else w1).
    assert (Hi2 : invocations w2 = S (invocations w)).
    { unfold w2. destruct (attempt <? Pusher.maxRetries config); reflexivity. }
    assert (Hs2 : sleeps w2 = (sleeps w + (if (k =? 0)%nat then 0 else 1))%nat).
    { unfold w2. destruct (Z.ltb_spec attempt (Pusher.maxRetries config));
        destruct (Nat.eqb_spec k 0); try lia; unfold sleeps; simpl; lia. }
    destruct (IH (fun i => errs (S i)) (attempt + 1) (errs 0%nat) w2) as (w' & Hrun & Hi & Hs).
    + lia.
    + intros i Hi. rewrite Hi2. replace (S (invocations w) + i)%nat
        with (invocations w + S i)%nat by lia. apply Hfail. lia.
    + intros i Hi. apply Hobj. lia.
    + exists w'. rewrite Nat.add_0_r. fold w1.
      assert (Hstep : (if attempt <? Pusher.maxRetries config
                       then match errs 0%nat with
                            | ThrownNull => (Throw Pusher.nullMessageError, w1)
                            | Err _ =>
                                Pusher.retryLoop (scripted script) config k
                                  (attempt + 1) (errs 0%nat)
                                  (sleep (Pusher.retryDelay config attempt) w1)
                            end
                       else Pusher.retryLoop (scripted script) config k
                              (attempt + 1) (errs 0%nat) w1)
                      = Pusher.retryLoop (scripted script) config k
                          (attempt + 1) (errs 0%nat) w2).
      { unfold w2. destruct (Z.ltb_spec attempt (Pusher.maxRetries config)) as [Hlt|Hge];
          [|reflexivity].
        assert (Hn : errs 0%nat <> ThrownNull) by (apply Hobj; lia).
        destruct (errs 0%nat); [congruence|reflexivity]. }
      rewrite Hstep, Hrun. split.
      * destruct k; reflexivity.
      * rewrite Hi, Hs, Hi2, Hs2. destruct (Nat.eqb_spec k 0); split; lia.
Qed.

Lemma pusher_retryLoop_succeeds (T : Type) (script : nat -> Outcome T)
  (config : Pusher.RetryConfig) (v : T) :
  forall (j turns : nat) (attempt : Z) (lastError : Thrown) (w : World),
    attempt + Z.of_nat turns = Pusher.maxRetries config + 1 ->
    (j < turns)%nat ->
    (forall i, (i < j)%nat -> exists e, script (invocations w + i)%nat = Throw (Err e)) ->
    script (invocations w + j)%nat = Ok v ->
    exists w',
      Pusher.retryLoop (scripted script) config turns attempt lastError w = (Ok v, w')
      /\ invocations w' = (invocations w + j + 1)%nat
      /\ sleeps w' = (sleeps w + j)%nat.
Proof.
  induction j as [|j IH]; intros turns attempt lastError w Hinv Hj Hfail Hok;
    (destruct turns as [|k]; [lia|]); cbn [Pusher.retryLoop]; unfold scripted at 1.
  - rewrite Nat.add_0_r in Hok. rewrite Hok. eexists. split; [reflexivity|].
    unfold invocations, sleeps. simpl. split; lia.
  - destruct (Hfail 0%nat) as (e & He); [lia|].
    rewrite Nat.add_0_r in He. rewrite He.
    destruct (Z.ltb_spec attempt (Pusher.maxRetries config)); [|lia].
    set (w2 := sleep (Pusher.retryDelay config attempt) (mkWorld (clock w) (EvInvoke :: trace w))).
    assert (Hi2 : invocations w2 = S (invocations w)) by reflexivity.
    assert (Hs2 : sleeps w2 = S (sleeps w)) by reflexivity.
    destruct (IH k (attempt + 1) (Err e) w2) as (w' & Hrun & Hi & Hs).
    + lia.
    + lia.
    + intros i Hi. rewrite Hi2. replace (S (invocations w) + i)%nat
        with (invocations w + S i)%nat by lia. apply Hfail. lia.
    + rewrite Hi2. replace (S (invocations w) + j)%nat
        with (invocations w + S j)%nat by lia. exact Hok.
    + exists w'. split; [exact Hrun|]. rewrite Hi, Hs, Hi2, Hs2. split; lia.
Qed.

(** A [null] caught before the last attempt ends the loop of the pusher. *)
Lemma pusher_retryLoop_null (T : Type) (script : nat -> Outcome T)
  (config : Pusher.RetryConfig) (turns : nat) (attempt : Z) (lastError : Thrown)
  (w : World) :
  attempt < Pusher.maxRetries config ->
  script (invocations w) = Throw ThrownNull ->
  Pusher.retryLoop (scripted script) config (S turns) attempt lastError w
  = (Throw Pusher.nullMessageError, mkWorld (clock w) (EvInvoke :: trace w)).
Proof.
  intros Hlt Hnull. cbn [Pusher.retryLoop]. unfold scripted at 1. rewrite Hnull.
  destruct (Z.ltb_spec attempt (Pusher.maxRetries config)); [reflexivity|lia].
Qed.

Lemma collectors_retryLoop_exhausted (T : Type) (script : nat -> Outcome T)
  (config : Collectors.CollectorConfig) :
  forall (turns : nat) (errs : nat -> Thrown) (attempt : Z) (lastError : Thrown)
         (w : World),
    attempt + Z.of_nat turns = Collectors.maxRetries config + 1 ->
    (forall i, (i < turns)%nat -> script (invocations w + i)%nat = Throw (errs i)) ->
    exists w',
      Collectors.retryLoop (scripted script) config turns attempt lastError w
      = (Throw (match turns with O => lastError | S k => errs k end), w')
      /\ invocations w' = (invocations w + turns)%nat
      /\ sleeps w' = (sleeps w + pred turns)%nat.
Proof.
  induction turns as [|k IH]; intros errs attempt lastError w Hinv Hfail.
  - simpl. unfold throw. exists w. repeat split; lia.
  - cbn [Collectors.retryLoop]. unfold scripted at 1.
    rewrite <- (Nat.add_0_r (invocations w)), (Hfail 0%nat) by lia.
    set (w1 := mkWorld (clock w) (EvInvoke :: trace w)).
    set (w2 := if attempt <? Collectors.maxRetries config then sleep (Collectors.retryDelayMs config * 2 ^ (attempt - 1)) w1 else w1).
    assert (Hi2 : invocations w2 = S (invocations w)).
    { unfold w2. destruct (attempt <? Collectors.maxRetries config); reflexivity. }
    assert (Hs2 : sleeps w2 = (sleeps w + (if (k =? 0)%nat then 0 else 1))%nat).
    { unfold w2. destruct (Z.ltb_spec attempt (Collectors.maxRetries config));
        destruct (Nat.eqb_spec k 0); try lia; unfold sleeps; simpl; lia. }
    destruct (IH (fun i => errs (S i)) (attempt + 1) (errs 0%nat) w2) as (w' & Hrun & Hi & Hs).
    + lia.
    + intros i Hi. rewrite Hi2. replace (S (invocations w) + i)%nat
        with (invocations w + S i)%nat by lia. apply Hfail. lia.
    + exists w'. rewrite Nat.add_0_r. fold w1. fold w2. rewrite Hrun. split.
      * destruct k; reflexivity.
      * rewrite Hi, Hs, Hi2, Hs2. destruct (Nat.eqb_spec k 0); split; lia.
Qed.

Lemma collectors_retryLoop_succeeds (T : Type) (script : nat -> Outcome T)
  (config : Collectors.CollectorConfig) (v : T) :
  forall (j turns : nat) (attempt : Z) (lastError : Thrown) (w : World),
    attempt + Z.of_nat turns = Collectors.maxRetries config + 1 ->
    (j < turns)%nat ->
    (forall i, (i < j)%nat -> exists e, script (invocations w + i)%nat = Throw e) ->
    script (invocations w + j)%nat = Ok v ->
    exists w',
      Collectors.retryLoop (scripted script) config turns attempt lastError w = (Ok v, w')
      /\ invocations w' = (invocations w + j + 1)%nat
      /\ sleeps w' = (sleeps w + j)%nat.
Proof.
  induction j as [|j IH]; intros turns attempt lastError w Hinv Hj Hfail Hok;
    (destruct turns as [|k]; [lia|]); cbn [Collectors.retryLoop]; unfold scripted at 1.
  - rewrite Nat.add_0_r in Hok. rewrite Hok. eexists. split; [reflexivity|].
    unfold invocations, sleeps. simpl. split; lia.
  - destruct (Hfail 0%nat) as (e & He); [lia|].
    rewrite Nat.add_0_r in He. rewrite He.
    destruct (Z.ltb_spec attempt (Collectors.maxRetries config)); [|lia].
    set (w2 := sleep (Collectors.retryDelayMs config * 2 ^ (attempt - 1)) (mkWorld (clock w) (EvInvoke :: trace w))).
    assert (Hi2 : invocations w2 = S (invocations w)) by reflexivity.
    assert (Hs2 : sleeps w2 = S (sleeps w)) by reflexivity.
    destruct (IH k (attempt + 1) e w2) as (w' & Hrun & Hi & Hs).
    + lia.
    + lia.
    + intros i Hi. rewrite Hi2. replace (S (invocations w) + i)%nat
        with (invocations w + S i)%nat by lia. apply Hfail. lia.
    + rewrite Hi2. replace (S (invocations w) + j)%nat
        with (invocations w + S j)%nat by lia. exact Hok.
    + exists w'. split; [exact Hrun|]. rewrite Hi, Hs, Hi2, Hs2. split; lia.
Qed.

End RetryMore.

(** X8: when the operation fails on each of the [n] attempts allowed
    ([n >= 1]), [withRetry] invokes it exactly [n] times, waits [n - 1]
    times (not after the last failure) and throws what the last invocation
    threw.  The [withRetry] of the collectors does so whatever is thrown;
    the one of the pusher does so when every failure but the last throws an
    error object (it reads the message of each of them before waiting). *)
Theorem withRetry_exhausts
  (T : Type) (script : nat -> Outcome T) (errs : nat -> Thrown) (w : World)
  (n : nat) (pcfg : Pusher.RetryConfig) (ccfg : Collectors.CollectorConfig) :
  (1 <= n)%nat ->
  Pusher.maxRetries pcfg = Z.of_nat n ->
  Collectors.maxRetries ccfg = Z.of_nat n ->
  (forall i, (i < n)%nat -> script (invocations w + i)%nat = Throw (errs i)) ->
  ((forall i, (S i < n)%nat -> errs i <> ThrownNull) ->
   exists w', Pusher.withRetry (scripted script) pcfg w = (Throw (errs (n - 1)%nat), w')
              /\ invocations w' = (invocations w + n)%nat
              /\ sleeps w' = (sleeps w + (n - 1))%nat)
  /\ (exists w', Collectors.withRetry (scripted script) ccfg w
                 = (Throw (errs (n - 1)%nat), w')
                 /\ invocations w' = (invocations w + n)%nat
                 /\ sleeps w' = (sleeps w + (n - 1))%nat).
Proof.
  intros Hn Hp Hc Hfail. split.
  - intros Hobj. unfold Pusher.withRetry. rewrite Hp, Nat2Z.id.
    destruct (pusher_retryLoop_exhausted T script pcfg n errs 1 ThrownNull w)
      as (w' & Hrun & Hi & Hs); [lia|exact Hfail|exact Hobj|].
    exists w'. rewrite Hrun. destruct n as [|k]; [lia|].
    replace (S k - 1)%nat with k by lia. repeat split; trivial.
  - unfold Collectors.withRetry. rewrite Hc, Nat2Z.id.
    destruct (collectors_retryLoop_exhausted T script ccfg n errs 1 ThrownNull w)
      as (w' & Hrun & Hi & Hs); [lia|exact Hfail|].
    exists w'. rewrite Hrun. destruct n as [|k]; [lia|].
    replace (S k - 1)%nat with k by lia. repeat split; trivial.
Qed.

Lemma withRetry_exhausts_witness :
  Pusher.withRetry (scripted failsThenNull) Pusher.DEFAULT_RETRY_CONFIG startWorld
  = (Throw ThrownNull,
     mkWorld 1700000006000 [EvInvoke; EvSleep 4000; EvInvoke; EvSleep 2000; EvInvoke])
  /\ Collectors.withRetry (scripted failsThenNull) Collectors.DEFAULT_CONFIG startWorld
     = (Throw ThrownNull,
        mkWorld 1700000003000 [EvInvoke; EvSleep 2000; EvInvoke; EvSleep 1000; EvInvoke])
  /\ (exists w', Pusher.withRetry (scripted failsThenNull)
                   Pusher.DEFAULT_RETRY_CONFIG startWorld
                 = (Throw (thrownAt (3 - 1)%nat), w')
                 /\ invocations w' = (invocations startWorld + 3)%nat
                 /\ sleeps w' = (sleeps startWorld + (3 - 1))%nat)
  /\ (exists w', Collectors.withRetry (scripted failsThenNull)
                   Collectors.DEFAULT_CONFIG startWorld
                 = (Throw (thrownAt (3 - 1)%nat), w')
                 /\ invocations w' = (invocations startWorld + 3)%nat
                 /\ sleeps w' = (sleeps startWorld + (3 - 1))%nat).
Proof.
  split; [reflexivity|]. split; [reflexivity|].
  destruct (withRetry_exhausts Z failsThenNull thrownAt
              startWorld 3 Pusher.DEFAULT_RETRY_CONFIG Collectors.DEFAULT_CONFIG)
    as (Hpusher & Hcollectors); try reflexivity; [lia|].
  split; [|exact Hcollectors].
  apply Hpusher. intros i Hi.
  destruct i as [|[|i]]; [discriminate|discriminate|lia].
Defined.

(** X9: when the operation first succeeds on its [(j+1)]-th invocation and
    more than [j] attempts are allowed, [withRetry] returns that value after
    exactly [j + 1] invocations and [j] waits.  The [withRetry] of the
    collectors does so whatever the failures throw; the one of the pusher
    does so when the failures throw error objects. *)
Theorem withRetry_stops_at_first_success
  (T : Type) (script : nat -> Outcome T) (v : T) (w : World) (j : nat)
  (pcfg : Pusher.RetryConfig) (ccfg : Collectors.CollectorConfig) :
  Z.of_nat j < Pusher.maxRetries pcfg ->
  Z.of_nat j < Collectors.maxRetries ccfg ->
  (forall i, (i < j)%nat -> exists e, script (invocations w + i)%nat = Throw e) ->
  script (invocations w + j)%nat = Ok v ->
  ((forall i, (i < j)%nat -> script (invocations w + i)%nat <> Throw ThrownNull) ->
   exists w', Pusher.withRetry (scripted script) pcfg w = (Ok v, w')
              /\ invocations w' = (invocations w + j + 1)%nat
              /\ sleeps w' = (sleeps w + j)%nat)
  /\ (exists w', Collectors.withRetry (scripted script) ccfg w = (Ok v, w')
                 /\ invocations w' = (invocations w + j + 1)%nat
                 /\ sleeps w' = (sleeps w + j)%nat).
Proof.
  intros Hp Hc Hfail Hok. split.
  - intros Hobj. unfold Pusher.withRetry.
    apply (pusher_retryLoop_succeeds T script pcfg v j); trivial; try lia.
    intros i Hi. destruct (Hfail i Hi) as ([|e] & He).
    + destruct (Hobj i Hi He).
    + exists e. exact He.
  - unfold Collectors.withRetry.
    apply (collectors_retryLoop_succeeds T script ccfg v j); trivial; lia.
Qed.

Lemma withRetry_stops_at_first_success_witness :
  Pusher.withRetry (scripted (fun _ => Ok 42)) Pusher.DEFAULT_RETRY_CONFIG startWorld
  = (Ok 42, mkWorld 1700000000000 [EvInvoke])
  /\ Collectors.withRetry (scripted flakyNull) Collectors.DEFAULT_CONFIG startWorld
     = (Ok 42, mkWorld 1700000003000
                 [EvInvoke; EvSleep 2000; EvInvoke; EvSleep 1000; EvInvoke])
  /\ (exists w', Pusher.withRetry (scripted flaky) Pusher.DEFAULT_RETRY_CONFIG
                   startWorld = (Ok 42, w')
                 /\ invocations w' = (invocations startWorld + 2 + 1)%nat
                 /\ sleeps w' = (sleeps startWorld + 2)%nat)
  /\ (exists w', Collectors.withRetry (scripted flaky) Collectors.DEFAULT_CONFIG
                   startWorld = (Ok 42, w')
                 /\ invocations w' = (invocations startWorld + 2 + 1)%nat
                 /\ sleeps w' = (sleeps startWorld + 2)%nat).
Proof.
  split; [reflexivity|]. split; [reflexivity|].
  destruct (withRetry_stops_at_first_success Z flaky 42 startWorld 2
              Pusher.DEFAULT_RETRY_CONFIG Collectors.DEFAULT_CONFIG)
    as (Hpusher & Hcollectors).
  - simpl. lia.
  - simpl. lia.
  - intros i Hi. exists (Err (Failure "ETIMEDOUT")).
    destruct i as [|[|i]]; [reflexivity|reflexivity|lia].
  - reflexivity.
  - split; [|exact Hcollectors].
    apply Hpusher. intros i Hi.
    destruct i as [|[|i]]; [discriminate|discriminate|lia].
Defined.

(** X10: with no attempt allowed ([maxRetries <= 0]) the loop of
    [withRetry] does not run: the operation is not invoked and what is
    thrown is the initial [lastError], [null]; so do both versions. *)
Theorem withRetry_without_attempts
  (T : Type) (fn : Async T) (w : World)
  (pcfg : Pusher.RetryConfig) (ccfg : Collectors.CollectorConfig) :
  Pusher.maxRetries pcfg <= 0 ->
  Collectors.maxRetries ccfg <= 0 ->
  Pusher.withRetry fn pcfg w = (Throw ThrownNull, w)
  /\ Collectors.withRetry fn ccfg w = (Throw ThrownNull, w).
Proof.
  intros Hp Hc. split.
  - unfold Pusher.withRetry.
    destruct (Z.to_nat (Pusher.maxRetries pcfg)) eqn:Hk; [reflexivity|lia].
  - now apply withRetry_no_attempt.
Qed.

Lemma withRetry_without_attempts_witness :
  Pusher.withRetry (ret 1) (Pusher.mkRetryConfig 0 2000 30000 2) startWorld
  = (Throw ThrownNull, startWorld)
  /\ Collectors.withRetry (ret 1) (Collectors.mkCollectorConfig (-1) 1000 15000)
       startWorld
     = (Throw ThrownNull, startWorld).
Proof.
  apply (withRetry_without_attempts Z (ret 1) startWorld
           (Pusher.mkRetryConfig 0 2000 30000 2)
           (Collectors.mkCollectorConfig (-1) 1000 15000)); simpl; lia.
Defined.

(** X11: the wait of the pusher's [withRetry] before a further attempt
    never exceeds [maxDelayMs] and, for a base delay that is not negative
    and a multiplier of at least 1, does not shrink from one attempt to the
    next. *)
Theorem retryDelay_capped_and_monotone (config : Pusher.RetryConfig) (a b : Z) :
  0 <= Pusher.baseDelayMs config ->
  1 <= Pusher.backoffMultiplier config ->
  1 <= a <= b ->
  Pusher.retryDelay config a <= Pusher.retryDelay config b
  /\ Pusher.retryDelay config b <= Pusher.maxDelayMs config.
Proof.
  intros Hbase Hmult Hab. unfold Pusher.retryDelay. split; [|lia].
  apply Z.min_le_compat_r.
  apply Z.mul_le_mono_nonneg_l; trivial.
  apply Z.pow_le_mono_r; lia.
Qed.

Lemma retryDelay_capped_and_monotone_witness :
  map (Pusher.retryDelay Pusher.DEFAULT_RETRY_CONFIG) [1; 2; 3; 4; 5; 6]
  = [2000; 4000; 8000; 16000; 30000; 30000]
  /\ (Pusher.retryDelay Pusher.DEFAULT_RETRY_CONFIG 4
      <= Pusher.retryDelay Pusher.DEFAULT_RETRY_CONFIG 5
      /\ Pusher.retryDelay Pusher.DEFAULT_RETRY_CONFIG 5
         <= Pusher.maxDelayMs Pusher.DEFAULT_RETRY_CONFIG).
Proof.
  split; [reflexivity|].
  apply (retryDelay_capped_and_monotone Pusher.DEFAULT_RETRY_CONFIG 4 5);
    simpl; lia.
Defined.

(** ** Circuit breaker, continued *)

Section BreakerMore.

Import Pusher.

Variable cfg : CircuitBreakerConfig.
Hypothesis Hthr : 1 <= failureThreshold cfg.

Lemma execute_keeps_inv (T : Type) (fn : Async T) (cb : CircuitBreaker) (w : World) :
  breakerInv cfg cb -> breakerInv cfg (snd (fst (execute cfg fn cb w))).
Proof.
  destruct cb as [st c l h].
  unfold breakerInv, execute, guard, checkOpen, checkHalfOpen, onSuccess, onFailure.
  cbn [state failureCount lastFailureTime halfOpenAttempts].
  destruct st; intros Hinv; try contradiction.
  - destruct (fn w) as [[v|e] w1]; cbn [fst snd state failureCount]; [lia|].
    destruct (Z.geb_spec (c + 1) (failureThreshold cfg));
      cbn [state failureCount]; lia.
  - destruct (Z.geb_spec (clock w - l) (resetTimeoutMs cfg));
      cbn [fst snd state failureCount lastFailureTime halfOpenAttempts];
      [|exact Hinv].
    destruct (Z.gtb_spec (0 + 1) (halfOpenMaxAttempts cfg));
      cbn [fst snd state failureCount]; [exact Hinv|].
    destruct (fn w) as [[v|e] w1]; cbn [fst snd state failureCount]; [lia|].
    destruct (Z.geb_spec (c + 1) (failureThreshold cfg));
      cbn [state failureCount]; lia.
Qed.

Lemma execute_failure_step (T : Type) (fn : Async T) (cb : CircuitBreaker) (w : World) :
  (exists e w1, fn w = (Throw e, w1)) ->
  breakerInv cfg cb ->
  let cb' := snd (fst (execute cfg fn cb w)) in
  (state cb = OPEN -> state cb' = OPEN)
  /\ (state cb = CLOSED ->
      failureCount cb' = failureCount cb + 1
      /\ state cb' = if failureCount cb + 1 <? failureThreshold cfg
                     then CLOSED else OPEN).
Proof.
  intros (e & w1 & Hf). destruct cb as [st c l h].
  unfold breakerInv, execute, guard, checkOpen, checkHalfOpen, onSuccess, onFailure.
  cbn [state failureCount lastFailureTime halfOpenAttempts].
  destruct st; intros Hinv; try contradiction; cbn zeta.
  - rewrite Hf. cbn [fst snd state failureCount].
    split; [discriminate|intros _].
    destruct (Z.geb_spec (c + 1) (failureThreshold cfg));
      destruct (Z.ltb_spec (c + 1) (failureThreshold cfg));
      try lia; cbn [state failureCount]; auto.
  - split; [intros _|discriminate].
    destruct (Z.geb_spec (clock w - l) (resetTimeoutMs cfg));
      cbn [fst snd state failureCount lastFailureTime halfOpenAttempts];
      [|reflexivity].
    destruct (Z.gtb_spec (0 + 1) (halfOpenMaxAttempts cfg));
      cbn [fst snd state]; [reflexivity|].
    rewrite Hf. cbn [fst snd state failureCount].
    destruct (Z.geb_spec (c + 1) (failureThreshold cfg)); [reflexivity|lia].
Qed.

Lemma executeAll_failures (T : Type) (fn : Async T) :
  (forall w, exists e w1, fn w = (Throw e, w1)) ->
  forall (ws : list World) (cb : CircuitBreaker),
    breakerInv cfg cb ->
    (state cb = OPEN -> state (executeAll cfg fn ws cb) = OPEN)
    /\ (state cb = CLOSED ->
        state (executeAll cfg fn ws cb)
        = if failureCount cb + zlength ws <? failureThreshold cfg
          then CLOSED else OPEN).
Proof.
  intros Hfn. induction ws as [|w rest IH]; intros cb Hinv.
  - cbn. split; [trivial|]. intros Hs. unfold breakerInv in Hinv.
    rewrite Hs in Hinv. unfold zlength. cbn.
    destruct (Z.ltb_spec (failureCount cb + 0) (failureThreshold cfg)); [trivial|lia].
  - cbn [executeAll].
    pose proof (execute_keeps_inv T fn cb w Hinv) as Hinv'.
    destruct (execute_failure_step T fn cb w (Hfn w) Hinv) as [Hopen Hclosed].
    destruct (IH _ Hinv') as [IHo IHc].
    split.
    + intros Hs. apply IHo, Hopen, Hs.
    + intros Hs. destruct (Hclosed Hs) as [Hcount Hstate].
      replace (zlength (w :: rest)) with (1 + zlength rest)
        by (unfold zlength; cbn [List.length]; lia).
      destruct (Z.ltb_spec (failureCount cb + 1) (failureThreshold cfg)).
      * rewrite (IHc Hstate), Hcount.
        replace (failureCount cb + 1 + zlength rest)
          with (failureCount cb + (1 + zlength rest)) by lia. reflexivity.
      * rewrite (IHo Hstate).
        assert (0 <= zlength rest) by (unfold zlength; lia).
        destruct (Z.ltb_spec (failureCount cb + (1 + zlength rest))
                    (failureThreshold cfg)); [lia|reflexivity].
Qed.

End BreakerMore.

(** X12: with a threshold of at least 1, a new breaker and a reset breaker
    are CLOSED with fewer failures than the threshold, and every call of
    [execute], whatever the operation does, leaves the breaker either
    CLOSED with fewer failures counted than the threshold or OPEN with at
    least as many: between calls it is never HALF_OPEN. *)
Theorem breaker_invariant (cfg : Pusher.CircuitBreakerConfig) :
  1 <= Pusher.failureThreshold cfg ->
  breakerInv cfg Pusher.newCircuitBreaker
  /\ (forall cb, breakerInv cfg (Pusher.reset cb))
  /\ (forall (T : Type) (fn : Async T) cb w,
        breakerInv cfg cb ->
        breakerInv cfg (snd (fst (Pusher.execute cfg fn cb w)))).
Proof.
  intros Hthr. split; [|split].
  - unfold breakerInv. cbn. lia.
  - intros cb. unfold breakerInv. cbn. lia.
  - intros T fn cb w. now apply execute_keeps_inv.
Qed.

Lemma breaker_invariant_witness :
  breakerInv Pusher.breakerConfig Pusher.newCircuitBreaker
  /\ (forall cb, breakerInv Pusher.breakerConfig (Pusher.reset cb))
  /\ (forall (T : Type) (fn : Async T) cb w,
        breakerInv Pusher.breakerConfig cb ->
        breakerInv Pusher.breakerConfig
          (snd (fst (Pusher.execute Pusher.breakerConfig fn cb w)))).
Proof.
  apply (breaker_invariant Pusher.breakerConfig). simpl. lia.
Defined.

Lemma execute_cases
  (T : Type) (cfg : Pusher.CircuitBreakerConfig) (fn : Async T)
  (cb : Pusher.CircuitBreaker) (w : World) :
  breakerInv cfg cb ->
  1 <= Pusher.halfOpenMaxAttempts cfg ->
  (Pusher.state cb = Pusher.OPEN ->
   clock w - Pusher.lastFailureTime cb < Pusher.resetTimeoutMs cfg ->
   Pusher.execute cfg fn cb w = (Throw breakerOpenError, cb, w))
  /\ (Pusher.state cb = Pusher.CLOSED
      \/ Pusher.resetTimeoutMs cfg <= clock w - Pusher.lastFailureTime cb ->
      (forall v w1, fn w = (Ok v, w1) ->
         exists cb', Pusher.execute cfg fn cb w = (Ok v, cb', w1)
                     /\ Pusher.state cb' = Pusher.CLOSED
                     /\ Pusher.failureCount cb' = 0
                     /\ Pusher.lastFailureTime cb' = Pusher.lastFailureTime cb)
      /\ (forall e w1, fn w = (Throw e, w1) ->
            exists cb', Pusher.execute cfg fn cb w = (Throw e, cb', w1)
                        /\ Pusher.failureCount cb' = Pusher.failureCount cb + 1
                        /\ Pusher.lastFailureTime cb' = clock w1
                        /\ Pusher.state cb'
                           = if Pusher.failureCount cb + 1 <? Pusher.failureThreshold cfg
                             then Pusher.CLOSED else Pusher.OPEN)).
Proof.
  intros Hinv Hmax. split.
  - intros Hs Ht. now apply execute_open_refuses.
  - destruct cb as [st c l h].
    unfold breakerInv in Hinv.
    cbn [Pusher.state Pusher.failureCount Pusher.lastFailureTime] in *.
    intros Hcase.
    unfold Pusher.execute, Pusher.guard, Pusher.checkOpen, Pusher.checkHalfOpen,
      Pusher.onSuccess, Pusher.onFailure.
    cbn [Pusher.state Pusher.failureCount Pusher.lastFailureTime
         Pusher.halfOpenAttempts].
    destruct st; try contradiction.
    + split; intros x w1 Hf; rewrite Hf; eexists; (split; [reflexivity|]).
      * repeat split.
      * cbn [Pusher.state Pusher.failureCount Pusher.lastFailureTime
             Pusher.halfOpenAttempts].
        destruct (Z.geb_spec (c + 1) (Pusher.failureThreshold cfg));
          destruct (Z.ltb_spec (c + 1) (Pusher.failureThreshold cfg));
          try lia; repeat split.
    + destruct Hcase as [Hcase|Hcase]; [discriminate|].
      destruct (Z.geb_spec (clock w - l) (Pusher.resetTimeoutMs cfg)); [|lia].
      cbn [Pusher.state Pusher.failureCount Pusher.lastFailureTime
           Pusher.halfOpenAttempts].
      destruct (Z.gtb_spec (0 + 1) (Pusher.halfOpenMaxAttempts cfg)); [lia|].
      split; intros x w1 Hf; rewrite Hf; eexists; (split; [reflexivity|]).
      * repeat split.
      * cbn [Pusher.state Pusher.failureCount Pusher.lastFailureTime
             Pusher.halfOpenAttempts].
        destruct (Z.geb_spec (c + 1) (Pusher.failureThreshold cfg));
          destruct (Z.ltb_spec (c + 1) (Pusher.failureThreshold cfg));
          try lia; repeat split.
Qed.

(** X13: on a breaker that is not left HALF_OPEN by an overlapping call, and
    with at least one half-open attempt allowed, [execute] either refuses
    with the breaker-open error (OPEN and the timeout not elapsed) or runs
    the operation and ends as the operation does: a success leaves the
    breaker CLOSED with no failure counted, a failure counts one more,
    records its time and leaves the breaker OPEN exactly when the count has
    reached the threshold.  The error "too many half-open attempts" is never
    raised. *)
Theorem execute_transitions
  (T : Type) (cfg : Pusher.CircuitBreakerConfig) (fn : Async T)
  (cb : Pusher.CircuitBreaker) (w : World) :
  breakerInv cfg cb ->
  1 <= Pusher.halfOpenMaxAttempts cfg ->
  (Pusher.state cb = Pusher.OPEN ->
   clock w - Pusher.lastFailureTime cb < Pusher.resetTimeoutMs cfg ->
   Pusher.execute cfg fn cb w = (Throw breakerOpenError, cb, w))
  /\ (Pusher.state cb = Pusher.CLOSED
      \/ Pusher.resetTimeoutMs cfg <= clock w - Pusher.lastFailureTime cb ->
      (forall v w1, fn w = (Ok v, w1) ->
         exists cb', Pusher.execute cfg fn cb w = (Ok v, cb', w1)
                     /\ Pusher.state cb' = Pusher.CLOSED
                     /\ Pusher.failureCount cb' = 0
                     /\ Pusher.lastFailureTime cb' = Pusher.lastFailureTime cb)
      /\ (forall e w1, fn w = (Throw e, w1) ->
            exists cb', Pusher.execute cfg fn cb w = (Throw e, cb', w1)
                        /\ Pusher.failureCount cb' = Pusher.failureCount cb + 1
                        /\ Pusher.lastFailureTime cb' = clock w1
                        /\ Pusher.state cb'
                           = if Pusher.failureCount cb + 1 <? Pusher.failureThreshold cfg
                             then Pusher.CLOSED else Pusher.OPEN)).
Proof. exact (execute_cases T cfg fn cb w). Qed.

Lemma execute_transitions_witness :
  (Pusher.state openedBreaker = Pusher.OPEN ->
   clock startWorld - Pusher.lastFailureTime openedBreaker
   < Pusher.resetTimeoutMs Pusher.breakerConfig ->
   Pusher.execute Pusher.breakerConfig failing openedBreaker startWorld
   = (Throw breakerOpenError, openedBreaker, startWorld))
  /\ (Pusher.state openedBreaker = Pusher.CLOSED
      \/ Pusher.resetTimeoutMs Pusher.breakerConfig
         <= clock startWorld - Pusher.lastFailureTime openedBreaker ->
      (forall v w1, failing startWorld = (Ok v, w1) ->
         exists cb', Pusher.execute Pusher.breakerConfig failing openedBreaker startWorld
                     = (Ok v, cb', w1)
                     /\ Pusher.state cb' = Pusher.CLOSED
                     /\ Pusher.failureCount cb' = 0
                     /\ Pusher.lastFailureTime cb' = Pusher.lastFailureTime openedBreaker)
      /\ (forall e w1, failing startWorld = (Throw e, w1) ->
            exists cb', Pusher.execute Pusher.breakerConfig failing openedBreaker startWorld
                        = (Throw e, cb', w1)
                        /\ Pusher.failureCount cb' = Pusher.failureCount openedBreaker + 1
                        /\ Pusher.lastFailureTime cb' = clock w1
                        /\ Pusher.state cb'
                           = if Pusher.failureCount openedBreaker + 1
                                <? Pusher.failureThreshold Pusher.breakerConfig
                             then Pusher.CLOSED else Pusher.OPEN)).
Proof.
  apply (execute_transitions Z Pusher.breakerConfig failing openedBreaker startWorld).
  - unfold breakerInv. simpl. lia.
  - simpl. lia.
Defined.

(** X14: a probe that fails re-opens the breaker and restarts the timer:
    when an OPEN breaker lets a call through after the timeout and the
    operation fails, the breaker is OPEN again and refuses every call made
    less than [resetTimeoutMs] after that failure. *)
Theorem failed_probe_restarts_timer
  (T : Type) (cfg : Pusher.CircuitBreakerConfig) (fn : Async T)
  (cb : Pusher.CircuitBreaker) (w w1 : World) (e : Thrown) :
  breakerInv cfg cb ->
  1 <= Pusher.halfOpenMaxAttempts cfg ->
  Pusher.state cb = Pusher.OPEN ->
  Pusher.resetTimeoutMs cfg <= clock w - Pusher.lastFailureTime cb ->
  fn w = (Throw e, w1) ->
  exists cb',
    Pusher.execute cfg fn cb w = (Throw e, cb', w1)
    /\ Pusher.state cb' = Pusher.OPEN
    /\ forall (fn' : Async T) (w2 : World),
         clock w2 - clock w1 < Pusher.resetTimeoutMs cfg ->
         Pusher.execute cfg fn' cb' w2 = (Throw breakerOpenError, cb', w2).
Proof.
  intros Hinv Hmax Hs Ht Hf.
  destruct (execute_cases T cfg fn cb w Hinv Hmax) as [_ Hrun].
  destruct (Hrun (or_intror Ht)) as [_ Hfail].
  destruct (Hfail e w1 Hf) as (cb' & Hex & Hcount & Hlast & Hstate).
  assert (Hopen : Pusher.state cb' = Pusher.OPEN).
  { rewrite Hstate. unfold breakerInv in Hinv. rewrite Hs in Hinv.
    destruct (Z.ltb_spec (Pusher.failureCount cb + 1) (Pusher.failureThreshold cfg));
      [lia|reflexivity]. }
  exists cb'. split; [exact Hex|]. split; [exact Hopen|].
  intros fn' w2 Ht2. apply execute_open_refuses; [exact Hopen|].
  rewrite Hlast. exact Ht2.
Qed.

Lemma failed_probe_restarts_timer_witness :
  exists cb',
    Pusher.execute Pusher.breakerConfig failing openedBreaker
      (mkWorld (clock startWorld + 300000) [])
    = (Throw (Err (Failure "RPC down")), cb', mkWorld (clock startWorld + 300000) [])
    /\ Pusher.state cb' = Pusher.OPEN
    /\ forall (fn' : Async Z) (w2 : World),
         clock w2 - clock (mkWorld (clock startWorld + 300000) [])
         < Pusher.resetTimeoutMs Pusher.breakerConfig ->
         Pusher.execute Pusher.breakerConfig fn' cb' w2
         = (Throw breakerOpenError, cb', w2).
Proof.
  apply (failed_probe_restarts_timer Z Pusher.breakerConfig failing openedBreaker
           (mkWorld (clock startWorld + 300000) [])
           (mkWorld (clock startWorld + 300000) [])
           (Err (Failure "RPC down"))).
  - unfold breakerInv. simpl. lia.
  - simpl. lia.
  - reflexivity.
  - simpl. lia.
  - reflexivity.
Defined.

(** X15: for any threshold [n >= 1], calls whose operation always fails
    leave a breaker that started CLOSED with no failure counted CLOSED as
    long as fewer than [n] calls were made, and OPEN from the [n]-th call
    on, whenever the calls are made. *)
Theorem breaker_opens_at_threshold
  (T : Type) (cfg : Pusher.CircuitBreakerConfig) (fn : Async T)
  (cb : Pusher.CircuitBreaker) (ws : list World) :
  1 <= Pusher.failureThreshold cfg ->
  (forall w, exists e w1, fn w = (Throw e, w1)) ->
  Pusher.state cb = Pusher.CLOSED ->
  Pusher.failureCount cb = 0 ->
  Pusher.state (executeAll cfg fn ws cb)
  = if zlength ws <? Pusher.failureThreshold cfg then Pusher.CLOSED else Pusher.OPEN.
Proof.
  intros Hthr Hfn Hs Hc.
  assert (Hinv : breakerInv cfg cb).
  { unfold breakerInv. rewrite Hs, Hc. lia. }
  destruct (executeAll_failures cfg Hthr T fn Hfn ws cb Hinv) as [_ H].
  rewrite (H Hs), Hc. reflexivity.
Qed.

Lemma breaker_opens_at_threshold_witness :
  map (fun k => Pusher.state
                  (executeAll Pusher.breakerConfig failing
                     (repeat startWorld k) Pusher.newCircuitBreaker))
      [0; 1; 2; 3; 4; 5]%nat
  = [Pusher.CLOSED; Pusher.CLOSED; Pusher.CLOSED; Pusher.OPEN; Pusher.OPEN; Pusher.OPEN]
  /\ Pusher.state (executeAll Pusher.breakerConfig failing
                     (repeat startWorld 4) Pusher.newCircuitBreaker)
     = if zlength (repeat startWorld 4) <? Pusher.failureThreshold Pusher.breakerConfig
       then Pusher.CLOSED else Pusher.OPEN.
Proof.
  split; [reflexivity|].
  apply (breaker_opens_at_threshold Z Pusher.breakerConfig failing
           Pusher.newCircuitBreaker (repeat startWorld 4)).
  - simpl. lia.
  - intros w. exists (Err (Failure "RPC down")), w. reflexivity.
  - reflexivity.
  - reflexivity.
Defined.

(** ** Pusher, continued *)

Section PusherMore.

Import Pusher.

Variable env : Env.

Lemma grows_submissions (w w' : World) :
  grows w w' -> (submissions w <= submissions w')%nat.
Proof.
  intros (a & Ha). unfold submissions. rewrite Ha, filter_app, length_app. lia.
Qed.

Lemma grows_feeChecks (w w' : World) :
  grows w w' -> (feeChecks w <= feeChecks w')%nat.
Proof.
  intros (a & Ha). unfold feeChecks. rewrite Ha, filter_app, length_app. lia.
Qed.

(** A value returned by the retry loop is the value of one invocation of
    the operation, made in a world later than the initial one. *)
Lemma retryLoop_returns_from (T : Type) (fn : Async T) (config : RetryConfig) :
  growing fn ->
  forall turns attempt lastError w v w',
    retryLoop fn config turns attempt lastError w = (Ok v, w') ->
    exists wm, grows w wm /\ fn wm = (Ok v, w').
Proof.
  intros Hfn. induction turns as [|k IH]; intros attempt lastError w v w'.
  - simpl. unfold throw. discriminate.
  - simpl. destruct (fn w) as [[x|e] w1] eqn:Hf.
    + intros H. inversion H; subst. exists w. split; [apply grows_refl|exact Hf].
    + pose proof (Hfn w) as Hg1. rewrite Hf in Hg1. cbn [snd] in Hg1.
      destruct (attempt <? maxRetries config); [destruct e as [|e]|];
        intros H; try discriminate H;
        apply IH in H; destruct H as (wm & Hg & Hwm);
        exists wm; (split; [|exact Hwm]);
        (eapply grows_trans; [exact Hg1|]).
      * eapply grows_trans; [apply grows_sleep|exact Hg].
      * exact Hg.
Qed.

(** What one attempt adds to the trace: at most one reading of the gas
    price and at most one submission; exactly one submission, and a receipt
    of status 1, when it returns. *)
Lemma submitOnce_counts (cfg : PushConfig) (rates : list RateData) (w : World) :
  (submissions (snd (submitOnce env cfg rates w)) <= submissions w + 1)%nat
  /\ (feeChecks (snd (submitOnce env cfg rates w)) <= feeChecks w + 1)%nat
  /\ (forall r w', submitOnce env cfg rates w = (Ok r, w') ->
        status r = 1 /\ submissions w' = S (submissions w)).
Proof.
  destruct (estimateGas_run env cfg rates w) as (g & Hg).
  unfold submitOnce. rewrite (bind_ok _ _ _ _ _ _ _ Hg).
  unfold bind, external, ret, throw, afterEstimate.
  cbn iota beta;
    match goal with |- context [getFeeData env ?x] => destruct (getFeeData env x) end;
    cbn iota beta;
    try (repeat split; try (unfold submissions, feeChecks; simpl; lia);
         intros; discriminate);
    match goal with |- context [gasPriceTooHigh cfg ?x] =>
      destruct (gasPriceTooHigh cfg x) end;
    try (repeat split; try (unfold submissions, feeChecks; simpl; lia);
         intros; discriminate);
    match goal with |- context [batchUpdateRates env ?a ?b ?c ?x] =>
      destruct (batchUpdateRates env a b c x) as [hash|m] end;
    cbn iota beta;
    try (repeat split; try (unfold submissions, feeChecks; simpl; lia);
         intros; discriminate);
    match goal with |- context [wait env ?h ?x] =>
      destruct (wait env h x) as [[r|]|m] end;
    cbn iota beta;
    try (repeat split; try (unfold submissions, feeChecks; simpl; lia);
         intros; discriminate);
    destruct (Z.eqb_spec (status r) 1); cbn [negb];
    (split; [unfold submissions; simpl; lia|]);
    (split; [unfold feeChecks; simpl; lia|]);
    intros r' w' H; inversion H; subst; split; trivial.
Qed.

Lemma retryLoop_counts (cfg : PushConfig) (rates : list RateData)
  (config : RetryConfig) :
  forall turns attempt lastError w,
    (submissions (snd (retryLoop (submitOnce env cfg rates) config turns attempt
                         lastError w))
     <= submissions w + turns)%nat
    /\ (feeChecks (snd (retryLoop (submitOnce env cfg rates) config turns attempt
                          lastError w))
        <= feeChecks w + turns)%nat.
Proof.
  induction turns as [|k IH]; intros attempt lastError w.
  - simpl. lia.
  - cbn [retryLoop].
    destruct (submitOnce_counts cfg rates w) as (Hs & Hf & _).
    destruct (submitOnce env cfg rates w) as [[r|e] w1]; cbn [snd] in *; [lia|].
    destruct (attempt <? maxRetries config); [destruct e as [|e]|];
      cbn [snd]; try lia;
      match goal with |- context [retryLoop _ _ k ?a ?l ?x] =>
        destruct (IH a l x) as [IHs IHf];
        assert (Hx : submissions x = submissions w1 /\ feeChecks x = feeChecks w1)
          by (split; reflexivity)
      end;
      destruct Hx as [Hxs Hxf]; lia.
Qed.

End PusherMore.

(** X16: [estimateGas] never throws and makes exactly one call, the
    estimate: when that call fails the limit is 500000; when it answers
    [e], between 0 and 2^48, and no multiplier is configured, the limit is
    the least integer not below [1.2 e]: the product of the doubles [e] and
    1.2 is rounded to that integer when [1.2 e] is one. *)
Theorem estimateGas_never_throws
  (env : Env) (cfg : Pusher.PushConfig) (rates : list RateData) (w : World) :
  exists g w',
    Pusher.estimateGas env cfg rates w = (Ok g, w')
    /\ trace w' = EvEstimateGas (Pusher.sourceIdsOf rates) (Pusher.newRatesOf rates)
                  :: trace w
    /\ (forall m,
          estimateGasCall env (Pusher.sourceIdsOf rates) (Pusher.newRatesOf rates) w
          = Failed m -> g = 500000)
    /\ (forall e,
          estimateGasCall env (Pusher.sourceIdsOf rates) (Pusher.newRatesOf rates) w
          = Answered e ->
          Pusher.gasLimitMultiplier cfg = None ->
          0 <= e <= 2 ^ 48 ->
          6 * e <= 5 * g <= 6 * e + 4).
Proof.
  assert (Hdiv : forall e, 6 * e <= 5 * ((6 * e + 4) / 5) <= 6 * e + 4).
  { intros e.
    pose proof (Z.div_mod (6 * e + 4) 5 ltac:(lia)) as Hdm.
    pose proof (Z.mod_pos_bound (6 * e + 4) 5 ltac:(lia)) as Hr. lia. }
  unfold Pusher.estimateGas, try_catch, bind, external, ret.
  destruct (estimateGasCall env (Pusher.sourceIdsOf rates) (Pusher.newRatesOf rates) w)
    as [e|m].
  - destruct (Pusher.gasLimitMultiplier cfg) as [c|] eqn:Hc.
    + destruct (d_mul (ofZ e) (Pusher.multiplierOf cfg));
        do 2 eexists; (split; [reflexivity|]); (split; [reflexivity|]);
        (split; [discriminate|]); intros e' _ Hnone; discriminate Hnone.
    + unfold Pusher.multiplierOf. rewrite Hc.
      destruct (Z_le_dec 0 e) as [H0|H0]; [destruct (Z_le_dec e (2 ^ 48)) as [H1|H1]|].
      * destruct (default_gas_limit e (conj H0 H1)) as (v & Hv & Hceil).
        rewrite Hv. cbn [Pusher.bigIntCeil]. unfold ret.
        do 2 eexists. split; [reflexivity|]. split; [reflexivity|].
        split; [discriminate|]. intros e' He _ _. inversion He; subst e'.
        rewrite Hceil. apply Hdiv.
      * destruct (d_mul (ofZ e) (round64 (12 # 10)));
          do 2 eexists; (split; [reflexivity|]); (split; [reflexivity|]);
          (split; [discriminate|]); intros e' He _ Hr; inversion He; subst e'; lia.
      * destruct (d_mul (ofZ e) (round64 (12 # 10)));
          do 2 eexists; (split; [reflexivity|]); (split; [reflexivity|]);
          (split; [discriminate|]); intros e' He _ Hr; inversion He; subst e'; lia.
  - do 2 eexists. split; [reflexivity|]. split; [reflexivity|].
    split; [reflexivity|]. discriminate.
Qed.

Lemma estimateGas_never_throws_witness :
  Pusher.estimateGas calmEnv (Pusher.config cappedPusher) scenario startWorld
  = (Ok 120000, afterEstimate calmEnv scenario startWorld)
  /\ Pusher.estimateGas calmEnv
       (Pusher.mkPushConfig "http://localhost:8545" demoKey demoOracle None
          (Some (11 # 10)) None)
       scenario startWorld
     = (Ok 110001, afterEstimate calmEnv scenario startWorld)
  /\ Pusher.estimateGas deadEnv (Pusher.config cappedPusher) scenario startWorld
     = (Ok 500000, afterEstimate deadEnv scenario startWorld)
  /\ exists g w',
       Pusher.estimateGas calmEnv (Pusher.config cappedPusher) scenario startWorld
       = (Ok g, w')
       /\ trace w' = EvEstimateGas (Pusher.sourceIdsOf scenario)
                       (Pusher.newRatesOf scenario) :: trace startWorld
       /\ (forall m,
             estimateGasCall calmEnv (Pusher.sourceIdsOf scenario)
               (Pusher.newRatesOf scenario) startWorld
             = Failed m -> g = 500000)
       /\ (forall e,
             estimateGasCall calmEnv (Pusher.sourceIdsOf scenario)
               (Pusher.newRatesOf scenario) startWorld
             = Answered e ->
             Pusher.gasLimitMultiplier (Pusher.config cappedPusher) = None ->
             0 <= e <= 2 ^ 48 ->
             6 * e <= 5 * g <= 6 * e + 4).
Proof.
  split; [vm_compute; reflexivity|].
  split; [vm_compute; reflexivity|].
  split; [vm_compute; reflexivity|].
  exact (estimateGas_never_throws calmEnv (Pusher.config cappedPusher) scenario
           startWorld).
Defined.

(** [isAuthorized] never throws: it makes one call and answers [true]
    exactly when the contract answers [true]; a failure of the call counts
    as not authorized. *)
Theorem isAuthorized_never_throws (env : Env) (w : World) :
  exists b w',
    Pusher.isAuthorized env w = (Ok b, w')
    /\ trace w' = EvAuthorizedUpdaters :: trace w
    /\ (b = true <-> authorizedUpdaters env w = Answered true).
Proof.
  unfold Pusher.isAuthorized, try_catch, external, ret.
  destruct (authorizedUpdaters env w) as [[|]|m]; do 2 eexists;
    (split; [reflexivity|]); (split; [reflexivity|]);
    split; intros H; try reflexivity; discriminate H.
Qed.

(** X17: while its breaker is OPEN and the timeout has not elapsed,
    [pushBatchRates] fails with the breaker-open error at once: nothing is
    estimated, read or submitted, and the pusher is unchanged. *)
Theorem pushBatchRates_refused_when_open
  (env : Env) (rates : list RateData) (pusher : Pusher.RatePusher) (w : World) :
  Pusher.state (Pusher.circuitBreaker pusher) = Pusher.OPEN ->
  clock w - Pusher.lastFailureTime (Pusher.circuitBreaker pusher)
  < Pusher.resetTimeoutMs Pusher.breakerConfig ->
  Pusher.pushBatchRates env rates pusher w = (Throw breakerOpenError, pusher, w).
Proof.
  intros Hs Ht. unfold Pusher.pushBatchRates.
  rewrite (execute_open_refuses Pusher.breakerConfig _ _ _ w Hs Ht).
  destruct pusher; reflexivity.
Qed.

Lemma pushBatchRates_refused_when_open_witness :
  Pusher.pushBatchRates calmEnv scenario
    (Pusher.mkPusher (Pusher.config cappedPusher) openedBreaker)
    (mkWorld (clock startWorld + 299999) [])
  = (Throw breakerOpenError,
     Pusher.mkPusher (Pusher.config cappedPusher) openedBreaker,
     mkWorld (clock startWorld + 299999) []).
Proof.
  apply (pushBatchRates_refused_when_open calmEnv scenario
           (Pusher.mkPusher (Pusher.config cappedPusher) openedBreaker)
           (mkWorld (clock startWorld + 299999) [])).
  - reflexivity.
  - simpl. lia.
Defined.

(** X18: when [pushBatchRates] returns, the receipt it returns has status
    1, at least one transaction was submitted, and the breaker is CLOSED
    with no failure counted. *)
Theorem pushBatchRates_returns_confirmed
  (env : Env) (rates : list RateData) (pusher pusher' : Pusher.RatePusher)
  (w w' : World) (r : Receipt) :
  Pusher.pushBatchRates env rates pusher w = (Ok r, pusher', w') ->
  status r = 1
  /\ (submissions w < submissions w')%nat
  /\ Pusher.state (Pusher.circuitBreaker pusher') = Pusher.CLOSED
  /\ Pusher.failureCount (Pusher.circuitBreaker pusher') = 0
  /\ Pusher.config pusher' = Pusher.config pusher.
Proof.
  unfold Pusher.pushBatchRates, Pusher.execute.
  destruct (Pusher.guard Pusher.breakerConfig (clock w) (Pusher.circuitBreaker pusher))
    as [[u|t] cb1] eqn:Hg; [|discriminate].
  destruct (Pusher.withRetry _ _ w) as [[x|e] w1] eqn:Hr; [|discriminate].
  intros H. inversion H; subst. clear H.
  unfold Pusher.withRetry in Hr.
  apply retryLoop_returns_from in Hr; [|apply growing_submitOnce].
  destruct Hr as (wm & Hgrow & Hrun).
  destruct (submitOnce_counts env (Pusher.config pusher) rates wm) as (_ & _ & Hok).
  destruct (Hok _ _ Hrun) as [Hst Hsub].
  apply grows_submissions in Hgrow.
  split; [exact Hst|]. split; [lia|].
  cbn [Pusher.circuitBreaker Pusher.config].
  assert (Hcb1 : Pusher.state cb1 <> Pusher.OPEN).
  { revert Hg. unfold Pusher.guard, Pusher.checkOpen, Pusher.checkHalfOpen.
    destruct (Pusher.circuitBreaker pusher) as [st c l h].
    cbn [Pusher.state Pusher.failureCount Pusher.lastFailureTime
         Pusher.halfOpenAttempts].
    destruct st.
    - intros Hg. inversion Hg; subst. discriminate.
    - destruct (_ >=? _); [|discriminate].
      cbn [Pusher.state Pusher.failureCount Pusher.lastFailureTime
           Pusher.halfOpenAttempts].
      destruct (_ >? _); [discriminate|].
      intros Hg. inversion Hg; subst. discriminate.
    - destruct (_ >? _); [discriminate|].
      intros Hg. inversion Hg; subst. discriminate. }
  unfold Pusher.onSuccess. cbn [Pusher.state].
  destruct (Pusher.state cb1); try contradiction; repeat split.
Qed.

Lemma pushBatchRates_returns_confirmed_witness :
  status (mkReceipt "0xabc" 1 77 90000) = 1
  /\ (submissions startWorld
      < submissions (snd (Pusher.pushBatchRates spikeEnv scenario cappedPusher
                            startWorld)))%nat
  /\ Pusher.state (Pusher.circuitBreaker cappedPusher) = Pusher.CLOSED
  /\ Pusher.failureCount (Pusher.circuitBreaker cappedPusher) = 0
  /\ Pusher.config cappedPusher = Pusher.config cappedPusher.
Proof.
  apply (pushBatchRates_returns_confirmed spikeEnv scenario cappedPusher cappedPusher
           startWorld
           (snd (Pusher.pushBatchRates spikeEnv scenario cappedPusher startWorld))
           (mkReceipt "0xabc" 1 77 90000)).
  reflexivity.
Defined.

(** X19: one call of [pushBatchRates] reads the gas price at most 3 times
    and submits at most 3 transactions, whatever the chain answers. *)
Theorem pushBatchRates_at_most_three
  (env : Env) (rates : list RateData) (pusher : Pusher.RatePusher) (w : World) :
  (submissions w
   <= submissions (snd (Pusher.pushBatchRates env rates pusher w))
   <= submissions w + 3)%nat
  /\ (feeChecks w
      <= feeChecks (snd (Pusher.pushBatchRates env rates pusher w))
      <= feeChecks w + 3)%nat.
Proof.
  pose proof (pushBatchRates_grows env rates pusher w) as Hg.
  pose proof (grows_submissions _ _ Hg) as Hs.
  pose proof (grows_feeChecks _ _ Hg) as Hf.
  revert Hs Hf. clear Hg.
  unfold Pusher.pushBatchRates, Pusher.execute.
  destruct (Pusher.guard _ _ _) as [[u|t] cb1]; cbn [snd]; [|lia].
  unfold Pusher.withRetry.
  change (Z.to_nat (Pusher.maxRetries Pusher.DEFAULT_RETRY_CONFIG)) with 3%nat.
  destruct (retryLoop_counts env (Pusher.config pusher) rates
              Pusher.DEFAULT_RETRY_CONFIG 3 1 ThrownNull w) as [Hs3 Hf3].
  destruct (Pusher.retryLoop _ _ 3 1 ThrownNull w) as [[x|e] w1];
    cbn [snd] in *; lia.
Qed.

Section RevertedTransactions.

Import Pusher.

Variable env : Env.
Variable cfg : PushConfig.
Variable rates : list RateData.

Hypothesis Hfee : forall w, exists fee,
  getFeeData env w = Answered fee
  /\ gasPriceTooHigh cfg (match fee with Some p => p | None => 0 end) = false.
Hypothesis Hsubmit : forall ids rs g w, exists hash,
  batchUpdateRates env ids rs g w = Answered hash.
Hypothesis Hwait : forall hash w,
  wait env hash w = Answered None
  \/ exists r, wait env hash w = Answered (Some r) /\ status r <> 1.

(** An attempt whose transaction is not confirmed with status 1 has
    submitted it all the same, and raises. *)
Lemma submitOnce_reverted (w : World) :
  exists hash w1,
    submitOnce env cfg rates w = (Throw (Err (TransactionFailed hash)), w1)
    /\ submissions w1 = S (submissions w).
Proof.
  destruct (estimateGas_run env cfg rates w) as (g0 & Hg).
  unfold submitOnce. rewrite (bind_ok _ _ _ _ _ _ _ Hg).
  unfold bind, external, ret, throw, afterEstimate.
  cbn iota beta;
    match goal with |- context [getFeeData env ?x] =>
      destruct (Hfee x) as (fee & Hf & Hok); rewrite Hf end;
    cbn iota beta; rewrite Hok;
    match goal with |- context [batchUpdateRates env ?a ?b ?c ?x] =>
      destruct (Hsubmit a b c x) as (hash & Hh); rewrite Hh end;
    cbn iota beta;
    match goal with |- context [wait env ?h ?x] =>
      destruct (Hwait h x) as [Hw|(r & Hw & Hst)]; rewrite Hw end;
    cbn iota beta;
    try (destruct (Z.eqb_spec (status r) 1); [contradiction|]; cbn [negb]);
    exists hash; eexists; (split; [reflexivity|]); reflexivity.
Qed.

End RevertedTransactions.

(** X20: a transaction that is mined without status 1 (or for which no
    receipt comes back) is treated as a failed attempt and the batch is
    submitted again: when every transaction ends that way,
    [pushBatchRates] submits 3 transactions, throws the transaction-failed
    error and counts one failure on the breaker. *)
Theorem reverted_transaction_is_resubmitted
  (env : Env) (rates : list RateData) (pusher : Pusher.RatePusher) (w : World) :
  Pusher.state (Pusher.circuitBreaker pusher) = Pusher.CLOSED ->
  (forall w, exists fee,
      getFeeData env w = Answered fee
      /\ Pusher.gasPriceTooHigh (Pusher.config pusher)
           (match fee with Some p => p | None => 0 end) = false) ->
  (forall ids rs g w, exists hash, batchUpdateRates env ids rs g w = Answered hash) ->
  (forall hash w,
      wait env hash w = Answered None
      \/ exists r, wait env hash w = Answered (Some r) /\ status r <> 1) ->
  exists hash pusher' w',
    Pusher.pushBatchRates env rates pusher w
    = (Throw (Err (TransactionFailed hash)), pusher', w')
    /\ submissions w' = (submissions w + 3)%nat
    /\ Pusher.failureCount (Pusher.circuitBreaker pusher')
       = Pusher.failureCount (Pusher.circuitBreaker pusher) + 1.
Proof.
  intros Hclosed Hfee Hsubmit Hwait.
  unfold Pusher.pushBatchRates, Pusher.execute, Pusher.guard,
    Pusher.checkOpen, Pusher.checkHalfOpen.
  rewrite Hclosed. rewrite Hclosed.
  unfold Pusher.withRetry.
  change (Z.to_nat (Pusher.maxRetries Pusher.DEFAULT_RETRY_CONFIG)) with 3%nat.
  cbn [Pusher.retryLoop].
  destruct (submitOnce_reverted env _ rates Hfee Hsubmit Hwait w)
    as (h1 & wa & Ha & Hsa).
  rewrite Ha. change (1 <? Pusher.maxRetries Pusher.DEFAULT_RETRY_CONFIG) with true.
  cbn iota.
  destruct (submitOnce_reverted env _ rates Hfee Hsubmit Hwait
              (sleep (Pusher.retryDelay Pusher.DEFAULT_RETRY_CONFIG 1) wa))
    as (h2 & wb & Hb & Hsb).
  rewrite Hb.
  change (1 + 1 <? Pusher.maxRetries Pusher.DEFAULT_RETRY_CONFIG) with true.
  cbn iota.
  destruct (submitOnce_reverted env _ rates Hfee Hsubmit Hwait
              (sleep (Pusher.retryDelay Pusher.DEFAULT_RETRY_CONFIG (1 + 1)) wb))
    as (h3 & wc & Hc & Hsc).
  rewrite Hc.
  change (1 + 1 + 1 <? Pusher.maxRetries Pusher.DEFAULT_RETRY_CONFIG) with false.
  cbn iota. unfold throw.
  exists h3. do 2 eexists. split; [reflexivity|]. split.
  - rewrite Hsc. change (submissions (sleep _ wb)) with (submissions wb).
    rewrite Hsb. change (submissions (sleep _ wa)) with (submissions wa).
    rewrite Hsa. lia.
  - cbn [Pusher.circuitBreaker]. unfold Pusher.onFailure.
    cbn [Pusher.failureCount].
    destruct (_ >=? _); reflexivity.
Qed.

Lemma reverted_transaction_is_resubmitted_witness :
  Pusher.pushBatchRates revertEnv threeSources cappedPusher startWorld
  = (Throw (Err (TransactionFailed "0xdef")),
     Pusher.mkPusher (Pusher.config cappedPusher)
       (Pusher.mkBreaker Pusher.CLOSED 1 1700000006060 0),
     mkWorld 1700000006060
       [ EvWait "0xdef"; EvBatchUpdateRates [0; 1; 2] [350; 450; 460] 120000;
         EvGetFeeData; EvEstimateGas [0; 1; 2] [350; 450; 460]; EvSleep 4000;
         EvWait "0xdef"; EvBatchUpdateRates [0; 1; 2] [350; 450; 460] 120000;
         EvGetFeeData; EvEstimateGas [0; 1; 2] [350; 450; 460]; EvSleep 2000;
         EvWait "0xdef"; EvBatchUpdateRates [0; 1; 2] [350; 450; 460] 120000;
         EvGetFeeData; EvEstimateGas [0; 1; 2] [350; 450; 460] ])
  /\ exists hash pusher' w',
       Pusher.pushBatchRates revertEnv threeSources cappedPusher startWorld
       = (Throw (Err (TransactionFailed hash)), pusher', w')
       /\ submissions w' = (submissions startWorld + 3)%nat
       /\ Pusher.failureCount (Pusher.circuitBreaker pusher')
          = Pusher.failureCount (Pusher.circuitBreaker cappedPusher) + 1.
Proof.
  split; [reflexivity|].
  apply (reverted_transaction_is_resubmitted revertEnv threeSources cappedPusher
           startWorld).
  - reflexivity.
  - intros w. exists (Some 10). split; reflexivity.
  - intros ids rs g w. exists "0xdef"%string. reflexivity.
  - intros hash w. right. exists (mkReceipt hash 0 78 21000).
    split; [reflexivity|]. simpl. discriminate.
Defined.

Lemma dryRun_quiet
  (env : Env) (rates : list RateData) (pusher : Pusher.RatePusher) (w : World) :
  exists w',
    Pusher.dryRun env rates pusher w = (Ok tt, w')
    /\ submissions w' = submissions w
    /\ feeChecks w' = feeChecks w
    /\ (List.length (chainCalls w) + 1
        <= List.length (chainCalls w')
        <= List.length (chainCalls w) + 4)%nat.
Proof.
  unfold Pusher.dryRun, Pusher.isAuthorized, Pusher.getCurrentDOR,
    Pusher.getAllSources, Pusher.estimateGas, try_catch, bind, external, ret.
  destruct (authorizedUpdaters env w); cbn iota beta;
    match goal with |- context [getDOR env ?x] => destruct (getDOR env x) end;
    cbn iota beta;
    try match goal with |- context [getAllRateSources env ?x] =>
          destruct (getAllRateSources env x) end;
    cbn iota beta;
    try match goal with |- context [estimateGasCall env ?a ?b ?x] =>
          destruct (estimateGasCall env a b x) end;
    cbn iota beta;
    try match goal with |- context [Pusher.bigIntCeil ?x] => destruct x end;
    cbn [Pusher.bigIntCeil]; unfold ret, throw; cbn iota beta;
    eexists; (split; [reflexivity|]);
    (split; [reflexivity|]); (split; [reflexivity|]);
    unfold chainCalls; cbn [trace filter isChainEvent List.length]; lia.
Qed.

(** X21: [dryRun] never throws and sends no transaction: it makes between
    one and four calls to the chain (the authorization, the current rate,
    the sources, the gas estimate, stopping at the first of the middle two
    that fails), and neither reads the gas price nor submits. *)
Theorem dryRun_sends_nothing
  (env : Env) (rates : list RateData) (pusher : Pusher.RatePusher) (w : World) :
  exists w',
    Pusher.dryRun env rates pusher w = (Ok tt, w')
    /\ submissions w' = submissions w
    /\ feeChecks w' = feeChecks w
    /\ (List.length (chainCalls w) + 1
        <= List.length (chainCalls w')
        <= List.length (chainCalls w) + 4)%nat.
Proof. exact (dryRun_quiet env rates pusher w). Qed.

(** ** Confinement of effects *)

Section Confinement.

Variable P : Event -> bool.

Lemma addsOnly_refl (w : World) : addsOnly P w w.
Proof. exists []. split; reflexivity. Qed.

Lemma addsOnly_trans (w1 w2 w3 : World) :
  addsOnly P w1 w2 -> addsOnly P w2 w3 -> addsOnly P w1 w3.
Proof.
  intros (a & Ha & Pa) (b & Hb & Pb). exists (b ++ a). split.
  - rewrite Hb, Ha. apply app_assoc.
  - rewrite forallb_app, Pa, Pb. reflexivity.
Qed.


Lemma confined_ret (A : Type) (a : A) : confined P (ret a).
Proof. intros w. apply addsOnly_refl. Qed.

Lemma confined_throw (A : Type) (t : Thrown) : confined P (@throw A t).
Proof. intros w. apply addsOnly_refl. Qed.

Lemma confined_external (A : Type) (env : Env) (ev : Event)
  (answer : World -> Answer A) :
  P ev = true -> confined P (external env ev answer).
Proof.
  intros Hev w. unfold external. exists [ev]. cbn [forallb]. rewrite Hev.
  destruct (answer w); split; reflexivity.
Qed.

Lemma confined_bind (A B : Type) (c : Async A) (k : A -> Async B) :
  confined P c -> (forall a, confined P (k a)) -> confined P (bind c k).
Proof.
  intros Hc Hk w. unfold bind. specialize (Hc w).
  destruct (c w) as [[a|t] w1]; cbn [snd] in *; trivial.
  eapply addsOnly_trans; [exact Hc|apply Hk].
Qed.

Lemma confined_try_catch (A : Type) (c : Async A) (h : Thrown -> Async A) :
  confined P c -> (forall t, confined P (h t)) -> confined P (try_catch c h).
Proof.
  intros Hc Hh w. unfold try_catch. specialize (Hc w).
  destruct (c w) as [[a|t] w1]; cbn [snd] in *; trivial.
  eapply addsOnly_trans; [exact Hc|apply Hh].
Qed.


Lemma confined_collectors_retryLoop (T : Type) (fn : Async T)
  (config : Collectors.CollectorConfig) :
  (forall d, P (EvSleep d) = true) ->
  confined P fn ->
  forall turns attempt lastError,
    confined P (Collectors.retryLoop fn config turns attempt lastError).
Proof.
  intros Hsleep Hfn. induction turns as [|k IH]; intros attempt lastError w; simpl.
  - apply addsOnly_refl.
  - specialize (Hfn w). destruct (fn w) as [[v|e] w1]; cbn [snd] in *; trivial.
    eapply addsOnly_trans; [exact Hfn|].
    eapply addsOnly_trans; [|apply IH].
    destruct (attempt <? Collectors.maxRetries config); [|apply addsOnly_refl].
    eexists [EvSleep _]. cbn [forallb].
    rewrite Hsleep. split; reflexivity.
Qed.

Lemma confined_trySources (A : Type) (attempts : list (Async A)) (fallback : Async A) :
  Forall (confined P) attempts ->
  confined P fallback ->
  confined P (Collectors.trySources attempts fallback).
Proof.
  intros Hall Hfb. induction Hall as [|c cs Hc _ IH]; intros w; simpl.
  - apply Hfb.
  - specialize (Hc w). destruct (c w) as [[v|[|e]] w1]; cbn [snd] in *; trivial.
    eapply addsOnly_trans; [exact Hc|apply IH].
Qed.

End Confinement.

Section ConfinedPusher.

Variable env : Env.

Lemma confined_estimateGas cfg rates :
  confined isChainEvent (Pusher.estimateGas env cfg rates).
Proof.
  unfold Pusher.estimateGas. apply confined_try_catch.
  - apply confined_bind; [now apply confined_external|intros e].
    destruct (d_mul (ofZ e) (Pusher.multiplierOf cfg));
      [apply confined_ret|apply confined_throw|apply confined_throw].
  - intros; apply confined_ret.
Qed.

Lemma confined_isAuthorized : confined isChainEvent (Pusher.isAuthorized env).
Proof.
  unfold Pusher.isAuthorized. apply confined_try_catch.
  - now apply confined_external.
  - intros; apply confined_ret.
Qed.


Lemma confined_dryRun rates pusher :
  confined isChainEvent (Pusher.dryRun env rates pusher).
Proof.
  unfold Pusher.dryRun. apply confined_try_catch.
  - apply confined_bind; [apply confined_isAuthorized|intros isAuth].
    apply confined_bind; [now apply confined_external|intros currentDOR].
    apply confined_bind; [now apply confined_external|intros sources].
    apply confined_bind; [apply confined_estimateGas|intros g].
    apply confined_ret.
  - intros; apply confined_ret.
Qed.



End ConfinedPusher.

Lemma addsOnly_count (P Q : Event -> bool) (w w' : World) :
  (forall ev, P ev = true -> Q ev = false) ->
  addsOnly P w w' ->
  List.length (filter Q (trace w')) = List.length (filter Q (trace w)).
Proof.
  intros HPQ (a & Ha & Pa). rewrite Ha, filter_app, length_app.
  assert (Hnil : filter Q a = []).
  { clear Ha. rewrite forallb_forall in Pa.
    induction a as [|x xs IH]; simpl; trivial.
    rewrite (HPQ x) by (apply Pa; now left).
    apply IH. intros y Hy. apply Pa. now right. }
  rewrite Hnil. reflexivity.
Qed.

Lemma addsOnly_lastSaved (P : Event -> bool) (w w' : World) :
  (forall ev, P ev = true -> isDbSave ev = false) ->
  addsOnly P w w' -> lastSaved w' = lastSaved w.
Proof.
  intros HP (a & Ha & Pa). unfold lastSaved. rewrite Ha.
  clear Ha. rewrite forallb_forall in Pa.
  induction a as [|x xs IH]; simpl; trivial.
  assert (Hx : isDbSave x = false) by (apply HP, Pa; now left).
  destruct x; try discriminate Hx; apply IH; intros y Hy; apply Pa; now right.
Qed.

(** ** The update cycle, continued *)

Section CycleMore.

Variable env : Env.
Variable cfg : Oracle.Config.

Lemma chain_is_not_save (ev : Event) : isChainOrSleep ev = true -> isDbSave ev = false.
Proof. destruct ev; simpl; intros H; trivial; discriminate H. Qed.

Lemma chain_is_chainOrSleep (ev : Event) :
  isChainEvent ev = true -> isChainOrSleep ev = true.
Proof. intros H. unfold isChainOrSleep. now rewrite H. Qed.


End CycleMore.



(** X23: a dry-run cycle submits no transaction and hands no record to the
    database, whatever is collected and whatever the outside answers. *)
Theorem dry_run_cycle_writes_nothing
  (env : Env) (cfg : Oracle.Config) (collect : Async (list RateData)) (w : World) :
  submissions (snd (Oracle.runUpdateWith env cfg collect true w))
  = submissions (snd (collect w))
  /\ dbSaves (snd (Oracle.runUpdateWith env cfg collect true w))
     = dbSaves (snd (collect w)).
Proof.
  assert (Htry : forall o l w2,
            Oracle.tryBlock env cfg collect true w = (o, l, w2) ->
            submissions w2 = submissions (snd (collect w))
            /\ dbSaves w2 = dbSaves (snd (collect w))).
  { intros o l w2. unfold Oracle.tryBlock.
    destruct (collect w) as [[rates|t] w1]; cbn [snd].
    2:{ intros H; inversion H; subst; split; reflexivity. }
    destruct (zlength rates =? 0).
    { intros H; inversion H; subst; split; reflexivity. }
    destruct (negb (isValid (Collectors.validateRates (clock w1) rates))).
    { intros H; inversion H; subst; split; reflexivity. }
    destruct (Oracle.truthy (Oracle.oracleAddress cfg)
              && Oracle.truthy (Oracle.privateKey cfg)).
    2:{ intros H; inversion H; subst; split; reflexivity. }
    destruct (Oracle.newPusher env cfg) as [pusher|refused].
    2:{ intros H; inversion H; subst; split; reflexivity. }
    destruct (dryRun_quiet env rates pusher w1)
      as (w' & Hrun & Hsub & _).
    pose proof (confined_dryRun env rates pusher w1) as Hconf.
    rewrite Hrun in *. cbn [snd] in Hconf.
    intros H; inversion H; subst. split; [exact Hsub|].
    unfold dbSaves. eapply addsOnly_count; [|exact Hconf].
    intros ev Hev. apply chain_is_not_save, chain_is_chainOrSleep, Hev. }
  assert (Hcatch : forall l w2,
            submissions (snd (Oracle.catchBlock env cfg l w2)) = submissions w2
            /\ dbSaves (snd (Oracle.catchBlock env cfg l w2)) = dbSaves w2).
  { intros l w2. unfold Oracle.catchBlock, bind, external, ret.
    destruct (Oracle.useDatabase cfg && (zlength (Oracle.rates l) >? 0));
      [|split; reflexivity].
    destruct (dbLog env w2); split; reflexivity. }
  unfold Oracle.runUpdateWith.
  destruct (Oracle.tryBlock env cfg collect true w) as [[[u|[|e]] l] w2];
    destruct (Htry _ _ _ eq_refl) as [Hs Hd].
  - unfold Oracle.finallyBlock. cbn [negb andb ret snd]. split; assumption.
  - unfold Oracle.finallyBlock. cbn [negb andb ret snd]. split; assumption.
  - cbv zeta.
    match goal with |- context [Oracle.catchBlock env cfg ?l1 w2] =>
      destruct (Hcatch l1 w2) as [Hcs Hcd];
      destruct (Oracle.catchBlock env cfg l1 w2) as [caught w3]
    end.
    cbn [snd] in *. unfold Oracle.finallyBlock. cbn [negb andb ret snd].
    split; congruence.
Qed.

(** X24: in live mode, when the set is valid, the wallet library accepts
    the configured key and the contract does not answer that the wallet is
    authorized (it answers [false], or the call fails), the cycle fails
    after that one call to the chain: the current rate is not read and
    nothing is submitted.  With the database disabled the error is the
    not-authorized error. *)
Theorem unauthorized_wallet_never_pushes
  (env : Env) (cfg : Oracle.Config) (collect : Async (list RateData))
  (w w1 : World) (rates : list RateData) :
  collect w = (Ok rates, w1) ->
  isValid (Collectors.validateRates (clock w1) rates) = true ->
  Oracle.truthy (Oracle.oracleAddress cfg) = true ->
  Oracle.truthy (Oracle.privateKey cfg) = true ->
  walletAccepts env (Oracle.privateKey cfg) = true ->
  authorizedUpdaters env w1 <> Answered true ->
  exists t w',
    Oracle.runUpdateWith env cfg collect false w = (Throw t, w')
    /\ chainCalls w' = EvAuthorizedUpdaters :: chainCalls w1
    /\ (Oracle.useDatabase cfg = false ->
        t = Err (Failure "Wallet is not authorized to update rates")).
Proof.
  intros Hc Hvalid Haddr Hkey Hwallet Hauth.
  assert (Hlen : 3 <= zlength rates).
  { destruct (Z.ltb_spec (zlength rates) 3) as [Hlt|Hge]; [|exact Hge].
    destruct (too_few_sources_invalid (clock w1) rates Hlt) as [Hno _].
    congruence. }
  eassert (Htry : Oracle.tryBlock env cfg collect false w
                 = (Throw (Err (Failure "Wallet is not authorized to update rates")),
                    _, mkWorld (clock w1 + latency env w1)
                         (EvAuthorizedUpdaters :: trace w1))).
  { unfold Oracle.tryBlock. rewrite Hc.
    destruct (Z.eqb_spec (zlength rates) 0); [lia|].
    rewrite Hvalid, Haddr, Hkey. cbn [negb].
    unfold Oracle.newPusher, Pusher.newRatePusher.
    cbn [Oracle.pushConfigOf Pusher.privateKey]. rewrite Hwallet.
    unfold Pusher.isAuthorized, try_catch, external, ret.
    destruct (authorizedUpdaters env w1) as [[|]|m]; try reflexivity.
    congruence. }
  unfold Oracle.runUpdateWith. rewrite Htry. cbv zeta.
  match goal with |- context [Oracle.catchBlock env cfg ?l1 ?x] =>
    destruct (catchBlock_quiet env cfg l1 x) as (o & w2 & Hcb & Hcalls);
    assert (Hnodb : Oracle.useDatabase cfg = false ->
                    Oracle.catchBlock env cfg l1 x = (Ok tt, x))
  end.
  { intros Hdb. unfold Oracle.catchBlock. rewrite Hdb. reflexivity. }
  rewrite Hcb.
  match goal with |- context [Oracle.finallyBlock env cfg false ?l1 w2] =>
    destruct (finallyBlock_quiet env cfg false l1 w2) as (w3 & Hf & Hcalls')
  end.
  rewrite Hf. do 2 eexists. split; [reflexivity|]. split.
  - rewrite Hcalls', Hcalls. reflexivity.
  - intros Hdb. rewrite (Hnodb Hdb) in Hcb. inversion Hcb. reflexivity.
Qed.

Lemma unauthorized_wallet_never_pushes_witness :
  exists t w',
    Oracle.runUpdateWith deadEnv demoConfig (ret scenario) false startWorld
    = (Throw t, w')
    /\ chainCalls w' = EvAuthorizedUpdaters :: chainCalls startWorld
    /\ (Oracle.useDatabase demoConfig = false ->
        t = Err (Failure "Wallet is not authorized to update rates")).
Proof.
  apply (unauthorized_wallet_never_pushes deadEnv demoConfig (ret scenario)
           startWorld startWorld scenario); try reflexivity.
  discriminate.
Defined.

(** X25: in live mode, with no oracle address or no private key
    configured, a cycle with a valid set fails without one call to the
    chain; with the database disabled the error names the missing
    setting, the address first. *)
Theorem missing_configuration_never_pushes
  (env : Env) (cfg : Oracle.Config) (collect : Async (list RateData))
  (w w1 : World) (rates : list RateData) :
  collect w = (Ok rates, w1) ->
  isValid (Collectors.validateRates (clock w1) rates) = true ->
  Oracle.oracleAddress cfg = ""%string \/ Oracle.privateKey cfg = ""%string ->
  exists t w',
    Oracle.runUpdateWith env cfg collect false w = (Throw t, w')
    /\ chainCalls w' = chainCalls w1
    /\ (Oracle.useDatabase cfg = false ->
        t = Err (Failure (if String.eqb (Oracle.oracleAddress cfg) ""
                          then "ORACLE_ADDRESS not set"
                          else "PRIVATE_KEY not set"))).
Proof.
  intros Hc Hvalid Hmissing.
  assert (Hlen : 3 <= zlength rates).
  { apply (validateRates_validity (clock w1) rates) in Hvalid. tauto. }
  eassert (Htry : Oracle.tryBlock env cfg collect false w
                 = (Throw (Err (Failure (if String.eqb (Oracle.oracleAddress cfg) ""
                                         then "ORACLE_ADDRESS not set"
                                         else "PRIVATE_KEY not set"))), _, w1)).
  { unfold Oracle.tryBlock. rewrite Hc.
    destruct (Z.eqb_spec (zlength rates) 0); [lia|].
    rewrite Hvalid. cbn [negb]. unfold Oracle.truthy.
    destruct (String.eqb_spec (Oracle.oracleAddress cfg) ""); cbn [negb];
      [reflexivity|].
    destruct (String.eqb_spec (Oracle.privateKey cfg) ""); cbn [negb];
      [reflexivity|].
    destruct Hmissing; contradiction. }
  unfold Oracle.runUpdateWith. rewrite Htry. cbv zeta.
  match goal with |- context [Oracle.catchBlock env cfg ?l1 ?x] =>
    destruct (catchBlock_quiet env cfg l1 x) as (o & w2 & Hcb & Hcalls);
    assert (Hnodb : Oracle.useDatabase cfg = false ->
                    Oracle.catchBlock env cfg l1 x = (Ok tt, x))
  end.
  { intros Hdb. unfold Oracle.catchBlock. rewrite Hdb. reflexivity. }
  rewrite Hcb.
  match goal with |- context [Oracle.finallyBlock env cfg false ?l1 w2] =>
    destruct (finallyBlock_quiet env cfg false l1 w2) as (w3 & Hf & Hcalls')
  end.
  rewrite Hf. do 2 eexists. split; [reflexivity|]. split.
  - rewrite Hcalls', Hcalls. reflexivity.
  - intros Hdb. rewrite (Hnodb Hdb) in Hcb. inversion Hcb. reflexivity.
Qed.

Lemma missing_configuration_never_pushes_witness :
  exists t w',
    Oracle.runUpdateWith calmEnv
      (Oracle.mkConfig "http://localhost:8545" "" "0x02" "0 */6 * * *" false false)
      (ret scenario) false startWorld
    = (Throw t, w')
    /\ chainCalls w' = chainCalls startWorld
    /\ (false = false -> t = Err (Failure "PRIVATE_KEY not set")).
Proof.
  apply (missing_configuration_never_pushes calmEnv
           (Oracle.mkConfig "http://localhost:8545" "" "0x02" "0 */6 * * *" false false)
           (ret scenario) startWorld startWorld scenario).
  - reflexivity.
  - reflexivity.
  - right. reflexivity.
Defined.

(** ** Collectors, continued *)

Section CollectMore.

Variable env : Env.
Variable config : Collectors.CollectorConfig.
Hypothesis Hattempts : 1 <= Collectors.maxRetries config.

Lemma collectorOf_returns (s : RateSourceId) :
  alwaysReturns (collectorOf s env config)
  /\ returnsOnly (fun r => sourceId r = s) (collectorOf s env config).
Proof.
  destruct s; cbn [collectorOf];
    first [ apply collectParsed_returns | apply collectApi_returns ];
    exact Hattempts.
Qed.

Lemma collectorOf_runs (s : RateSourceId) (w : World) :
  exists r w', collectorOf s env config w = (Ok r, w') /\ sourceId r = s.
Proof.
  destruct (collectorOf_returns s) as [Hret Hid].
  destruct (Hret w) as (r & w' & Hrun).
  exists r, w'. split; [exact Hrun|exact (Hid _ _ _ Hrun)].
Qed.

Lemma collectorOf_fallback (s : RateSourceId) (w : World) :
  allEndpointsFail env ->
  exists w',
    collectorOf s env config w
    = (Ok (mkRate s (labelOf s) (fallbackRate s) (clock w') "Fallback" false), w').
Proof.
  intros Hdown.
  destruct s; cbn [collectorOf labelOf fallbackRate];
    first [ apply collectParsed_fallback | apply collectApi_fallback ];
    assumption.
Qed.

End CollectMore.

(** X26: with at least one attempt configured, [collectAllRates] returns
    exactly five observations, one per source in the order of the enum,
    whatever the endpoints do; so their weights add up to 10,000 and
    validation never reports too few sources. *)
Theorem collectAllRates_returns_five
  (env : Env) (config : Collectors.CollectorConfig) (w : World) :
  1 <= Collectors.maxRetries config ->
  exists rates w',
    Collectors.collectAllRates env config w = (Ok rates, w')
    /\ map sourceId rates = allSources
    /\ totalWeight rates = 10000
    /\ forall now k,
         ~ In (EMinSources k) (errors (Collectors.validateRates now rates)).
Proof.
  intros Hm.
  unfold Collectors.collectAllRates, Collectors.collectAllRatesOf.
  cbn [Collectors.allSettled].
  destruct (collectorOf_runs env config Hm TESR w) as (r1 & w1 & H1 & I1).
  cbn [collectorOf] in H1. rewrite H1.
  destruct (collectorOf_runs env config Hm METH w1) as (r2 & w2 & H2 & I2).
  cbn [collectorOf] in H2. rewrite H2.
  destruct (collectorOf_runs env config Hm SOFR w2) as (r3 & w3 & H3 & I3).
  cbn [collectorOf] in H3. rewrite H3.
  destruct (collectorOf_runs env config Hm AAVE_USDT w3) as (r4 & w4 & H4 & I4).
  cbn [collectorOf] in H4. rewrite H4.
  destruct (collectorOf_runs env config Hm ONDO_USDY w4) as (r5 & w5 & H5 & I5).
  cbn [collectorOf] in H5. rewrite H5.
  exists [r1; r2; r3; r4; r5], w5.
  assert (Hids : map sourceId [r1; r2; r3; r4; r5] = allSources).
  { cbn [map]. rewrite I1, I2, I3, I4, I5. reflexivity. }
  split; [reflexivity|]. split; [exact Hids|]. split.
  - rewrite totalWeight_sum, Hids. reflexivity.
  - intros now k Hin. rewrite validateRates_unfold in Hin. cbn [errors] in Hin.
    change (zlength [r1; r2; r3; r4; r5] <? 3) with false in Hin.
    cbn [app] in Hin. apply in_flat_map in Hin. destruct Hin as (r & _ & Hin).
    unfold negativeError in Hin. destruct (rate r <? 0); simpl in Hin;
      intuition discriminate.
Qed.

Lemma collectAllRates_returns_five_witness :
  exists rates w',
    Collectors.collectAllRates deadEnv Collectors.DEFAULT_CONFIG startWorld
    = (Ok rates, w')
    /\ map sourceId rates = allSources
    /\ totalWeight rates = 10000
    /\ forall now k,
         ~ In (EMinSources k) (errors (Collectors.validateRates now rates)).
Proof.
  apply (collectAllRates_returns_five deadEnv Collectors.DEFAULT_CONFIG startWorld).
  simpl. lia.
Defined.

(** X27: when no endpoint yields a number, [collectAllRates] returns the
    five hardcoded fallback observations (350, 450, 460, 550 and 500 bps,
    not live, from "Fallback"); this set passes validation, with the
    warning that 5 sources use fallback values, and its reference rate is
    453. *)
Theorem total_outage_yields_fallback_rate
  (env : Env) (config : Collectors.CollectorConfig) (w : World) :
  1 <= Collectors.maxRetries config ->
  allEndpointsFail env ->
  exists rates w',
    Collectors.collectAllRates env config w = (Ok rates, w')
    /\ map forgetTimestamp rates = allFallback
    /\ Collectors.calculateDOR rates = Finite 453
    /\ forall now,
         isValid (Collectors.validateRates now rates) = true
         /\ In (WFallback 5) (warnings (Collectors.validateRates now rates)).
Proof.
  intros Hm Hdown.
  unfold Collectors.collectAllRates, Collectors.collectAllRatesOf.
  cbn [Collectors.allSettled].
  destruct (collectorOf_fallback env config Hm TESR w Hdown) as (w1 & H1).
  cbn [collectorOf] in H1. rewrite H1.
  destruct (collectorOf_fallback env config Hm METH w1 Hdown) as (w2 & H2).
  cbn [collectorOf] in H2. rewrite H2.
  destruct (collectorOf_fallback env config Hm SOFR w2 Hdown) as (w3 & H3).
  cbn [collectorOf] in H3. rewrite H3.
  destruct (collectorOf_fallback env config Hm AAVE_USDT w3 Hdown) as (w4 & H4).
  cbn [collectorOf] in H4. rewrite H4.
  destruct (collectorOf_fallback env config Hm ONDO_USDY w4 Hdown) as (w5 & H5).
  cbn [collectorOf] in H5. rewrite H5.
  do 2 eexists. split; [reflexivity|].
  cbn [Collectors.fulfilled fold_left app labelOf fallbackRate].
  split; [reflexivity|]. split; [reflexivity|].
  intros now. split.
  - apply validateRates_validity. split; [unfold zlength; simpl; lia|].
    repeat constructor; simpl; lia.
  - apply fallback_warning_iff. split; [reflexivity|reflexivity].
Qed.

Lemma total_outage_yields_fallback_rate_witness :
  exists rates w',
    Collectors.collectAllRates deadEnv Collectors.DEFAULT_CONFIG startWorld
    = (Ok rates, w')
    /\ map forgetTimestamp rates = allFallback
    /\ Collectors.calculateDOR rates = Finite 453
    /\ forall now,
         isValid (Collectors.validateRates now rates) = true
         /\ In (WFallback 5) (warnings (Collectors.validateRates now rates)).
Proof.
  apply (total_outage_yields_fallback_rate deadEnv Collectors.DEFAULT_CONFIG
           startWorld).
  - simpl. lia.
  - intros u w. exact I.
Defined.

(** X28: when the first endpoint of a source answers at the first
    request with a number that is not zero, the collector returns at once:
    one HTTP request, no wait, and a live observation whose [source] names
    that endpoint and whose rate is [Math.round] of the product of the
    doubles of that percentage and of 100 (a rate [bps] that is finite). *)
Theorem primary_endpoint_wins
  (env : Env) (config : Collectors.CollectorConfig) (s : RateSourceId)
  (w : World) (p : Q) (bps : Z) :
  1 <= Collectors.maxRetries config ->
  http env (primaryUrl s) w = Answered (Some p) ->
  truthyNumber (round64 p) = true ->
  Math_round (d_mul (round64 p) (ofZ 100)) = Finite bps ->
  collectorOf s env config w
  = (Ok (mkRate s (labelOf s) bps (clock w + latency env w)
           (primaryOrigin s) true),
     mkWorld (clock w + latency env w) (EvHttpGet (primaryUrl s) :: trace w)).
Proof.
  intros Hm Hhttp Hnz Hbps.
  assert (Hrate : Collectors.toBps p = bps).
  { unfold Collectors.toBps, Collectors.toBpsNumber. rewrite Hbps. reflexivity. }
  destruct s; cbn [collectorOf labelOf primaryUrl primaryOrigin] in *;
    unfold Collectors.collectTESR, Collectors.collectMETH, Collectors.collectSOFR,
      Collectors.collectAaveUSDT, Collectors.collectOndoUSDY,
      Collectors.collectParsed, Collectors.collectApi;
    cbn [map Collectors.trySources];
    unfold Collectors.parsedAttempt, Collectors.apiAttempt, bind,
      Collectors.withRetry;
    (destruct (Z.to_nat (Collectors.maxRetries config)) as [|k] eqn:Hk; [lia|]);
    cbn [Collectors.retryLoop];
    unfold Collectors.fetchParsed, Collectors.fetchApi, bind, Collectors.httpGet,
      external;
    cbn [Collectors.url Collectors.apiUrl Collectors.host Collectors.rejectsZero];
    rewrite Hhttp; cbn iota beta; rewrite ?Hnz; cbn [negb andb];
    unfold now, ret; rewrite Hrate; reflexivity.
Qed.

Lemma primary_endpoint_wins_witness :
  collectorOf METH (quotingEnv (435 # 100)) Collectors.DEFAULT_CONFIG startWorld
  = (Ok (mkRate METH "mETH" 435 1700000000120 "Mantle API" true),
     mkWorld 1700000000120
       [EvHttpGet "https://staking-api.mantle.xyz/api/v1/stats"])
  /\ collectorOf METH (quotingEnv (1005 # 1000)) Collectors.DEFAULT_CONFIG startWorld
     = (Ok (mkRate METH "mETH" 100 1700000000120 "Mantle API" true),
        mkWorld 1700000000120
          [EvHttpGet "https://staking-api.mantle.xyz/api/v1/stats"]).
Proof.
  split.
  - apply (primary_endpoint_wins (quotingEnv (435 # 100))
             Collectors.DEFAULT_CONFIG METH startWorld (435 # 100) 435).
    + simpl. lia.
    + reflexivity.
    + vm_compute. reflexivity.
    + vm_compute. reflexivity.
  - apply (primary_endpoint_wins (quotingEnv (1005 # 1000))
             Collectors.DEFAULT_CONFIG METH startWorld (1005 # 1000) 100).
    + simpl. lia.
    + reflexivity.
    + vm_compute. reflexivity.
    + vm_compute. reflexivity.
Defined.

(** ** A cycle during a total outage *)

Section Outage.

Variable env : Env.

Lemma collectAllRates_outage (config : Collectors.CollectorConfig) (w : World) :
  1 <= Collectors.maxRetries config ->
  allEndpointsFail env ->
  exists t1 t2 t3 t4 t5 w',
    Collectors.collectAllRates env config w
    = (Ok [ mkRate TESR "TESR" 350 t1 "Fallback" false;
            mkRate METH "mETH" 450 t2 "Fallback" false;
            mkRate SOFR "SOFR" 460 t3 "Fallback" false;
            mkRate AAVE_USDT "Aave_USDT" 550 t4 "Fallback" false;
            mkRate ONDO_USDY "Ondo_USDY" 500 t5 "Fallback" false ], w').
Proof.
  intros Hm Hdown.
  unfold Collectors.collectAllRates, Collectors.collectAllRatesOf.
  cbn [Collectors.allSettled].
  destruct (collectorOf_fallback env config Hm TESR w Hdown) as (w1 & H1).
  cbn [collectorOf] in H1. rewrite H1.
  destruct (collectorOf_fallback env config Hm METH w1 Hdown) as (w2 & H2).
  cbn [collectorOf] in H2. rewrite H2.
  destruct (collectorOf_fallback env config Hm SOFR w2 Hdown) as (w3 & H3).
  cbn [collectorOf] in H3. rewrite H3.
  destruct (collectorOf_fallback env config Hm AAVE_USDT w3 Hdown) as (w4 & H4).
  cbn [collectorOf] in H4. rewrite H4.
  destruct (collectorOf_fallback env config Hm ONDO_USDY w4 Hdown) as (w5 & H5).
  cbn [collectorOf] in H5. rewrite H5.
  do 6 eexists. reflexivity.
Qed.

(** An attempt that gets a gas price and finds it acceptable submits. *)
Lemma submitOnce_submits (cfg : Pusher.PushConfig) (rates : list RateData) (w : World) :
  Pusher.maxGasPrice cfg = None ->
  (forall w0, exists fee, getFeeData env w0 = Answered fee) ->
  exists g,
    In (EvBatchUpdateRates (Pusher.sourceIdsOf rates) (Pusher.newRatesOf rates) g)
       (trace (snd (Pusher.submitOnce env cfg rates w))).
Proof.
  intros Hcap Hfee.
  destruct (Hfee (afterEstimate env rates w)) as (fee & Hf).
  apply (submitOnce_within_cap env cfg rates fee w Hf).
  unfold Pusher.gasPriceTooHigh. rewrite Hcap. reflexivity.
Qed.

Lemma pushBatchRates_submits (cfg : Pusher.PushConfig) (rates : list RateData)
  (w : World) :
  Pusher.maxGasPrice cfg = None ->
  (forall w0, exists fee, getFeeData env w0 = Answered fee) ->
  exists g,
    In (EvBatchUpdateRates (Pusher.sourceIdsOf rates) (Pusher.newRatesOf rates) g)
       (trace (snd (Pusher.pushBatchRates env rates
                      (Pusher.mkPusher cfg Pusher.newCircuitBreaker) w))).
Proof.
  intros Hcap Hfee.
  destruct (submitOnce_submits cfg rates w Hcap Hfee) as (g & Hin).
  exists g.
  unfold Pusher.pushBatchRates, Pusher.execute. cbn [Pusher.guard Pusher.checkOpen
    Pusher.checkHalfOpen Pusher.circuitBreaker Pusher.config
    Pusher.newCircuitBreaker Pusher.state].
  unfold Pusher.withRetry.
  change (Z.to_nat (Pusher.maxRetries Pusher.DEFAULT_RETRY_CONFIG)) with 3%nat.
  pose proof (retryLoop_keeps_first _ (Pusher.submitOnce env cfg rates)
                Pusher.DEFAULT_RETRY_CONFIG 2 1 ThrownNull w _
                (growing_submitOnce env cfg rates) Hin) as Hkept.
  destruct (Pusher.retryLoop _ _ 3 1 ThrownNull w) as [[r|e] w1];
    cbn [snd] in *; exact Hkept.
Qed.

Lemma fullUpdate_submits (cfg : Pusher.PushConfig) (rates : list RateData)
  (w : World) :
  Pusher.maxGasPrice cfg = None ->
  (forall w0, exists fee, getFeeData env w0 = Answered fee) ->
  (forall w0, exists d, getDOR env w0 = Answered d) ->
  exists g,
    In (EvBatchUpdateRates (Pusher.sourceIdsOf rates) (Pusher.newRatesOf rates) g)
       (trace (snd (Pusher.fullUpdate env rates
                      (Pusher.mkPusher cfg Pusher.newCircuitBreaker) w))).
Proof.
  intros Hcap Hfee Hdor.
  unfold Pusher.fullUpdate, Pusher.getCurrentDOR.
  unfold external at 1. destruct (Hdor w) as (d & Hd). rewrite Hd.
  match goal with |- context [Pusher.pushBatchRates env rates ?p ?x] =>
    destruct (pushBatchRates_submits cfg rates x Hcap Hfee) as (g & Hin);
    destruct (Pusher.pushBatchRates env rates p x) as [[[r|t] p1] w2]
  end; cbn [snd] in *; exists g; [|exact Hin].
  pose proof (growing_external Z env EvGetDOR (getDOR env) w2) as Hg.
  destruct (external env EvGetDOR (getDOR env) w2) as [[d'|t] w3];
    cbn [snd] in *; eapply grows_In; eauto.
Qed.

Lemma growing_saveToDatabase cfg rates dor result error :
  growing (Oracle.saveToDatabase env cfg rates dor result error).
Proof.
  unfold Oracle.saveToDatabase.
  destruct (negb (Oracle.useDatabase cfg)); [apply growing_ret|].
  apply growing_try_catch; [|intros; apply growing_ret].
  apply growing_bind; [apply growing_external|intros].
  apply growing_bind; [apply growing_external|intros; apply growing_ret].
Qed.

Lemma growing_finallyBlock cfg dryRun l :
  growing (Oracle.finallyBlock env cfg dryRun l).
Proof.
  unfold Oracle.finallyBlock.
  destruct (negb dryRun && _); [apply growing_saveToDatabase|apply growing_ret].
Qed.

Lemma growing_catchBlock cfg l : growing (Oracle.catchBlock env cfg l).
Proof.
  unfold Oracle.catchBlock.
  destruct (Oracle.useDatabase cfg && _); [|apply growing_ret].
  apply growing_bind; [apply growing_external|intros; apply growing_ret].
Qed.

(** What the [try] block has put in the trace stays there to the end of
    the cycle. *)
Lemma runUpdateWith_keeps (cfg : Oracle.Config) (collect : Async (list RateData))
  (dryRun : bool) (w : World) (ev : Event) :
  In ev (trace (snd (Oracle.tryBlock env cfg collect dryRun w))) ->
  In ev (trace (snd (Oracle.runUpdateWith env cfg collect dryRun w))).
Proof.
  unfold Oracle.runUpdateWith.
  destruct (Oracle.tryBlock env cfg collect dryRun w) as [[[u|[|e]] l] w1];
    cbn [snd]; intros Hin.
  - eapply grows_In; [apply growing_finallyBlock|exact Hin].
  - pose proof (growing_finallyBlock cfg dryRun l w1) as Hf.
    destruct (Oracle.finallyBlock env cfg dryRun l w1) as [[u|t] w3];
      cbn [snd] in *; (eapply grows_In; [exact Hf|exact Hin]).
  - cbv zeta.
    match goal with |- context [Oracle.catchBlock env cfg ?l1 w1] =>
      pose proof (growing_catchBlock cfg l1 w1) as Hc;
      destruct (Oracle.catchBlock env cfg l1 w1) as [caught w2];
      pose proof (growing_finallyBlock cfg dryRun l1 w2) as Hf;
      destruct (Oracle.finallyBlock env cfg dryRun l1 w2) as [[u|t] w3]
    end; cbn [snd] in *;
      (eapply grows_In; [exact Hf|]); (eapply grows_In; [exact Hc|]); exact Hin.
Qed.

End Outage.

(** X29: an outage of every rate source does not stop a live cycle: with
    the address configured, a key configured that the wallet library
    accepts, the wallet authorized and a chain that answers the reads of
    the current rate and of the gas price, the cycle submits the five
    hardcoded fallback rates 350, 450, 460, 550 and 500 for the sources 0
    to 4. *)
Theorem outage_pushes_fallback_rates
  (env : Env) (cfg : Oracle.Config) (w : World) :
  allEndpointsFail env ->
  Oracle.truthy (Oracle.oracleAddress cfg) = true ->
  Oracle.truthy (Oracle.privateKey cfg) = true ->
  walletAccepts env (Oracle.privateKey cfg) = true ->
  (forall w0, authorizedUpdaters env w0 = Answered true) ->
  (forall w0, exists d, getDOR env w0 = Answered d) ->
  (forall w0, exists fee, getFeeData env w0 = Answered fee) ->
  exists g,
    In (EvBatchUpdateRates [0; 1; 2; 3; 4] [350; 450; 460; 550; 500] g)
       (trace (snd (Oracle.runUpdate env cfg false w))).
Proof.
  intros Hdown Haddr Hkey Hwallet Hauth Hdor Hfee.
  destruct (collectAllRates_outage env Collectors.DEFAULT_CONFIG w) as
    (t1 & t2 & t3 & t4 & t5 & w1 & Hc); [simpl; lia|exact Hdown|].
  set (rates := [ mkRate TESR "TESR" 350 t1 "Fallback" false;
                  mkRate METH "mETH" 450 t2 "Fallback" false;
                  mkRate SOFR "SOFR" 460 t3 "Fallback" false;
                  mkRate AAVE_USDT "Aave_USDT" 550 t4 "Fallback" false;
                  mkRate ONDO_USDY "Ondo_USDY" 500 t5 "Fallback" false ]) in *.
  assert (Hvalid : isValid (Collectors.validateRates (clock w1) rates) = true).
  { rewrite validateRates_unfold. reflexivity. }
  match goal with |- context [trace (snd (Oracle.runUpdate env cfg false w))] =>
    assert (Hpush : exists g,
              In (EvBatchUpdateRates (Pusher.sourceIdsOf rates)
                    (Pusher.newRatesOf rates) g)
                 (trace (snd (Oracle.tryBlock env cfg
                                (Collectors.collectAllRates env Collectors.DEFAULT_CONFIG)
                                false w))))
  end.
  { unfold Oracle.tryBlock. rewrite Hc.
    change (zlength rates =? 0) with false. cbv iota.
    rewrite Hvalid, Haddr, Hkey. cbn [negb].
    unfold Oracle.newPusher, Pusher.newRatePusher.
    cbn [Oracle.pushConfigOf Pusher.privateKey]. rewrite Hwallet.
    unfold Pusher.isAuthorized, try_catch. unfold external at 1.
    rewrite Hauth. cbn [negb].
    match goal with |- context [Pusher.fullUpdate env rates ?p ?x] =>
      destruct (fullUpdate_submits env (Pusher.config p) rates x eq_refl Hfee Hdor)
        as (g & Hin);
      cbn [Pusher.config] in Hin;
      destruct (Pusher.fullUpdate env rates p x) as [[[r|t] p1] w3]
    end; exists g; exact Hin. }
  destruct Hpush as (g & Hin). exists g.
  unfold Oracle.runUpdate. apply runUpdateWith_keeps. exact Hin.
Qed.

Lemma outage_pushes_fallback_rates_witness :
  allEndpointsFail calmEnv
  /\ exists g,
       In (EvBatchUpdateRates [0; 1; 2; 3; 4] [350; 450; 460; 550; 500] g)
          (trace (snd (Oracle.runUpdate calmEnv demoConfig false startWorld))).
Proof.
  assert (Hdown : allEndpointsFail calmEnv) by (intros u w; exact I).
  split; [exact Hdown|].
  apply (outage_pushes_fallback_rates calmEnv demoConfig startWorld Hdown).
  - reflexivity.
  - reflexivity.
  - reflexivity.
  - intros w0. reflexivity.
  - intros w0. exists 453. reflexivity.
  - intros w0. exists (Some 10). reflexivity.
Defined.

(** ** The number of requests of a collector *)

Section Requests.

Variable env : Env.
Variable config : Collectors.CollectorConfig.

Lemma fetchParsed_one_request id label s :
  requestsAtMost 1 (Collectors.fetchParsed env id label s).
Proof.
  intros w. unfold Collectors.fetchParsed, bind, Collectors.httpGet, external,
    throw, now, ret.
  destruct (http env (Collectors.url s) w) as [[p|]|m];
    unfold httpRequests; simpl; lia.
Qed.

Lemma fetchApi_one_request s : requestsAtMost 1 (Collectors.fetchApi env s).
Proof.
  intros w. unfold Collectors.fetchApi, bind, Collectors.httpGet, external,
    throw, ret.
  destruct (http env (Collectors.apiUrl s) w) as [[p|]|m];
    try destruct (Collectors.rejectsZero s && negb (truthyNumber (round64 p)));
    unfold httpRequests; simpl; lia.
Qed.

Lemma retryLoop_requests (T : Type) (fn : Async T) :
  requestsAtMost 1 fn ->
  forall turns attempt lastError,
    requestsAtMost turns (Collectors.retryLoop fn config turns attempt lastError).
Proof.
  intros Hfn. induction turns as [|k IH]; intros attempt lastError w.
  - simpl. lia.
  - cbn [Collectors.retryLoop]. specialize (Hfn w).
    destruct (fn w) as [[v|e] w1]; cbn [snd] in *; [lia|].
    match goal with |- context [Collectors.retryLoop fn config k ?a ?l ?x] =>
      specialize (IH a l x);
      assert (Hx : httpRequests x = httpRequests w1)
        by (destruct (attempt <? Collectors.maxRetries config); reflexivity)
    end.
    lia.
Qed.

Lemma trySources_requests (A : Type) (n : nat) (attempts : list (Async A))
  (fallback : Async A) :
  Forall (requestsAtMost n) attempts ->
  requestsAtMost 0 fallback ->
  requestsAtMost (n * List.length attempts) (Collectors.trySources attempts fallback).
Proof.
  intros Hall Hfb. induction Hall as [|c cs Hc _ IH]; intros w.
  - cbn [Collectors.trySources List.length]. specialize (Hfb w). lia.
  - cbn [Collectors.trySources List.length]. specialize (Hc w).
    destruct (c w) as [[v|[|e]] w1]; cbn [snd] in *; try lia.
    specialize (IH w1). lia.
Qed.

Lemma fallbackObservation_no_request id label bps :
  requestsAtMost 0 (Collectors.fallbackObservation id label bps).
Proof. intros w. rewrite fallbackObservation_run. cbn [snd]. lia. Qed.

Lemma collectParsed_requests id label sources bps :
  requestsAtMost (Z.to_nat (Collectors.maxRetries config) * List.length sources)
    (Collectors.collectParsed env config id label sources bps).
Proof.
  unfold Collectors.collectParsed.
  rewrite <- (length_map (Collectors.parsedAttempt env config id label) sources).
  apply trySources_requests; [|apply fallbackObservation_no_request].
  apply Forall_map, Forall_forall. intros s _.
  apply retryLoop_requests, fetchParsed_one_request.
Qed.

Lemma collectApi_requests id label origin sources bps :
  requestsAtMost (Z.to_nat (Collectors.maxRetries config) * List.length sources)
    (Collectors.collectApi env config id label origin sources bps).
Proof.
  unfold Collectors.collectApi.
  rewrite <- (length_map (Collectors.apiAttempt env config id label origin) sources).
  apply trySources_requests; [|apply fallbackObservation_no_request].
  apply Forall_map, Forall_forall. intros s _ w.
  unfold Collectors.apiAttempt, bind.
  pose proof (retryLoop_requests _ (Collectors.fetchApi env s)
                (fetchApi_one_request s)
                (Z.to_nat (Collectors.maxRetries config)) 1 ThrownNull w) as H.
  fold (Collectors.withRetry (Collectors.fetchApi env s) config) in H.
  destruct (Collectors.withRetry (Collectors.fetchApi env s) config w)
    as [[v|e] w1]; exact H.
Qed.

End Requests.

(** X30: a collector makes at most [maxRetries] HTTP requests for each of
    its endpoints (two endpoints, three for Ondo USDY), whatever they
    answer. *)
Theorem collector_requests_bounded
  (env : Env) (config : Collectors.CollectorConfig) (s : RateSourceId) (w : World) :
  (httpRequests (snd (collectorOf s env config w))
   <= httpRequests w + Z.to_nat (Collectors.maxRetries config) * endpointCount s)%nat.
Proof.
  destruct s; cbn [collectorOf endpointCount];
    first [ apply collectParsed_requests | apply collectApi_requests ].
Qed.
